(** * ValuesBlockInputFormat: the adaptive reader of the [Values] row format

    A shallow embedding of
    [src/Processors/Formats/Impl/ValuesBlockInputFormat.cpp]
    and the properties its design document states about it.

    The reader's collaborators (literal deserializers, the SQL lexer and
    parser, the constant-expression evaluator, expression templates and
    their cache, the buffer's test for unread data) are interfaces of other
    translation units; they are the fields of the class [Collaborators]
    below.  The member functions of
    [ValuesBlockInputFormat] are computations in a state-and-exception
    monad over the object's fields. *)

From Stdlib Require Import ZArith QArith Ascii String List Lia Bool.
From Stdlib Require Import Floats.SpecFloat.
From stdpp Require Import base list strings.

Set Default Proof Using "Type".
Set Warnings "-register-all".
Open Scope nat_scope.

(** ** ReadBuffer

    A [ReadBuffer] hands out its input one working buffer at a time:
    [working] is the range from [position()] to [buffer().end()],
    [pending] is what the following calls of [next()] deliver, and
    [bytes] is [count()], the number of bytes consumed so far. *)

Record ReadBuffer := mkReadBuffer {
  bytes : nat;
  working : list ascii;
  pending : list (list ascii)
}.

(** The input still to be read, as one byte sequence. *)
Definition unread (b : ReadBuffer) : list ascii :=
  working b ++ concat (pending b).

(** [next()] until a non-empty working buffer arrives. *)
Fixpoint next_chunk (chunks : list (list ascii)) : list ascii * list (list ascii) :=
  match chunks with
  | [] => ([], [])
  | [] :: cs => next_chunk cs
  | c :: cs => (c, cs)
  end.

(** The side effect of [eof()]: when the working buffer is used up, the
    next one is loaded. *)
Definition refill (b : ReadBuffer) : ReadBuffer :=
  match working b with
  | [] => let '(w, p) := next_chunk (pending b) in mkReadBuffer (bytes b) w p
  | _ :: _ => b
  end.

(** [eof()], on a buffer whose [eof()] side effect has been applied. *)
Definition at_eof (b : ReadBuffer) : bool :=
  match working b with [] => true | _ :: _ => false end.

Definition eof (b : ReadBuffer) : bool * ReadBuffer :=
  let b' := refill b in (at_eof b', b').

(** The byte at [position()], after [!buf.eof()]. *)
Definition peek (b : ReadBuffer) : option ascii := head (working (refill b)).

(** [++buf.position()] *)
Definition advance (b : ReadBuffer) : ReadBuffer :=
  match working b with
  | [] => b
  | _ :: w => mkReadBuffer (S (bytes b)) w (pending b)
  end.

(** [n] times [if (!buf.eof()) ++buf.position()]. *)
Fixpoint ignore (n : nat) (b : ReadBuffer) : ReadBuffer :=
  match n with
  | O => b
  | S n' => ignore n' (advance (refill b))
  end.

(** The next [n] bytes of the input. *)
Definition lookahead (n : nat) (b : ReadBuffer) : list ascii := take n (unread b).

(** ** Helpers of IO/ReadHelpers.h *)

(** Modelled from the spec: [isWhitespaceASCII] of the string utilities
    (not under src/). *)
Definition isWhitespaceASCII (c : ascii) : bool :=
  match c with
  | " "%char | "009"%char | "010"%char | "011"%char | "012"%char | "013"%char => true
  | _ => false
  end.

Fixpoint skip_ws_in (n : nat) (w : list ascii) : nat * list ascii :=
  match w with
  | c :: w' => if isWhitespaceASCII c then skip_ws_in (S n) w' else (n, w)
  | [] => (n, [])
  end.

Fixpoint skip_ws_chunks (n : nat) (p : list (list ascii)) : ReadBuffer :=
  match p with
  | [] => mkReadBuffer n [] []
  | c :: p' =>
      match skip_ws_in n c with
      | (n', []) => skip_ws_chunks n' p'
      | (n', w) => mkReadBuffer n' w p'
      end
  end.

(** Modelled from the spec: [skipWhitespaceIfAny] of IO/ReadHelpers.h (not
    under src/): [while (!buf.eof() && isWhitespaceASCII(buf.position()[0]))
    ++buf.position();] *)
Definition skipWhitespaceIfAny (b : ReadBuffer) : ReadBuffer :=
  match skip_ws_in (bytes b) (working b) with
  | (n', []) => skip_ws_chunks n' (pending b)
  | (n', w) => mkReadBuffer n' w (pending b)
  end.

(** Modelled from the spec: [checkChar] of IO/ReadHelpers.h (not under
    src/): consume the byte [c] if it is next. *)
Definition checkChar (c : ascii) (b : ReadBuffer) : bool * ReadBuffer :=
  let b' := refill b in
  match working b' with
  | x :: _ => if Ascii.eqb x c then (true, advance b') else (false, b')
  | [] => (false, b')
  end.

(** What [skipWhitespaceIfAny] leaves of an input. *)
Fixpoint skip_spaces (l : list ascii) : list ascii :=
  match l with
  | c :: l' => if isWhitespaceASCII c then skip_spaces l' else l
  | [] => []
  end.

(** What the input must be for [checkDelimiterAfterValue] to hold, and the
    input left after the delimiter: a comma for a column that is not the
    last; for the last column the closing round bracket, which a comma may
    precede. *)
Definition delimiter_after (last : bool) (input : list ascii) : option (list ascii) :=
  match skip_spaces input with
  | c :: r =>
      if Ascii.eqb c ","%char then
        if last then
          match skip_spaces r with
          | c' :: r' => if Ascii.eqb c' ")"%char then Some r' else None
          | [] => None
          end
        else Some r
      else if last && Ascii.eqb c ")"%char then Some r
      else None
  | [] => None
  end.

(** Modelled from the spec: [equalsCaseInsensitive] of the string
    utilities (not under src/), on ASCII letters. *)
Definition to_lower (c : ascii) : ascii :=
  let n := nat_of_ascii c in
  if (65 <=? n) && (n <=? 90) then ascii_of_nat (n + 32) else c.

Definition equalsCaseInsensitive (a b : ascii) : bool :=
  Ascii.eqb (to_lower a) (to_lower b).

(** ** The row-boundary scan *)

(** [find_first_symbols<'\\', '\'', ')', '('>(position, buffer().end())]:
    the number of bytes before the first of the four symbols, and the rest
    of the working buffer from that symbol on. *)
Definition is_scan_symbol (c : ascii) : bool :=
  Ascii.eqb c "\"%char || Ascii.eqb c "'"%char || Ascii.eqb c ")"%char || Ascii.eqb c "("%char.

Fixpoint find_first_symbols (w : list ascii) : nat * list ascii :=
  match w with
  | [] => (0, [])
  | c :: w' =>
      if is_scan_symbol c then (0, w)
      else let '(n, r) := find_first_symbols w' in (S n, r)
  end.

Record ScanState := mkScan {
  sbuf : ReadBuffer;
  sbalance : Z;
  squoted : bool
}.

(** The loop condition of [skipToNextRow], evaluated on a buffer to which
    the [eof()] of the condition has been applied. *)
Definition scan_continue (min_chunk_bytes chunk_begin_buf_count : nat) (st : ScanState) : bool :=
  negb (at_eof (sbuf st))
  && (negb (sbalance st =? 0)%Z || (bytes (sbuf st) - chunk_begin_buf_count <? min_chunk_bytes)).

(** One pass through the body of the loop, ending with the [eof()] of the
    next test of the loop condition. *)
Definition scan_body (st : ScanState) : ScanState :=
  let b := sbuf st in
  let '(n, r) := find_first_symbols (working b) in
  let b1 := mkReadBuffer (bytes b + n) r (pending b) in
  match r with
  | [] => (* position() == buffer().end(): continue *)
      mkScan (refill b1) (sbalance st) (squoted st)
  | c :: _ =>
      if Ascii.eqb c "\"%char then
        let b2 := refill (advance b1) in
        mkScan (refill (advance b2)) (sbalance st) (squoted st)
      else if Ascii.eqb c "'"%char then
        mkScan (refill (advance b1)) (sbalance st) (negb (squoted st))
      else if Ascii.eqb c ")"%char then
        mkScan (refill (advance b1))
               (if squoted st then sbalance st else (sbalance st - 1)%Z) (squoted st)
      else if Ascii.eqb c "("%char then
        mkScan (refill (advance b1))
               (if squoted st then sbalance st else (sbalance st + 1)%Z) (squoted st)
      else mkScan (refill b1) (sbalance st) (squoted st)
  end.

Fixpoint scan_loop (fuel : nat) (min_chunk_bytes chunk_begin_buf_count : nat)
    (st : ScanState) : ScanState :=
  match fuel with
  | O => st
  | S fuel' =>
      if scan_continue min_chunk_bytes chunk_begin_buf_count st
      then scan_loop fuel' min_chunk_bytes chunk_begin_buf_count (scan_body st)
      else st
  end.

(** Every pass of the loop consumes at least one byte, so the number of
    unread bytes bounds the number of passes. *)
Definition scan_fuel (b : ReadBuffer) : nat := S (length (unread b)).

(** [if (!buf->eof() && buf->position()[0] == ',') ++buf->position();] *)
Definition skip_comma (b : ReadBuffer) : ReadBuffer := snd (checkChar ","%char b).

(** [ValuesBlockInputFormat::skipToNextRow] *)
Definition skipToNextRow (buf : ReadBuffer) (min_chunk_bytes : nat) (balance : Z)
    : bool * ReadBuffer :=
  let buf := refill (skipWhitespaceIfAny buf) in
  if at_eof buf || bool_decide (head (working buf) = Some ";"%char) then (false, buf)
  else
    let chunk_begin_buf_count := bytes buf in
    let st := scan_loop (scan_fuel buf) min_chunk_bytes chunk_begin_buf_count
                        (mkScan buf balance false) in
    (true, skip_comma (sbuf st)).

(** ** PeekableReadBuffer

    The cursor of the reader: a [ReadBuffer] with at most one checkpoint.
    Everything read since the checkpoint stays addressable, so a rollback
    restores the position exactly. *)

Record PeekableReadBuffer := mkPeekable {
  cursor : ReadBuffer;
  checkpoint : option ReadBuffer
}.

Definition setCheckpoint (b : PeekableReadBuffer) : PeekableReadBuffer :=
  mkPeekable (cursor b) (Some (cursor b)).

Definition dropCheckpoint (b : PeekableReadBuffer) : PeekableReadBuffer :=
  mkPeekable (cursor b) None.

Definition rollbackToCheckpoint (b : PeekableReadBuffer) : PeekableReadBuffer :=
  match checkpoint b with
  | Some c => mkPeekable c (checkpoint b)
  | None => b
  end.

(** [buf->position() = p] for a pointer [p] into the memory kept since the
    checkpoint, given as its offset in the input. *)
Definition set_position (offset : nat) (b : PeekableReadBuffer) : PeekableReadBuffer :=
  let base := match checkpoint b with Some c => c | None => cursor b end in
  mkPeekable (ignore (offset - bytes base) base) (checkpoint b).

Definition on_cursor (f : ReadBuffer -> ReadBuffer) (b : PeekableReadBuffer) : PeekableReadBuffer :=
  mkPeekable (f (cursor b)) (checkpoint b).

(** ** Errors *)

Inductive ErrorCode :=
  | LOGICAL_ERROR
  | SYNTAX_ERROR
  | TYPE_MISMATCH
  | SUPPORT_IS_DISABLED
  | ARGUMENT_OUT_OF_BOUND
  | CANNOT_READ_ALL_DATA
  | CANNOT_PARSE_INPUT_ASSERTION_FAILED
  | BAD_GET
  | OtherError (code : Z).

#[global] Instance ErrorCode_eq_dec : EqDecision ErrorCode.
Proof. solve_decision. Defined.

(** An exception: its code, and the row number that [read] attaches to
    parse errors. *)
Record Exception := mkException {
  code : ErrorCode;
  at_row : option N
}.

Definition exception (c : ErrorCode) : Exception := mkException c None.

Inductive Outcome (A : Type) :=
  | Ret (a : A)
  | Throw (e : Exception).
Arguments Ret {A} a.
Arguments Throw {A} e.

(** Modelled from the spec: [assertChar] of IO/ReadHelpers.h (not under
    src/): consume the byte [c] or raise the assertion-failed parse error. *)
Definition assertChar (c : ascii) (b : ReadBuffer) : Outcome unit * ReadBuffer :=
  match checkChar c b with
  | (true, b') => (Ret tt, b')
  | (false, b') => (Throw (exception CANNOT_PARSE_INPUT_ASSERTION_FAILED), b')
  end.

(** Modelled from the spec: [assertStringCaseInsensitive] of
    IO/ReadHelpers.h (not under src/): consume [s] byte by byte, raising
    the assertion-failed parse error at the first byte that differs. *)
Fixpoint assertStringCaseInsensitive (s : list ascii) (b : ReadBuffer)
    : Outcome unit * ReadBuffer :=
  match s with
  | [] => (Ret tt, b)
  | c :: s' =>
      let b' := refill b in
      match working b' with
      | x :: _ =>
          if equalsCaseInsensitive x c
          then assertStringCaseInsensitive s' (advance b')
          else (Throw (exception CANNOT_PARSE_INPUT_ASSERTION_FAILED), b')
      | [] => (Throw (exception CANNOT_PARSE_INPUT_ASSERTION_FAILED), b')
      end
  end.

(** Modelled from the spec: [checkStringByFirstCharacterAndAssertTheRestCaseInsensitive]
    of IO/ReadHelpers.h (not under src/): false, consuming nothing, when
    the next byte is not the first byte of [s] in either case; otherwise
    the whole of [s] must follow. *)
Definition checkStringByFirstCharacterAndAssertTheRestCaseInsensitive
    (s : list ascii) (b : ReadBuffer) : Outcome bool * ReadBuffer :=
  let b' := refill b in
  match working b', s with
  | x :: _, c :: _ =>
      if equalsCaseInsensitive c x then
        match assertStringCaseInsensitive s b' with
        | (Ret _, b'') => (Ret true, b'')
        | (Throw e, b'') => (Throw e, b'')
        end
      else (Ret false, b')
  | _, _ => (Ret false, b')
  end.

Definition DEFAULT : list ascii := list_ascii_of_string "DEFAULT".

(** Modelled from the spec: [skipBOMIfExists] of IO/ReadHelpers.h (not
    under src/): skip the three bytes EF BB BF when the input starts with
    them. *)
Definition skipBOMIfExists (b : ReadBuffer) : ReadBuffer :=
  if bool_decide (lookahead 3 b = ["239"; "187"; "191"]%char) then ignore 3 b else b.

(** ** Values and types *)

Inductive Field :=
  | Null
  | UInt64 (n : N)
  | Int64 (z : Z)
  | Str (s : string)
  | Array (xs : list Field)
  | Tuple (xs : list Field)
  | Map (xs : list Field).

Definition isNull (v : Field) : bool :=
  match v with Null => true | _ => false end.

Inductive IDataType :=
  | DataTypeUInt64
  | DataTypeInt64
  | DataTypeString
  | DataTypeNullable (nested : IDataType)
  | DataTypeLowCardinality (dictionary : IDataType)
  | DataTypeArray (nested : IDataType)
  | DataTypeTuple (elements : list IDataType)
  | DataTypeMap (key value : IDataType).

Definition isNullable (t : IDataType) : bool :=
  match t with DataTypeNullable _ => true | _ => false end.

Definition isLowCardinalityNullable (t : IDataType) : bool :=
  match t with DataTypeLowCardinality (DataTypeNullable _) => true | _ => false end.

Definition isNullableOrLowCardinalityNullable (t : IDataType) : bool :=
  isNullable t || isLowCardinalityNullable t.

(** A column buffer. *)
Definition IColumn := list Field.

Definition popBack (n : nat) (c : IColumn) : IColumn := take (length c - n) c.

(** ** Tokens *)

Inductive TokenType :=
  | BareWord
  | Number
  | StringLiteral
  | OpeningRoundBracket
  | ClosingRoundBracket
  | Comma
  | Plus
  | Minus
  | OtherToken (n : nat)
  | EndOfStream
  | Error.

#[global] Instance TokenType_eq_dec : EqDecision TokenType.
Proof. solve_decision. Defined.

(** A token: its type, where it begins as an offset in the input, and the
    bytes it spans (in the source, the range from [begin] to [end]). *)
Record Token := mkToken {
  type : TokenType;
  begin : nat;
  text : list ascii
}.

Definition isEnd (t : Token) : bool := bool_decide (type t = EndOfStream).
Definition isError (t : Token) : bool := bool_decide (type t = Error).

(** [IParser::Pos]: an iterator over the tokens of a row.  Past the last
    token it stays on the end-of-stream token at the end of the tokenized
    range. *)
Record TokenIterator := mkTokenIterator {
  tokens_left : list Token;
  range_end : nat
}.

Definition current (it : TokenIterator) : Token :=
  match tokens_left it with
  | t :: _ => t
  | [] => mkToken EndOfStream (range_end it) []
  end.

(** [++it] *)
Definition next_token (it : TokenIterator) : TokenIterator :=
  mkTokenIterator (tail (tokens_left it)) (range_end it).

(** [while (it->begin < position && !it->isError() && !it->isEnd()) ++it;] *)
Fixpoint skip_tokens_before (position : nat) (toks : list Token) : list Token :=
  match toks with
  | t :: rest =>
      if (begin t <? position) && negb (isError t) && negb (isEnd t)
      then skip_tokens_before position rest
      else toks
  | [] => []
  end.

(** ** The reader's own types *)

Inductive ParserType :=
  | Streaming
  | BatchTemplate
  | SingleExpressionEvaluation.

#[global] Instance ParserType_eq_dec : EqDecision ParserType.
Proof. solve_decision. Defined.

(** [BlockMissingValues]: the cells (column, row) whose bit is set. *)
Definition BlockMissingValues := list (nat * nat).

Definition setBit (column_idx row_idx : nat) (m : BlockMissingValues) : BlockMissingValues :=
  (column_idx, row_idx) :: m.

Definition hasBit (column_idx row_idx : nat) (m : BlockMissingValues) : bool :=
  bool_decide ((column_idx, row_idx) ∈ m).

(** What [read] returns: the empty chunk (end of data), a chunk of columns,
    or a chunk that only counts rows. *)
Inductive Chunk :=
  | EmptyChunk
  | ChunkOf (columns : list IColumn) (rows : nat)
  | ChunkForCount (rows : nat).

(** The calls made to the collaborators, in order. *)
Inductive Event :=
  | EvDeserialize (column_idx : nat)
  | EvParse (column_idx : nat)
  | EvTemplateParse (column_idx : nat)
  | EvGetTemplate (column_idx : nat)
  | EvEvaluateAll (column_idx : nat)
  | EvEvaluate (column_idx : nat).

#[global] Instance Event_eq_dec : EqDecision Event.
Proof. solve_decision. Defined.

(** [size_t] counters wrap around at 2^64. *)
Definition size_t_incr (n : N) : N := ((n + 1) mod 2 ^ 64)%N.

(** The settings and the header the reader is constructed with. *)
Record Settings := mkSettings {
  num_columns : nat;
  types : list IDataType;
  null_as_default : bool;
  interpret_expressions : bool;
  deduce_templates_of_expressions : bool;
  max_block_size : nat;
  need_only_count : bool
}.

(** ** The collaborators

    What the reader calls in other translation units.  A call may raise an
    exception; a call that reads input returns the buffer as it leaves it,
    in either case.  A deserializer hands back the value it reads and the
    reader's model appends it: one value on success, none when it raises. *)

Class Collaborators := {
  (** [ASTPtr] *)
  AST : Type;
  (** [ConstantExpressionTemplate::TemplateStructure], the compiled shape *)
  TemplateStructure : Type;
  (** the literals one row binds in a template *)
  Binding : Type;
  (** [ConstantExpressionTemplate::Cache] *)
  Cache : Type;
  (** [isParseError(int code)] *)
  isParseError : ErrorCode -> bool;
  (** [IDataType::getDefault], also what [insertDefault] appends *)
  getDefault : IDataType -> Field;
  (** [ISerialization::deserializeTextQuoted] *)
  deserializeTextQuoted : IDataType -> ReadBuffer -> Outcome Field * ReadBuffer;
  (** [SerializationNullable::deserializeNullAsDefaultOrNestedTextQuoted]:
      the value appended and whether it was read rather than defaulted *)
  deserializeNullAsDefaultOrNestedTextQuoted :
    IDataType -> ReadBuffer -> Outcome (Field * bool) * ReadBuffer;
  (** [Tokens(begin, end)]: the significant tokens of a byte range that
      starts at the given offset *)
  tokenize : nat -> list ascii -> list Token;
  (** the test that the tokens' memory is still the buffer's *)
  token_memory_valid : PeekableReadBuffer -> Token -> bool;
  (** [ParserExpression::parse] *)
  parse : TokenIterator -> option AST * TokenIterator;
  (** [dynamic_cast<const ASTLiteral *>] *)
  isLiteral : AST -> bool;
  (** [Cache::getFromCacheOrConstruct]: the structure and [found_in_cache] *)
  getFromCacheOrConstruct :
    Cache -> IDataType -> bool -> TokenIterator -> TokenIterator -> AST -> ascii ->
    Outcome (TemplateStructure * bool) * Cache;
  (** [ConstantExpressionTemplate::parseExpression]: the literals of the row
      when the expression has the template's shape *)
  template_parseExpression :
    TemplateStructure -> ReadBuffer -> TokenIterator ->
    Outcome (option Binding) * ReadBuffer * TokenIterator;
  (** the evaluation of one accumulated row of a template: the value and
      whether it is a default put in place of a null *)
  template_evaluate : TemplateStructure -> IDataType -> Binding -> Outcome (Field * bool);
  (** [evaluateConstantExpression] *)
  evaluateConstantExpression : AST -> Outcome (Field * IDataType);
  (** [convertFieldToType] *)
  convertFieldToType : Field -> IDataType -> IDataType -> Outcome Field;
  (** [PeekableReadBuffer::hasUnreadData]; IO/PeekableReadBuffer.h is not
      under src/, so what the method tests is left open.  [readSuffix]
      calls it next to [eof()] and reports what it finds as unread data in
      the PeekableReadBuffer (lines 640-641) *)
  hasUnreadData : PeekableReadBuffer -> bool;
  (** the data it reports is data still to be read: a buffer whose input is
      used up has none *)
  hasUnreadData_unread : forall b, hasUnreadData b = true -> unread (cursor b) <> []
}.

Section Reader.

Context `{C : Collaborators}.
Variable settings : Settings.

(** [ConstantExpressionTemplate]: a shape and the rows accumulated since
    the last [evaluateAll]. *)
Record ConstantExpressionTemplate := mkTemplate {
  structure : TemplateStructure;
  rows : list Binding
}.

Definition rowsCount (t : ConstantExpressionTemplate) : nat := length (rows t).

(** The fields of [ValuesBlockInputFormat], the [columns] that [read] builds
    and passes by reference, and the calls made so far. *)
Record ValuesBlockInputFormat := mkReader {
  buf : PeekableReadBuffer;
  token_iterator : option TokenIterator;
  parser_type_for_column : list ParserType;
  attempts_to_deduce_template : list N;
  attempts_to_deduce_template_cached : list N;
  rows_parsed_using_template : list N;
  templates : list (option ConstantExpressionTemplate);
  templates_cache : Cache;
  block_missing_values : BlockMissingValues;
  total_rows : N;
  approx_bytes_read_for_chunk : nat;
  got_exception : bool;
  columns : list IColumn;
  trace : list Event
}.

Definition with_buf (f : PeekableReadBuffer -> PeekableReadBuffer) (s : ValuesBlockInputFormat) :=
  mkReader (f (buf s)) (token_iterator s) (parser_type_for_column s)
    (attempts_to_deduce_template s) (attempts_to_deduce_template_cached s)
    (rows_parsed_using_template s) (templates s) (templates_cache s)
    (block_missing_values s) (total_rows s) (approx_bytes_read_for_chunk s)
    (got_exception s) (columns s) (trace s).

Definition with_token_iterator (v : option TokenIterator) (s : ValuesBlockInputFormat) :=
  mkReader (buf s) v (parser_type_for_column s)
    (attempts_to_deduce_template s) (attempts_to_deduce_template_cached s)
    (rows_parsed_using_template s) (templates s) (templates_cache s)
    (block_missing_values s) (total_rows s) (approx_bytes_read_for_chunk s)
    (got_exception s) (columns s) (trace s).

Definition with_parser_type_for_column (f : list ParserType -> list ParserType)
    (s : ValuesBlockInputFormat) :=
  mkReader (buf s) (token_iterator s) (f (parser_type_for_column s))
    (attempts_to_deduce_template s) (attempts_to_deduce_template_cached s)
    (rows_parsed_using_template s) (templates s) (templates_cache s)
    (block_missing_values s) (total_rows s) (approx_bytes_read_for_chunk s)
    (got_exception s) (columns s) (trace s).

Definition with_attempts_to_deduce_template (f : list N -> list N) (s : ValuesBlockInputFormat) :=
  mkReader (buf s) (token_iterator s) (parser_type_for_column s)
    (f (attempts_to_deduce_template s)) (attempts_to_deduce_template_cached s)
    (rows_parsed_using_template s) (templates s) (templates_cache s)
    (block_missing_values s) (total_rows s) (approx_bytes_read_for_chunk s)
    (got_exception s) (columns s) (trace s).

Definition with_attempts_to_deduce_template_cached (f : list N -> list N)
    (s : ValuesBlockInputFormat) :=
  mkReader (buf s) (token_iterator s) (parser_type_for_column s)
    (attempts_to_deduce_template s) (f (attempts_to_deduce_template_cached s))
    (rows_parsed_using_template s) (templates s) (templates_cache s)
    (block_missing_values s) (total_rows s) (approx_bytes_read_for_chunk s)
    (got_exception s) (columns s) (trace s).

Definition with_rows_parsed_using_template (f : list N -> list N) (s : ValuesBlockInputFormat) :=
  mkReader (buf s) (token_iterator s) (parser_type_for_column s)
    (attempts_to_deduce_template s) (attempts_to_deduce_template_cached s)
    (f (rows_parsed_using_template s)) (templates s) (templates_cache s)
    (block_missing_values s) (total_rows s) (approx_bytes_read_for_chunk s)
    (got_exception s) (columns s) (trace s).

Definition with_templates
    (f : list (option ConstantExpressionTemplate) -> list (option ConstantExpressionTemplate))
    (s : ValuesBlockInputFormat) :=
  mkReader (buf s) (token_iterator s) (parser_type_for_column s)
    (attempts_to_deduce_template s) (attempts_to_deduce_template_cached s)
    (rows_parsed_using_template s) (f (templates s)) (templates_cache s)
    (block_missing_values s) (total_rows s) (approx_bytes_read_for_chunk s)
    (got_exception s) (columns s) (trace s).

Definition with_templates_cache (v : Cache) (s : ValuesBlockInputFormat) :=
  mkReader (buf s) (token_iterator s) (parser_type_for_column s)
    (attempts_to_deduce_template s) (attempts_to_deduce_template_cached s)
    (rows_parsed_using_template s) (templates s) v
    (block_missing_values s) (total_rows s) (approx_bytes_read_for_chunk s)
    (got_exception s) (columns s) (trace s).

Definition with_block_missing_values (f : BlockMissingValues -> BlockMissingValues)
    (s : ValuesBlockInputFormat) :=
  mkReader (buf s) (token_iterator s) (parser_type_for_column s)
    (attempts_to_deduce_template s) (attempts_to_deduce_template_cached s)
    (rows_parsed_using_template s) (templates s) (templates_cache s)
    (f (block_missing_values s)) (total_rows s) (approx_bytes_read_for_chunk s)
    (got_exception s) (columns s) (trace s).

Definition with_total_rows (v : N) (s : ValuesBlockInputFormat) :=
  mkReader (buf s) (token_iterator s) (parser_type_for_column s)
    (attempts_to_deduce_template s) (attempts_to_deduce_template_cached s)
    (rows_parsed_using_template s) (templates s) (templates_cache s)
    (block_missing_values s) v (approx_bytes_read_for_chunk s)
    (got_exception s) (columns s) (trace s).

Definition with_approx_bytes_read_for_chunk (v : nat) (s : ValuesBlockInputFormat) :=
  mkReader (buf s) (token_iterator s) (parser_type_for_column s)
    (attempts_to_deduce_template s) (attempts_to_deduce_template_cached s)
    (rows_parsed_using_template s) (templates s) (templates_cache s)
    (block_missing_values s) (total_rows s) v
    (got_exception s) (columns s) (trace s).

Definition with_got_exception (v : bool) (s : ValuesBlockInputFormat) :=
  mkReader (buf s) (token_iterator s) (parser_type_for_column s)
    (attempts_to_deduce_template s) (attempts_to_deduce_template_cached s)
    (rows_parsed_using_template s) (templates s) (templates_cache s)
    (block_missing_values s) (total_rows s) (approx_bytes_read_for_chunk s)
    v (columns s) (trace s).

Definition with_columns (f : list IColumn -> list IColumn) (s : ValuesBlockInputFormat) :=
  mkReader (buf s) (token_iterator s) (parser_type_for_column s)
    (attempts_to_deduce_template s) (attempts_to_deduce_template_cached s)
    (rows_parsed_using_template s) (templates s) (templates_cache s)
    (block_missing_values s) (total_rows s) (approx_bytes_read_for_chunk s)
    (got_exception s) (f (columns s)) (trace s).

Definition log (e : Event) (s : ValuesBlockInputFormat) :=
  mkReader (buf s) (token_iterator s) (parser_type_for_column s)
    (attempts_to_deduce_template s) (attempts_to_deduce_template_cached s)
    (rows_parsed_using_template s) (templates s) (templates_cache s)
    (block_missing_values s) (total_rows s) (approx_bytes_read_for_chunk s)
    (got_exception s) (columns s) (trace s ++ [e]).

(** The reader with its cursor at [c]. *)
Definition set_cursor (c : ReadBuffer) (s : ValuesBlockInputFormat) : ValuesBlockInputFormat :=
  with_buf (fun b => mkPeekable c (checkpoint b)) s.

(** *** The monad of member functions: state and exceptions *)

Definition M (A : Type) : Type := ValuesBlockInputFormat -> Outcome A * ValuesBlockInputFormat.

Definition ret {A} (a : A) : M A := fun s => (Ret a, s).
Definition throw {A} (c : ErrorCode) : M A := fun s => (Throw (exception c), s).
Definition rethrow {A} (e : Exception) : M A := fun s => (Throw e, s).
Definition bind {A B} (m : M A) (k : A -> M B) : M B :=
  fun s => match m s with
           | (Ret a, s') => k a s'
           | (Throw e, s') => (Throw e, s')
           end.
Definition get : M ValuesBlockInputFormat := fun s => (Ret s, s).
Definition modify (f : ValuesBlockInputFormat -> ValuesBlockInputFormat) : M unit :=
  fun s => (Ret tt, f s).
(** [try m catch (const Exception & e) h] *)
Definition try_catch {A} (m : M A) (h : Exception -> M A) : M A :=
  fun s => match m s with
           | (Ret a, s') => (Ret a, s')
           | (Throw e, s') => h e s'
           end.
(** A call that reads from [*buf] *)
Definition on_buf {A} (f : ReadBuffer -> Outcome A * ReadBuffer) : M A :=
  fun s => let '(o, c) := f (cursor (buf s)) in (o, set_cursor c s).
Definition lift {A} (o : Outcome A) : M A := fun s => (o, s).

Notation "x <- m ;; k" := (bind m (fun x => k))
  (at level 100, m at next level, right associativity).
Notation "m ;;; k" := (bind m (fun _ => k))
  (at level 100, right associativity).

(** *** Access to the per-column vectors

    The vectors have [num_columns] elements and every index the reader uses
    is below [num_columns]; outside that range the C++ is undefined, and
    here a read gives a default and a write does nothing. *)

Definition column_type (column_idx : nat) : IDataType :=
  default DataTypeString (types settings !! column_idx).

Definition parser_type (column_idx : nat) (s : ValuesBlockInputFormat) : ParserType :=
  default Streaming (parser_type_for_column s !! column_idx).

Definition template_of (column_idx : nat) (s : ValuesBlockInputFormat)
    : option ConstantExpressionTemplate :=
  default None (templates s !! column_idx).

Definition column (column_idx : nat) (s : ValuesBlockInputFormat) : IColumn :=
  default [] (columns s !! column_idx).

Definition counter (l : list N) (column_idx : nat) : N := default 0%N (l !! column_idx).

Definition set_parser_type (column_idx : nat) (p : ParserType) : M unit :=
  modify (with_parser_type_for_column (<[column_idx := p]>)).

Definition set_template (column_idx : nat) (t : option ConstantExpressionTemplate) : M unit :=
  modify (with_templates (<[column_idx := t]>)).

Definition set_column (column_idx : nat) (c : IColumn) : M unit :=
  modify (with_columns (<[column_idx := c]>)).

Definition column_insert (column_idx : nat) (v : Field) : M unit :=
  modify (with_columns (alter (fun c => c ++ [v]) column_idx)).

Definition column_popBack (column_idx : nat) (n : nat) : M unit :=
  modify (with_columns (alter (popBack n) column_idx)).

Definition skip_whitespace : M unit := modify (with_buf (on_cursor skipWhitespaceIfAny)).
Definition rollback : M unit := modify (with_buf rollbackToCheckpoint).

Definition current_token (s : ValuesBlockInputFormat) : Token :=
  current (default (mkTokenIterator [] 0) (token_iterator s)).

Definition iterator (s : ValuesBlockInputFormat) : TokenIterator :=
  default (mkTokenIterator [] 0) (token_iterator s).

Definition on_buf_pure (f : ReadBuffer -> bool * ReadBuffer) : M bool :=
  on_buf (fun c => let '(r, c') := f c in (Ret r, c')).

Definition incr_counter (column_idx : nat) (l : list N) : list N :=
  alter size_t_incr column_idx l.

(** *** checkDelimiterAfterValue, assertDelimiterAfterValue *)

Definition checkDelimiterAfterValue (column_idx : nat) : M bool :=
  skip_whitespace ;;;
  if bool_decide (column_idx + 1 ≠ num_columns settings) then
    on_buf_pure (checkChar ","%char)
  else
    (* Optional trailing comma. *)
    comma <- on_buf_pure (checkChar ","%char) ;;
    (if comma then skip_whitespace else ret tt) ;;;
    on_buf_pure (checkChar ")"%char).

Definition assertDelimiterAfterValue (column_idx : nat) : M unit :=
  ok <- checkDelimiterAfterValue column_idx ;;
  if ok then ret tt else throw CANNOT_PARSE_INPUT_ASSERTION_FAILED.

(** *** shouldDeduceNewTemplate

    The weighted score and the ratio are [double]s in the source.  They are
    computed here in exact rational arithmetic, with which the [double]
    results agree on every counter below 2^51: the score is then a multiple
    of one half below 2^53, and the quotient is compared with 1 only. *)

Definition Qltb (x y : Q) : bool := negb (Qle_bool y x).

Definition Q_of_size_t (n : N) : Q := inject_Z (Z.of_N n).

Definition attempts_weighted (column_idx : nat) (s : ValuesBlockInputFormat) : Q :=
  (1.5 * Q_of_size_t (counter (attempts_to_deduce_template s) column_idx)
   + 0.5 * Q_of_size_t (counter (attempts_to_deduce_template_cached s) column_idx))%Q.

Definition max_attempts : Q := 100%Q.

Definition shouldDeduceNewTemplate (column_idx : nat) : M bool :=
  if negb (deduce_templates_of_expressions settings) then ret false
  else
    s <- get ;;
    let attempts_weighted := attempts_weighted column_idx s in
    if Qltb attempts_weighted max_attempts then ret true
    else if Qltb 1 (Q_of_size_t (counter (rows_parsed_using_template s) column_idx)
                    / attempts_weighted)%Q
    then
      (* Try again *)
      modify (with_attempts_to_deduce_template (<[column_idx := 0%N]>)) ;;;
      modify (with_attempts_to_deduce_template_cached (<[column_idx := 0%N]>)) ;;;
      modify (with_rows_parsed_using_template (<[column_idx := 0%N]>)) ;;;
      ret true
    else ret false.

(** *** readUntilTheEndOfRowAndReTokenize *)

(** Lines 200-219: scan to the end of the row, go back to the checkpoint
    and tokenize the bytes in between. *)
Definition retokenize : M unit :=
  modify (with_buf (on_cursor (fun c => snd (skipToNextRow c 0 1)))) ;;;
  s <- get ;;
  let row_end := bytes (cursor (buf s)) in
  rollback ;;;
  s <- get ;;
  let position := cursor (buf s) in
  let it := mkTokenIterator
              (tokenize (bytes position) (lookahead (row_end - bytes position) position))
              row_end in
  modify (with_token_iterator (Some it)) ;;;
  let first := current it in
  if isError first || isEnd first then throw SYNTAX_ERROR else ret tt.

Definition readUntilTheEndOfRowAndReTokenize (current_column_idx : nat) : M unit :=
  s <- get ;;
  match token_iterator s with
  | Some it =>
      if token_memory_valid (buf s) (current it) then
        let it' := mkTokenIterator
                     (skip_tokens_before (bytes (cursor (buf s))) (tokens_left it))
                     (range_end it) in
        modify (with_token_iterator (Some it')) ;;;
        if negb (isError (current it')) && negb (isEnd (current it')) then ret tt
        else retokenize
      else retokenize
  | None => retokenize
  end.

(** *** tryToReplaceNullFieldsInComplexTypesWithDefaultValues *)

Fixpoint tryToReplaceNullFieldsInComplexTypesWithDefaultValues
    (data_type : IDataType) (value : Field) {struct data_type} : Outcome Field :=
  match data_type, value with
  | DataTypeTuple elements, Tuple tuple_value =>
      if bool_decide (length tuple_value ≠ length elements)
      then Throw (exception TYPE_MISMATCH)
      else
        match
          (fix go (ets : list IDataType) (vs : list Field) {struct ets}
             : Outcome (list Field) :=
             match ets, vs with
             | element_type :: ets', v :: vs' =>
                 let v := if isNull v && negb (isNullable element_type)
                          then getDefault element_type else v in
                 match tryToReplaceNullFieldsInComplexTypesWithDefaultValues element_type v with
                 | Throw e => Throw e
                 | Ret v' =>
                     match go ets' vs' with
                     | Throw e => Throw e
                     | Ret rest => Ret (v' :: rest)
                     end
                 end
             | _, _ => Ret []
             end) elements tuple_value
        with
        | Throw e => Throw e
        | Ret vs => Ret (Tuple vs)
        end
  | DataTypeArray element_type, Array array_value =>
      if isNullable element_type then Ret value
      else
        match
          (fix go (vs : list Field) : Outcome (list Field) :=
             match vs with
             | [] => Ret []
             | v :: vs' =>
                 let v := if isNull v then getDefault element_type else v in
                 match tryToReplaceNullFieldsInComplexTypesWithDefaultValues element_type v with
                 | Throw e => Throw e
                 | Ret v' =>
                     match go vs' with
                     | Throw e => Throw e
                     | Ret rest => Ret (v' :: rest)
                     end
                 end
             end) array_value
        with
        | Throw e => Throw e
        | Ret vs => Ret (Array vs)
        end
  | DataTypeMap key_type value_type, Map map =>
      match
        (fix go (entries : list Field) : Outcome (list Field) :=
           match entries with
           | [] => Ret []
           | Tuple (entry_key :: entry_value :: more) :: entries' =>
               let entry_key := if isNull entry_key && negb (isNullable key_type)
                                then getDefault key_type else entry_key in
               match tryToReplaceNullFieldsInComplexTypesWithDefaultValues key_type entry_key with
               | Throw e => Throw e
               | Ret k' =>
                   let entry_value := if isNull entry_value && negb (isNullable value_type)
                                      then getDefault value_type else entry_value in
                   match tryToReplaceNullFieldsInComplexTypesWithDefaultValues
                           value_type entry_value with
                   | Throw e => Throw e
                   | Ret v' =>
                       match go entries' with
                       | Throw e => Throw e
                       | Ret rest => Ret (Tuple (k' :: v' :: more) :: rest)
                       end
                   end
               end
           | _ :: _ => Throw (exception BAD_GET)
           end) map
      with
      | Throw e => Throw e
      | Ret entries => Ret (Map entries)
      end
  | _, _ => Ret value
  end.

(** *** Expression templates *)

Fixpoint evaluate_rows (st : TemplateStructure) (ty : IDataType) (bs : list Binding)
    : Outcome (list (Field * bool)) :=
  match bs with
  | [] => Ret []
  | b :: bs' =>
      match template_evaluate st ty b with
      | Throw e => Throw e
      | Ret r =>
          match evaluate_rows st ty bs' with
          | Throw e => Throw e
          | Ret rs => Ret (r :: rs)
          end
      end
  end.

(** The rows of a batch of results that are defaults, from [offset] on. *)
Fixpoint missing_rows (offset : nat) (rs : list (Field * bool)) : list nat :=
  match rs with
  | [] => []
  | (_, true) :: rs' => offset :: missing_rows (S offset) rs'
  | (_, false) :: rs' => missing_rows (S offset) rs'
  end.

(** Modelled from the spec: [ConstantExpressionTemplate::evaluateAll]
    (Processors/Formats/Impl/ConstantExpressionTemplate.h is not under
    src/).  Section 4.3: evaluates every accumulated parameter binding in
    one pass, in order, populates the missing-value mask for the bindings
    whose value is a default in place of a null, and leaves the accumulator
    empty. *)
Definition evaluateAll (column_idx : nat) (offset : nat) : M (list Field) :=
  s <- get ;;
  match template_of column_idx s with
  | None => throw LOGICAL_ERROR
  | Some t =>
      modify (log (EvEvaluateAll column_idx)) ;;;
      results <- lift (evaluate_rows (structure t) (column_type column_idx) (rows t)) ;;
      modify (with_block_missing_values
                (fun m => foldr (setBit column_idx) m (missing_rows offset results))) ;;;
      set_template column_idx (Some (mkTemplate (structure t) [])) ;;;
      ret (map fst results)
  end.

(** The call [templates[column_idx]->parseExpression(buf, it, ...)] on an
    iterator [it] passed by reference: the outcome and the iterator as the
    call leaves it.  On a match the row's literals join the template's
    accumulated rows. *)
Definition template_parse (column_idx : nat) (it : TokenIterator)
    (s : ValuesBlockInputFormat) : Outcome bool * TokenIterator * ValuesBlockInputFormat :=
  match template_of column_idx s with
  | None => (Throw (exception LOGICAL_ERROR), it, s)
  | Some t =>
      let s := log (EvTemplateParse column_idx) s in
      let '(o, c, it') := template_parseExpression (structure t) (cursor (buf s)) it in
      let s := set_cursor c s in
      match o with
      | Throw e => (Throw e, it', s)
      | Ret None => (Ret false, it', s)
      | Ret (Some b) =>
          (Ret true, it',
           with_templates (<[column_idx := Some (mkTemplate (structure t) (rows t ++ [b]))]>) s)
      end
  end.

(** The flush of a template into its column, as written in [read] and in
    [tryParseExpressionUsingTemplate]. *)
Definition evaluate_into_column (column_idx : nat) : M unit :=
  s <- get ;;
  match column column_idx s with
  | [] =>
      evaluated <- evaluateAll column_idx 0 ;;
      set_column column_idx evaluated
  | _ :: _ =>
      evaluated <- evaluateAll column_idx (length (column column_idx s)) ;;
      modify (with_columns (alter (fun c => c ++ evaluated) column_idx))
  end.

(** *** parseExpression *)

Definition try_all {A} (m : M A) : M (Outcome A) :=
  fun s => let '(o, s') := m s in (Ret o, s').

(** Lines 417-450: tokenize if needed, parse one expression, require the
    delimiter of this column after it and step over the delimiter.  Gives
    the expression and the iterator at its first token. *)
Definition parse_with_delimiter (column_idx : nat) : M (AST * TokenIterator) :=
  (* Advance the token iterator until the start of the column expression *)
  readUntilTheEndOfRowAndReTokenize column_idx ;;;
  s <- get ;;
  r <-
    (if negb (isError (current_token s)) && negb (isEnd (current_token s)) then
       let ti_start := iterator s in
       modify (log (EvParse column_idx)) ;;;
       let '(ast, it') := parse (iterator s) in
       modify (with_token_iterator (Some it')) ;;;
       (* Consider delimiter after value (',' or ')') as part of expression *)
       let parsed :=
         if bool_decide (column_idx + 1 ≠ num_columns settings)
         then bool_decide (is_Some ast) && bool_decide (type (current it') = Comma)
         else bool_decide (is_Some ast) && bool_decide (type (current it') = ClosingRoundBracket) in
       ret (parsed, ast, Some ti_start)
     else ret (false, None, None)) ;;
  let '(parsed, ast, ti_start) := r in
  match parsed, ast, ti_start with
  | true, Some ast, Some ti_start =>
      s <- get ;;
      modify (with_token_iterator (Some (next_token (iterator s)))) ;;;
      ret (ast, ti_start)
  | _, _, _ => throw SYNTAX_ERROR
  end.

(** Lines 452-481: the expression is a literal although the column has left
    the streaming parser; try the streaming parser on it.  True when the
    column is back in [Streaming] and the value is in the column. *)
Definition probe_streaming (column_idx : nat) (ast : AST) : M bool :=
  s <- get ;;
  if bool_decide (parser_type column_idx s ≠ Streaming) && isLiteral ast then
    fun s =>
      let finish (ok rollback_on_exception : bool) : M bool :=
        if ok then set_parser_type column_idx Streaming ;;; ret true
        else (if rollback_on_exception then column_popBack column_idx 1 else ret tt) ;;;
             ret false in
      let handler (rollback_on_exception : bool) (e : Exception) : M bool :=
        let decimal_overflow := bool_decide (code e = ARGUMENT_OUT_OF_BOUND) in
        if negb (isParseError (code e)) || decimal_overflow then rethrow e
        else finish false rollback_on_exception in
      match (modify (log (EvDeserialize column_idx)) ;;;
             v <- on_buf (deserializeTextQuoted (column_type column_idx)) ;;
             column_insert column_idx v) s with
      | (Throw e, s1) => handler false e s1
      | (Ret _, s1) =>
          match (skip_whitespace ;;; checkDelimiterAfterValue column_idx) s1 with
          | (Throw e, s2) => handler true e s2
          | (Ret ok, s2) => finish ok true s2
          end
      end
  else ret false.

(** The call of [templates_cache.getFromCacheOrConstruct]: the structure
    and [found_in_cache]. *)
Definition get_template_structure (column_idx : nat) (ast : AST) (ti_start : TokenIterator)
    : M (TemplateStructure * bool) :=
  fun s =>
    let s := log (EvGetTemplate column_idx) s in
    let result_type := column_type column_idx in
    let delimiter := if bool_decide (column_idx + 1 = num_columns settings)
                     then ")"%char else ","%char in
    let '(o, cache) :=
      getFromCacheOrConstruct (templates_cache s) result_type
        (negb (isNullable result_type) && null_as_default settings)
        ti_start (iterator s) ast delimiter in
    (o, with_templates_cache cache s).

(** [templates[column_idx]->parseExpression] on a copy of an iterator. *)
Definition template_parse_copy (column_idx : nat) (it : TokenIterator) : M bool :=
  fun s => let '(o, _, s') := template_parse column_idx it s in (o, s').

(** [templates[column_idx]->parseExpression] on [*token_iterator]. *)
Definition template_parse_ref (column_idx : nat) : M bool :=
  fun s => let '(o, it', s') := template_parse column_idx (iterator s) s in
           (o, with_token_iterator (Some it') s').

(** Lines 494-522, the [try] block: get a template for the expression and
    match the expression itself against it. *)
Definition deduce_attempt (column_idx : nat) (ast : AST) (ti_start : TokenIterator) : M bool :=
  r <- get_template_structure column_idx ast ti_start ;;
  set_template column_idx (Some (mkTemplate (fst r) [])) ;;;
  (if snd r
   then modify (with_attempts_to_deduce_template_cached (incr_counter column_idx))
   else modify (with_attempts_to_deduce_template (incr_counter column_idx))) ;;;
  rollback ;;;
  matched <- template_parse_copy column_idx ti_start ;;
  if matched then
    modify (with_rows_parsed_using_template (incr_counter column_idx)) ;;;
    set_parser_type column_idx BatchTemplate ;;;
    ret true
  else ret false.

(** Lines 488-541: deduce a template from the expression.  True when the
    row was parsed with the template. *)
Definition deduce_template (column_idx : nat) (ast : AST) (ti_start : TokenIterator) : M bool :=
  s <- get ;;
  if bool_decide (is_Some (template_of column_idx s)) then throw LOGICAL_ERROR
  else
    attempt <- try_all (deduce_attempt column_idx ast ti_start) ;;
    match attempt with
    | Ret true => ret true
    | _ =>
        if negb (interpret_expressions settings) then
          match attempt with
          | Throw e => rethrow e
          | Ret _ => rollback ;;; throw SYNTAX_ERROR
          end
        else
          (* Continue parsing without template *)
          set_template column_idx None ;;;
          ret false
    end.

(** Lines 543-573: evaluate the expression once and append its value. *)
Definition evaluate_single (column_idx : nat) (ast : AST) : M bool :=
  let type := column_type column_idx in
  if negb (interpret_expressions settings) then throw SUPPORT_IS_DISABLED
  else
    (* Try to evaluate single expression if other parsers don't work *)
    s <- get ;;
    modify (with_buf (set_position (begin (current_token s)))) ;;;
    modify (log (EvEvaluate column_idx)) ;;;
    value_raw <- lift (evaluateConstantExpression ast) ;;
    expression_value <-
      (if null_as_default settings
       then lift (tryToReplaceNullFieldsInComplexTypesWithDefaultValues type (fst value_raw))
       else ret (fst value_raw)) ;;
    value <- lift (convertFieldToType expression_value type (snd value_raw)) ;;
    (* Check that we are indeed allowed to insert a NULL. *)
    if isNull value && negb (isNullable type) && negb (isLowCardinalityNullable type) then
      if null_as_default settings then
        column_insert column_idx (getDefault type) ;;;
        ret false
      else
        rollback ;;;
        throw TYPE_MISMATCH
    else
      column_insert column_idx value ;;;
      ret true.

Definition parseExpression (column_idx : nat) : M bool :=
  r <- parse_with_delimiter column_idx ;;
  let '(ast, ti_start) := r in
  streaming <- probe_streaming column_idx ast ;;
  if streaming then ret true
  else
    set_parser_type column_idx SingleExpressionEvaluation ;;;
    (* Try to deduce template of expression and use it to parse the following rows *)
    deduce <- shouldDeduceNewTemplate column_idx ;;
    templated <- (if deduce then deduce_template column_idx ast ti_start else ret false) ;;
    if templated then ret true
    else evaluate_single column_idx ast.

(** *** tryReadValue *)

(** Lines 296-310: the [DEFAULT] marker or one literal. *)
Definition read_literal (column_idx : nat) : M bool :=
  default_value <- on_buf (checkStringByFirstCharacterAndAssertTheRestCaseInsensitive DEFAULT) ;;
  if default_value then
    column_insert column_idx (getDefault (column_type column_idx)) ;;;
    ret false
  else
    let type := column_type column_idx in
    modify (log (EvDeserialize column_idx)) ;;;
    if null_as_default settings && negb (isNullableOrLowCardinalityNullable type) then
      r <- on_buf (deserializeNullAsDefaultOrNestedTextQuoted type) ;;
      column_insert column_idx (fst r) ;;;
      ret (snd r)
    else
      v <- on_buf (deserializeTextQuoted type) ;;
      column_insert column_idx v ;;;
      ret true.

(** Lines 318-331: the [catch] block, with the value [rollback_on_exception]
    has when the exception arrives. *)
Definition tryReadValue_catch (column_idx : nat) (rollback_on_exception : bool)
    (e : Exception) : M bool :=
  (* Do not consider decimal overflow as parse error to avoid attempts to
     parse it as expression with float literal *)
  let decimal_overflow := bool_decide (code e = ARGUMENT_OUT_OF_BOUND) in
  if negb (isParseError (code e)) || decimal_overflow then rethrow e
  else
    (if rollback_on_exception then column_popBack column_idx 1 else ret tt) ;;;
    (* Switch to SQL parser and don't try to use streaming parser for complex expressions *)
    rollback ;;;
    parseExpression column_idx.

(** Lines 314-315: the rest of the [try] block, where
    [rollback_on_exception] is true. *)
Definition assert_delimiter (column_idx : nat) : M unit :=
  skip_whitespace ;;;
  assertDelimiterAfterValue column_idx.

Definition tryReadValue (column_idx : nat) : M bool :=
  fun s =>
    match read_literal column_idx s with
    | (Throw e, s1) => tryReadValue_catch column_idx false e s1
    | (Ret read, s1) =>
        match assert_delimiter column_idx s1 with
        | (Throw e, s2) => tryReadValue_catch column_idx true e s2
        | (Ret _, s2) => (Ret read, s2)
        end
    end.

(** *** tryParseExpressionUsingTemplate *)

Definition tryParseExpressionUsingTemplate (column_idx : nat) : M bool :=
  readUntilTheEndOfRowAndReTokenize column_idx ;;;
  s <- get ;;
  let start := token_iterator s in
  (* Try to parse expression using template if one was successfully deduced
     while parsing the first row *)
  matched <- template_parse_ref column_idx ;;
  if matched then
    modify (with_rows_parsed_using_template (incr_counter column_idx)) ;;;
    ret true
  else
    (* Expression in the current row is not match template deduced on the
       first row.  Evaluate expressions, which were parsed using this
       template. *)
    evaluate_into_column column_idx ;;;
    (* Do not use this template anymore *)
    set_template column_idx None ;;;
    rollback ;;;
    modify (with_token_iterator start) ;;;
    (* It will deduce new template or fallback to slow SQL parser *)
    parseExpression column_idx.

(** *** readRow *)

(** The scope of a [PeekableReadBufferCheckpoint]: the checkpoint is set on
    entry and dropped on every exit, an exception included. *)
Definition with_checkpoint {A} (m : M A) : M A :=
  fun s =>
    let '(o, s') := m (with_buf setCheckpoint s) in
    (o, with_buf dropCheckpoint s').

(** Lines 238-243: the value is parsed by the parser the column is in. *)
Definition parse_value (column_idx : nat) : M bool :=
  s <- get ;;
  (* Parse value using fast streaming parser for literals and slow SQL
     parser for expressions. *)
  if bool_decide (parser_type column_idx s = Streaming) then
    tryReadValue column_idx
  else if bool_decide (parser_type column_idx s = BatchTemplate) then
    tryParseExpressionUsingTemplate column_idx
  else
    parseExpression column_idx.

Definition read_column (column_idx row_num : nat) : M unit :=
  skip_whitespace ;;;
  with_checkpoint (
    read <- parse_value column_idx ;;
    if negb read then modify (with_block_missing_values (setBit column_idx row_num))
    else ret tt).

(** The columns [column_idx], ..., [column_idx + n - 1] of the row. *)
Fixpoint read_columns (n column_idx row_num : nat) : M unit :=
  match n with
  | O => ret tt
  | S n' =>
      read_column column_idx row_num ;;;
      read_columns n' (S column_idx) row_num
  end.

Definition readRow (row_num : nat) : M unit :=
  modify (with_token_iterator None) ;;;
  on_buf (assertChar "("%char) ;;;
  read_columns (num_columns settings) 0 row_num ;;;
  skip_whitespace ;;;
  modify (with_buf (on_cursor skip_comma)) ;;;
  s <- get ;;
  modify (with_total_rows (size_t_incr (total_rows s))).

(** *** readPrefix, readSuffix *)

Definition readPrefix : M unit := modify (with_buf (on_cursor skipBOMIfExists)).

Definition readSuffix : M unit :=
  s <- get ;;
  if bool_decide (peek (cursor (buf s)) = Some ";"%char) then
    modify (with_buf (on_cursor (fun c => advance (refill c)))) ;;;
    skip_whitespace ;;;
    s <- get ;;
    if hasUnreadData (buf s) then throw CANNOT_READ_ALL_DATA
    else ret tt
  else
    modify (with_buf (on_cursor refill)) ;;;
    s <- get ;;
    if hasUnreadData (buf s) || negb (at_eof (cursor (buf s))) then throw LOGICAL_ERROR
    else ret tt.

(** *** read *)

(** One pass through the body of the row loop: false at the [break]. *)
Definition read_next_row (rows_in_block : nat) : M bool :=
  try_catch (
    skip_whitespace ;;;
    s <- get ;;
    let c := refill (cursor (buf s)) in
    if at_eof c || bool_decide (head (working c) = Some ";"%char) then
      modify (with_buf (on_cursor refill)) ;;;
      ret false
    else
      (if need_only_count settings then
         modify (with_buf (on_cursor (fun c => snd (skipToNextRow c 1 0))))
       else readRow rows_in_block) ;;;
      ret true)
    (fun e =>
       s <- get ;;
       if isParseError (code e)
       then rethrow (mkException (code e) (Some (total_rows s)))
       else rethrow e).

(** The row loop, with [n] rows still allowed in the block. *)
Fixpoint read_rows (n rows_in_block : nat) : M nat :=
  match n with
  | O => ret rows_in_block
  | S n' =>
      more <- read_next_row rows_in_block ;;
      if more then read_rows n' (S rows_in_block) else ret rows_in_block
  end.

(** Lines 155-168: the columns [i], ..., [i + n - 1]. *)
Fixpoint evaluate_templates (n i : nat) : M unit :=
  match n with
  | O => ret tt
  | S n' =>
      s <- get ;;
      match template_of i s with
      | Some t =>
          if bool_decide (rowsCount t = 0) then ret tt
          else evaluate_into_column i
      | None => ret tt
      end ;;;
      evaluate_templates n' (S i)
  end.

Definition read : M Chunk :=
  s <- get ;;
  (if bool_decide (total_rows s = 0%N) then readPrefix else ret tt) ;;;
  modify (with_columns (fun _ => replicate (num_columns settings) [])) ;;;
  modify (with_block_missing_values (fun _ => [])) ;;;
  s <- get ;;
  let chunk_start := bytes (cursor (buf s)) in
  rows_in_block <- read_rows (max_block_size settings) 0 ;;
  s <- get ;;
  modify (with_approx_bytes_read_for_chunk (bytes (cursor (buf s)) - chunk_start)) ;;;
  if need_only_count settings then
    if bool_decide (rows_in_block = 0) then
      readSuffix ;;;
      ret EmptyChunk
    else
      modify (with_total_rows ((total_rows s + N.of_nat rows_in_block) mod 2 ^ 64)%N) ;;;
      ret (ChunkForCount rows_in_block)
  else
    (* Evaluate expressions, which were parsed using templates, if any *)
    s <- get ;;
    evaluate_templates (length (columns s)) 0 ;;;
    s <- get ;;
    match columns s with
    | [] => readSuffix ;;; ret EmptyChunk
    | [] :: _ => readSuffix ;;; ret EmptyChunk
    | (_ :: _) as column0 :: _ => ret (ChunkOf (columns s) (length column0))
    end.

(** *** resetParser *)

(** The loop of lines 650-654, over the columns [i], ..., [i + n - 1]. *)
Fixpoint reset_columns (n i : nat) : M unit :=
  match n with
  | O => ret tt
  | S n' =>
      set_template i None ;;;
      set_parser_type i Streaming ;;;
      reset_columns n' (S i)
  end.

(** Modelled from the spec: [IInputFormat::resetParser] (the base class is
    not under src/).  Section 7: the next session starts clean; of the
    fields kept here the base class owns [got_exception]. *)
Definition IInputFormat_resetParser : M unit := modify (with_got_exception false).

Definition resetParser : M unit :=
  s <- get ;;
  (if got_exception s then
     (* In case of exception always reset the templates and parser type,
        because they may be in the invalid state. *)
     reset_columns (num_columns settings) 0
   else ret tt) ;;;
  IInputFormat_resetParser ;;;
  modify (with_total_rows 0%N).

(** *** What a call changes

    The column [idx] only grows at its end, and the other columns stay. *)
Definition appends (idx : nat) (s s' : ValuesBlockInputFormat) : Prop :=
  exists tail, columns s' = alter (fun c => c ++ tail) idx (columns s).

(** The calls made are recorded after those made before, and the templates
    change only after a call of [getFromCacheOrConstruct] for [idx]. *)
Definition deduces (idx : nat) (s s' : ValuesBlockInputFormat) : Prop :=
  exists evs, trace s' = trace s ++ evs
              /\ (templates s' = templates s \/ EvGetTemplate idx ∈ evs).

Definition step (idx : nat) (s s' : ValuesBlockInputFormat) : Prop :=
  appends idx s s' /\ deduces idx s s'.

End Reader.

Arguments mkReader {C}.
Arguments mkTemplate {C}.

(** ** A small instance of the collaborators

    Unsigned numbers, quoted strings and sums of them: enough to run the
    reader on concrete rows. *)

Module Example.

Definition buffer (s : string) : ReadBuffer := mkReadBuffer 0 (list_ascii_of_string s) [].

Definition is_digit (c : ascii) : bool :=
  let n := nat_of_ascii c in (48 <=? n) && (n <=? 57).

Definition is_letter (c : ascii) : bool :=
  let n := nat_of_ascii (to_lower c) in (97 <=? n) && (n <=? 122).

Definition CANNOT_PARSE_NUMBER : ErrorCode := OtherError 72.
Definition CANNOT_PARSE_QUOTED_STRING : ErrorCode := OtherError 26.
Definition UNKNOWN_IDENTIFIER : ErrorCode := OtherError 47.

Definition is_parse_error (c : ErrorCode) : bool :=
  match c with
  | CANNOT_PARSE_INPUT_ASSERTION_FAILED | ARGUMENT_OUT_OF_BOUND | CANNOT_READ_ALL_DATA => true
  | OtherError 72 | OtherError 26 => true
  | _ => false
  end.

Fixpoint default_of (t : IDataType) : Field :=
  match t with
  | DataTypeUInt64 => UInt64 0
  | DataTypeInt64 => Int64 0
  | DataTypeString => Str ""
  | DataTypeNullable _ => Null
  | DataTypeLowCardinality d => default_of d
  | DataTypeArray _ => Array []
  | DataTypeTuple ts => Tuple (map default_of ts)
  | DataTypeMap _ _ => Map []
  end.

Definition digits_value (ds : list ascii) : N :=
  fold_left (fun acc d => (10 * acc + N.of_nat (nat_of_ascii d - 48))%N) ds 0%N.

Fixpoint span (p : ascii -> bool) (l : list ascii) : list ascii * list ascii :=
  match l with
  | c :: l' => if p c then let '(a, b) := span p l' in (c :: a, b) else ([], l)
  | [] => ([], [])
  end.

(** A literal of the column's type: digits for a number (more than 20
    digits are out of bound), a string in single quotes for a string. *)
Definition deserialize (t : IDataType) (b : ReadBuffer) : Outcome Field * ReadBuffer :=
  match t with
  | DataTypeString =>
      match unread b with
      | "'"%char :: rest =>
          let '(body, rest') := span (fun c => negb (Ascii.eqb c "'"%char)) rest in
          match rest' with
          | _ :: _ => (Ret (Str (string_of_list_ascii body)), ignore (length body + 2) b)
          | [] => (Throw (exception CANNOT_PARSE_QUOTED_STRING), ignore (length body + 1) b)
          end
      | _ => (Throw (exception CANNOT_PARSE_QUOTED_STRING), refill b)
      end
  | _ =>
      let '(ds, _) := span is_digit (unread b) in
      match ds with
      | [] => (Throw (exception CANNOT_PARSE_NUMBER), refill b)
      | _ :: _ =>
          if 20 <? length ds then (Throw (exception ARGUMENT_OUT_OF_BOUND), ignore (length ds) b)
          else (Ret (UInt64 (digits_value ds)), ignore (length ds) b)
      end
  end.

Definition deserialize_null_as_default (t : IDataType) (b : ReadBuffer)
    : Outcome (Field * bool) * ReadBuffer :=
  if bool_decide (lookahead 4 b = list_ascii_of_string "NULL")
  then (Ret (default_of t, false), ignore 4 b)
  else match deserialize t b with
       | (Ret v, b') => (Ret (v, true), b')
       | (Throw e, b') => (Throw e, b')
       end.

(** The lexer: numbers, words, quoted strings and single-byte punctuation;
    [open] is the token being extended by the next byte. *)
Fixpoint lex (open : option Token) (offset : nat) (l : list ascii) : list Token :=
  let flush := match open with Some t => [t] | None => [] end in
  match l with
  | [] => flush
  | c :: l' =>
      let extend (ty : TokenType) :=
        match open with
        | Some t =>
            if bool_decide (type t = ty)
            then lex (Some (mkToken ty (begin t) (text t ++ [c]))) (S offset) l'
            else t :: lex (Some (mkToken ty offset [c])) (S offset) l'
        | None => lex (Some (mkToken ty offset [c])) (S offset) l'
        end in
      let single (ty : TokenType) := flush ++ mkToken ty offset [c] :: lex None (S offset) l' in
      match open with
      | Some (mkToken StringLiteral b tx) =>
          if Ascii.eqb c "'"%char
          then mkToken StringLiteral b (tx ++ [c]) :: lex None (S offset) l'
          else lex (Some (mkToken StringLiteral b (tx ++ [c]))) (S offset) l'
      | _ =>
          if is_digit c then extend Number
          else if is_letter c then extend BareWord
          else if Ascii.eqb c "'"%char then flush ++ lex (Some (mkToken StringLiteral offset [c])) (S offset) l'
          else if isWhitespaceASCII c then flush ++ lex None (S offset) l'
          else if Ascii.eqb c ","%char then single Comma
          else if Ascii.eqb c "("%char then single OpeningRoundBracket
          else if Ascii.eqb c ")"%char then single ClosingRoundBracket
          else if Ascii.eqb c "+"%char then single Plus
          else if Ascii.eqb c "-"%char then single Minus
          else single Error
      end
  end.

Inductive Expr :=
  | ENull
  | ENumber (n : N)
  | EString (s : string)
  | EIdentifier (name : string)
  | EPlus (a b : Expr).

Definition operand (t : Token) : option Expr :=
  match type t with
  | Number => Some (ENumber (digits_value (text t)))
  | StringLiteral => Some (EString (string_of_list_ascii (text t)))
  | BareWord =>
      if bool_decide (text t = list_ascii_of_string "NULL") then Some ENull
      else Some (EIdentifier (string_of_list_ascii (text t)))
  | _ => None
  end.

Fixpoint parse_sum (acc : Expr) (toks : list Token) : option Expr * list Token :=
  match toks with
  | t1 :: t2 :: rest =>
      if bool_decide (type t1 = Plus) then
        match operand t2 with
        | Some e => parse_sum (EPlus acc e) rest
        | None => (None, t2 :: rest)
        end
      else (Some acc, toks)
  | _ => (Some acc, toks)
  end.

Definition parse_expression (it : TokenIterator) : option Expr * TokenIterator :=
  match tokens_left it with
  | t :: rest =>
      match operand t with
      | Some e => let '(r, rest') := parse_sum e rest in (r, mkTokenIterator rest' (range_end it))
      | None => (None, it)
      end
  | [] => (None, it)
  end.

Definition is_literal (e : Expr) : bool :=
  match e with ENull | ENumber _ | EString _ => true | _ => false end.

Fixpoint evaluate (e : Expr) : Outcome (Field * IDataType) :=
  match e with
  | ENull => Ret (Null, DataTypeNullable DataTypeUInt64)
  | ENumber n => Ret (UInt64 n, DataTypeUInt64)
  | EString s => Ret (Str s, DataTypeString)
  | EIdentifier name => Throw (exception UNKNOWN_IDENTIFIER)
  | EPlus a b =>
      match evaluate a, evaluate b with
      | Ret (UInt64 x, _), Ret (UInt64 y, _) => Ret (UInt64 (x + y), DataTypeUInt64)
      | Ret (Null, t), Ret _ | Ret _, Ret (Null, t) => Ret (Null, t)
      | Throw e, _ | _, Throw e => Throw e
      | _, _ => Throw (exception TYPE_MISMATCH)
      end
  end.

Definition NOT_IMPLEMENTED : ErrorCode := OtherError 48.

(** The shape of a template: the types of the tokens of the expression and
    of its delimiter.  A row binds the values of its numbers.  Only sums of
    numbers have templates. *)
Fixpoint only_numbers (e : Expr) : bool :=
  match e with
  | ENumber _ => true
  | EPlus a b => only_numbers a && only_numbers b
  | _ => false
  end.

Definition shape_of (from to : TokenIterator) : list TokenType :=
  map type (take (length (tokens_left from) - length (tokens_left to)) (tokens_left from)).

Definition get_template (cache : list (list TokenType)) (t : IDataType) (null_default : bool)
    (from to : TokenIterator) (e : Expr) (delimiter : ascii)
    : Outcome (list TokenType * bool) * list (list TokenType) :=
  let shape := shape_of from to in
  if negb (only_numbers e) then (Throw (exception NOT_IMPLEMENTED), cache)
  else if bool_decide (shape ∈ cache) then (Ret (shape, true), cache)
  else (Ret (shape, false), shape :: cache).

Fixpoint match_shape (shape : list TokenType) (toks : list Token) (position : nat)
    : option (list N * nat * list Token) :=
  match shape, toks with
  | [], _ => Some ([], position, toks)
  | ty :: shape', t :: toks' =>
      if bool_decide (type t = ty) then
        match match_shape shape' toks' (begin t + length (text t)) with
        | Some (ns, p, r) =>
            Some ((if bool_decide (ty = Number) then digits_value (text t) :: ns else ns), p, r)
        | None => None
        end
      else None
  | _ :: _, [] => None
  end.

Definition template_match (shape : list TokenType) (b : ReadBuffer) (it : TokenIterator)
    : Outcome (option (list N)) * ReadBuffer * TokenIterator :=
  match match_shape shape (tokens_left it) (bytes b) with
  | Some (ns, p, r) => (Ret (Some ns), ignore (p - bytes b) b, mkTokenIterator r (range_end it))
  | None => (Ret None, b, it)
  end.

Definition template_value (shape : list TokenType) (t : IDataType) (ns : list N)
    : Outcome (Field * bool) :=
  Ret (UInt64 (fold_right N.add 0%N ns), false).

#[export] Instance collaborators : Collaborators := {|
  AST := Expr;
  TemplateStructure := list TokenType;
  Binding := list N;
  Cache := list (list TokenType);
  isParseError := is_parse_error;
  getDefault := default_of;
  deserializeTextQuoted := deserialize;
  deserializeNullAsDefaultOrNestedTextQuoted := deserialize_null_as_default;
  tokenize := lex None;
  token_memory_valid := fun _ _ => true;
  parse := parse_expression;
  isLiteral := is_literal;
  getFromCacheOrConstruct := get_template;
  template_parseExpression := template_match;
  template_evaluate := template_value;
  evaluateConstantExpression := evaluate;
  convertFieldToType := fun v _ _ => Ret v;
  (* the input is one working buffer: nothing is ever kept aside *)
  hasUnreadData := fun _ => false;
  hasUnreadData_unread := fun _ H => False_ind _ (diff_false_true H)
|}.

(** A reader as its constructor leaves it, on the given input. *)
Definition reader (cfg : Settings) (input : string) : ValuesBlockInputFormat :=
  mkReader (mkPeekable (buffer input) None) None
    (replicate (num_columns cfg) Streaming)
    (replicate (num_columns cfg) 0%N) (replicate (num_columns cfg) 0%N)
    (replicate (num_columns cfg) 0%N) (replicate (num_columns cfg) None)
    [] [] 0%N 0 false [] [].

Definition two_columns : Settings :=
  mkSettings 2 [DataTypeUInt64; DataTypeString] false true true 100 false.

Definition one_column : Settings :=
  mkSettings 1 [DataTypeUInt64] false true true 100 false.


(** One column, with the deduction of templates disabled. *)
Definition one_column_no_templates : Settings :=
  mkSettings 1 [DataTypeUInt64] false true false 100 false.

(** A template of the given shape with the given rows accumulated. *)
Definition template (shape : list TokenType) (bindings : list (list N))
    : ConstantExpressionTemplate :=
  @mkTemplate collaborators shape bindings.

(** The reader in [read], with its columns allocated. *)
Definition reading (cfg : Settings) (input : string) : ValuesBlockInputFormat :=
  with_columns (fun _ => replicate (num_columns cfg) []) (reader cfg input).

(** The reader after [n] passes of the row loop. *)
Definition after_rows (cfg : Settings) (n : nat) (input : string) : ValuesBlockInputFormat :=
  snd (read_rows cfg n 0 (reading cfg input)).

(** The reader at the first value of the next row: the opening bracket
    read, the whitespace skipped and the checkpoint set. *)
Definition enter_row (s : ValuesBlockInputFormat) : ValuesBlockInputFormat :=
  with_buf setCheckpoint
    (with_buf (on_cursor skipWhitespaceIfAny)
       (snd (on_buf (assertChar "("%char)
               (with_token_iterator None
                  (with_buf (on_cursor skipWhitespaceIfAny) s))))).

(** The reader at a value, the checkpoint set. *)
Definition at_value (cfg : Settings) (input : string) : ValuesBlockInputFormat :=
  with_buf setCheckpoint (reading cfg input).

End Example.

(** ** The deduction heuristic in binary64

    The two tests of [shouldDeduceNewTemplate] as the source computes them,
    in [double], next to the same tests in exact arithmetic. *)

Module Double.

Definition prec : Z := 53.
Definition emax : Z := 1024.

(** The conversion of a [size_t] to [double]. *)
Definition of_size_t (n : N) : spec_float := binary_normalize prec emax (Z.of_N n) 0 false.

Definition one_and_a_half : spec_float := binary_normalize prec emax 3 (-1) false.
Definition half : spec_float := binary_normalize prec emax 1 (-1) false.

Definition attempts_weighted (cold cached : N) : spec_float :=
  SFadd prec emax (SFmul prec emax one_and_a_half (of_size_t cold))
                  (SFmul prec emax half (of_size_t cached)).

(** [attempts_weighted < max_attempts], and [rows / attempts_weighted > 1]. *)
Definition tests (cold cached replayed : N) : bool * bool :=
  let w := attempts_weighted cold cached in
  (SFltb w (of_size_t 100),
   SFltb (of_size_t 1) (SFdiv prec emax (of_size_t replayed) w)).

Definition exact_tests (cold cached replayed : N) : bool * bool :=
  let w := (1.5 * Q_of_size_t cold + 0.5 * Q_of_size_t cached)%Q in
  (Qltb w max_attempts, Qltb 1 (Q_of_size_t replayed / w)%Q).

(** The first test agrees, and the second does where the source reaches
    it. *)
Definition agree (cold cached replayed : N) : bool :=
  let '(below, pays) := tests cold cached replayed in
  let '(below', pays') := exact_tests cold cached replayed in
  Bool.eqb below below' && (below || Bool.eqb pays pays').

End Double.


(** ** Relations between the states of a buffer *)

(** [b'] is [b] further along the same input: what is unread at [b'] is
    the end of what is unread at [b], and [count()] has grown by the number
    of bytes in between. *)
Definition further (b b' : ReadBuffer) : Prop :=
  exists consumed, unread b = consumed ++ unread b' /\ bytes b' = bytes b + length consumed.

(** ** Nulls inside a value of a complex type *)

(** No null anywhere in the value. *)
Fixpoint null_free (v : Field) : bool :=
  match v with
  | Null => false
  | Array xs | Tuple xs | Map xs => forallb null_free xs
  | _ => true
  end.

Section NullsInComplexTypes.

Context `{C : Collaborators}.

(** A null may stand where the type is Nullable, or where the default of
    the type is itself a null. *)
Definition null_or_allowed (t : IDataType) (v : Field) : bool :=
  negb (isNull v) || isNullable t || isNull (getDefault t).

(** Every null the function can reach stands where the type allows one:
    in the elements of a tuple value under a tuple type, in the elements of
    an array value under an array type whose element type is not Nullable,
    and in the keys and values of a map value under a map type.  Like the
    function, the test does not look into a value of another shape than
    its type, nor into an array whose element type is Nullable: it holds
    there whatever nulls the value has. *)
Fixpoint nulls_allowed (data_type : IDataType) (value : Field) {struct data_type} : bool :=
  match data_type, value with
  | DataTypeTuple elements, Tuple tuple_value =>
      (fix go (ets : list IDataType) (vs : list Field) {struct ets} : bool :=
         match ets, vs with
         | element_type :: ets', v :: vs' =>
             null_or_allowed element_type v && nulls_allowed element_type v && go ets' vs'
         | _, _ => true
         end) elements tuple_value
  | DataTypeArray element_type, Array array_value =>
      isNullable element_type
      || forallb (fun v => null_or_allowed element_type v && nulls_allowed element_type v)
                 array_value
  | DataTypeMap key_type value_type, Map map =>
      forallb (fun entry =>
                 match entry with
                 | Tuple (entry_key :: entry_value :: _) =>
                     null_or_allowed key_type entry_key && nulls_allowed key_type entry_key
                     && null_or_allowed value_type entry_value
                     && nulls_allowed value_type entry_value
                 | _ => false
                 end) map
  | _, _ => true
  end.

End NullsInComplexTypes.

(** ** The state of a column *)

Section ColumnState.

Context `{C : Collaborators}.

(** Lines 51-63, the constructor: every per-column vector has
    [num_columns] elements, every column is in [Streaming] and has no
    template, the counters are zero.  The cache of templates is the
    default-constructed one of its own translation unit, and the members
    that the initializer list does not name start as the class declares
    them: no tokens, no row read, no exception. *)
Definition construct (settings : Settings) (in_ : ReadBuffer) (templates_cache : Cache)
    : ValuesBlockInputFormat :=
  mkReader (mkPeekable in_ None) None
    (replicate (num_columns settings) Streaming)
    (replicate (num_columns settings) 0%N)
    (replicate (num_columns settings) 0%N)
    (replicate (num_columns settings) 0%N)
    (replicate (num_columns settings) None)
    templates_cache [] 0%N 0 false [] [].

(** The column is in [BatchTemplate] exactly when it has a template. *)
Definition template_in_use (column_idx : nat) (s : ValuesBlockInputFormat) : Prop :=
  parser_type column_idx s = BatchTemplate <-> is_Some (template_of column_idx s).

(** The parser types and the templates of [s'] are those of [s], but for
    the column [column_idx], which is in [p] with the template [t]. *)
Definition column_in (column_idx : nat) (p : ParserType)
    (t : option ConstantExpressionTemplate) (s s' : ValuesBlockInputFormat) : Prop :=
  parser_type_for_column s' = <[column_idx := p]> (parser_type_for_column s)
  /\ templates s' = <[column_idx := t]> (templates s).

(** The rows accumulated in the template of the column. *)
Definition template_rows (column_idx : nat) (s : ValuesBlockInputFormat) : nat :=
  from_option rowsCount 0 (template_of column_idx s).

(** The rows of the block read so far into the column: the values in the
    column and the rows accumulated in its template. *)
Definition rows_read (column_idx : nat) (s : ValuesBlockInputFormat) : nat :=
  length (column column_idx s) + template_rows column_idx s.

End ColumnState.

(** ** The calls a run makes *)

Definition is_evaluation (e : Event) : bool :=
  match e with EvEvaluate _ => true | _ => false end.

Section Calls.

Context `{C : Collaborators}.

(** Between [s] and [s'] the evaluator of single expressions is not
    called. *)
Definition without_evaluation (s s' : ValuesBlockInputFormat) : Prop :=
  exists evs, trace s' = trace s ++ evs /\ forallb (fun e => negb (is_evaluation e)) evs = true.

End Calls.

(** ** ValuesSchemaReader

    The reader that infers the types of the columns from the rows.
    [readQuotedField] (IO/ReadHelpers.h) and
    [tryInferDataTypeByEscapingRule] (Formats/EscapingRuleUtils.h) belong to
    other translation units and are parameters here, as is the type of
    their results. *)

Module Schema.

Section Reader.

Variable DataTypePtr : Type.
Variable readQuotedField : ReadBuffer -> Outcome (list ascii) * ReadBuffer.
Variable tryInferDataTypeByEscapingRule : list ascii -> Outcome DataTypePtr.

(** The members that [readRowAndGetDataTypes] uses. *)
Record ValuesSchemaReader := mkSchemaReader {
  buf : ReadBuffer;
  first_row : bool;
  end_of_data : bool
}.

(** Lines 711-723, the loop over the fields of a row.  Every pass but the
    first consumes a comma, so the number of unread bytes bounds the number
    of passes; [None] is a loop that has not ended within [fuel] passes. *)
Fixpoint read_fields (fuel : nat) (data_types : list DataTypePtr) (b : ReadBuffer)
    : option (Outcome (list DataTypePtr) * ReadBuffer) :=
  match fuel with
  | O => None
  | S fuel' =>
      let b := refill b in
      if at_eof b || bool_decide (head (working b) = Some ")"%char)
      then Some (Ret data_types, b)
      else
        match
          (match data_types with
           | [] => (Ret tt, b)
           | _ :: _ =>
               match assertChar ","%char b with
               | (Ret _, b') => (Ret tt, skipWhitespaceIfAny b')
               | (Throw e, b') => (Throw e, b')
               end
           end)
        with
        | (Throw e, b1) => Some (Throw e, b1)
        | (Ret _, b1) =>
            match readQuotedField b1 with
            | (Throw e, b2) => Some (Throw e, b2)
            | (Ret value, b2) =>
                match tryInferDataTypeByEscapingRule value with
                | Throw e => Some (Throw e, b2)
                | Ret type =>
                    read_fields fuel' (data_types ++ [type]) (skipWhitespaceIfAny b2)
                end
            end
        end
  end.

Definition fields_fuel (b : ReadBuffer) : nat := 2 + length (unread b).

(** [ValuesSchemaReader::readRowAndGetDataTypes]: the types of the fields
    of the next row, or nothing at the end of the data. *)
Definition readRowAndGetDataTypes (r : ValuesSchemaReader)
    : option (Outcome (option (list DataTypePtr)) * ValuesSchemaReader) :=
  let b := if first_row r then skipBOMIfExists (buf r) else buf r in
  let b := refill (skipWhitespaceIfAny b) in
  if at_eof b || end_of_data r then Some (Ret None, mkSchemaReader b false (end_of_data r))
  else
    match assertChar "("%char b with
    | (Throw e, b1) => Some (Throw e, mkSchemaReader b1 false (end_of_data r))
    | (Ret _, b1) =>
        let b1 := skipWhitespaceIfAny b1 in
        match read_fields (fields_fuel b1) [] b1 with
        | None => None
        | Some (Throw e, b2) => Some (Throw e, mkSchemaReader b2 false (end_of_data r))
        | Some (Ret data_types, b2) =>
            match assertChar ")"%char b2 with
            | (Throw e, b3) => Some (Throw e, mkSchemaReader b3 false (end_of_data r))
            | (Ret _, b3) =>
                let b4 := skip_comma (skipWhitespaceIfAny b3) in
                let '(semicolon, b5) := checkChar ";"%char b4 in
                Some (Ret (Some data_types),
                      mkSchemaReader b5 false (if semicolon then true else end_of_data r))
            end
        end
    end.

End Reader.

End Schema.

(** A small instance of the two collaborators of the schema reader: a
    field is a run of digits or a string in single quotes, and its type is
    told from its first byte. *)

Module SchemaExample.

Definition read_field (b : ReadBuffer) : Outcome (list ascii) * ReadBuffer :=
  match unread b with
  | "'"%char :: rest =>
      let '(body, _) := Example.span (fun c => negb (Ascii.eqb c "'"%char)) rest in
      (Ret ("'"%char :: body ++ ["'"%char]), ignore (length body + 2) b)
  | _ =>
      let '(digits, _) := Example.span Example.is_digit (unread b) in
      (Ret digits, ignore (length digits) b)
  end.

Definition infer (value : list ascii) : Outcome IDataType :=
  match value with
  | "'"%char :: _ => Ret DataTypeString
  | _ :: _ => Ret DataTypeUInt64
  | [] => Ret (DataTypeNullable DataTypeString)
  end.

Definition schema_reader (input : string) : Schema.ValuesSchemaReader :=
  Schema.mkSchemaReader (Example.buffer input) true false.

Definition read_row_types :=
  Schema.readRowAndGetDataTypes IDataType read_field infer.

End SchemaExample.

(** * Properties *)

(** * Properties *)

(** ** The input as one byte sequence *)

Lemma next_chunk_concat chunks :
  fst (next_chunk chunks) ++ concat (snd (next_chunk chunks)) = concat chunks.
Proof.
  induction chunks as [|c cs IH]; [done|].
  destruct c; simpl; [exact IH | done].
Qed.

Lemma next_chunk_nil chunks :
  fst (next_chunk chunks) = [] -> concat chunks = [].
Proof.
  induction chunks as [|c cs IH]; [done|].
  destruct c; simpl; [exact IH | done].
Qed.

Lemma unread_refill b : unread (refill b) = unread b.
Proof.
  unfold refill, unread. destruct (working b) eqn:E; [|by rewrite E].
  pose proof (next_chunk_concat (pending b)) as H.
  destruct (next_chunk (pending b)) as [w p]. exact H.
Qed.

Lemma bytes_refill b : bytes (refill b) = bytes b.
Proof.
  unfold refill. destruct (working b); [|done].
  by destruct (next_chunk (pending b)).
Qed.

Lemma working_refill_nil b : working (refill b) = [] <-> unread b = [].
Proof.
  unfold refill, unread. destruct (working b) eqn:E.
  - pose proof (next_chunk_concat (pending b)) as H.
    pose proof (next_chunk_nil (pending b)) as H'.
    destruct (next_chunk (pending b)) as [w p]; simpl in *.
    split; [auto|]. intros Hc. rewrite Hc in H. by apply app_eq_nil in H as [-> _].
  - rewrite E. done.
Qed.

Lemma head_working_refill b : head (working (refill b)) = head (unread b).
Proof.
  rewrite <- (unread_refill b). unfold unread.
  destruct (working (refill b)) eqn:E; [|done].
  apply working_refill_nil in E. rewrite <- unread_refill in E.
  unfold unread in E. apply app_eq_nil in E as [_ ->]. done.
Qed.

Lemma next_chunk_nil_pending chunks :
  fst (next_chunk chunks) = [] -> snd (next_chunk chunks) = [].
Proof.
  induction chunks as [|c cs IH]; [done|].
  destruct c; simpl; [exact IH | done].
Qed.

Lemma refill_refill b : refill (refill b) = refill b.
Proof.
  destruct b as [n [|c w] p]; [|done].
  assert (refill (mkReadBuffer n [] p)
          = mkReadBuffer n (fst (next_chunk p)) (snd (next_chunk p))) as ->.
  { unfold refill. simpl. by destruct (next_chunk p). }
  pose proof (next_chunk_nil_pending p) as H.
  destruct (next_chunk p) as [w' p']. simpl in *.
  destruct w'; [|reflexivity]. rewrite H by done. reflexivity.
Qed.

Lemma at_eof_refill b : at_eof (refill b) = bool_decide (unread b = []).
Proof.
  unfold at_eof. destruct (working (refill b)) eqn:E.
  - apply working_refill_nil in E. by rewrite bool_decide_eq_true_2.
  - rewrite bool_decide_eq_false_2; [done|]. intros H. apply working_refill_nil in H. congruence.
Qed.

Lemma unread_advance b :
  working b <> [] -> unread (advance b) = tail (unread b) /\ bytes (advance b) = S (bytes b).
Proof. unfold advance, unread. by destruct (working b). Qed.

Lemma unread_advance_refill b : unread (advance (refill b)) = tail (unread b).
Proof.
  rewrite <- (unread_refill b).
  destruct (working (refill b)) eqn:E.
  - unfold advance. rewrite E. apply working_refill_nil in E.
    rewrite unread_refill, E. done.
  - apply unread_advance. congruence.
Qed.

Lemma bytes_advance_refill b :
  bytes (advance (refill b)) = bytes b + (if bool_decide (unread b = []) then 0 else 1).
Proof.
  destruct (working (refill b)) eqn:E.
  - unfold advance. rewrite E, bytes_refill. apply working_refill_nil in E.
    rewrite bool_decide_eq_true_2; [lia | done].
  - rewrite bool_decide_eq_false_2.
    + destruct (unread_advance (refill b)) as [_ ->]; [congruence|]. rewrite bytes_refill. lia.
    + intros H. apply working_refill_nil in H. congruence.
Qed.

Lemma unread_ignore n b : unread (ignore n b) = drop n (unread b).
Proof.
  revert b. induction n as [|n IH]; intros b; simpl; [by rewrite drop_0|].
  rewrite IH, unread_advance_refill. destruct (unread b); [by destruct n | done].
Qed.

Lemma bytes_ignore n b : bytes (ignore n b) = bytes b + min n (length (unread b)).
Proof.
  revert b. induction n as [|n IH]; intros b; simpl; [lia|].
  rewrite IH, unread_advance_refill, bytes_advance_refill.
  destruct (unread b); simpl; lia.
Qed.

Lemma skip_ws_in_spec n w :
  exists k, skip_ws_in n w = (n + k, drop k w)
            /\ k <= length w
            /\ skip_spaces (take k w) = []
            /\ (forall c, head (drop k w) = Some c -> isWhitespaceASCII c = false).
Proof.
  revert n. induction w as [|c w IH]; intros n; simpl.
  - exists 0. rewrite Nat.add_0_r. done.
  - destruct (isWhitespaceASCII c) eqn:E.
    + destruct (IH (S n)) as (k & -> & Hk & Hs & Hh). exists (S k). simpl.
      split; [f_equal; lia|]. split; [lia|]. by rewrite E.
    + exists 0. rewrite Nat.add_0_r. simpl. split; [done|]. split; [lia|].
      split; [done|]. intros c' [= <-]. done.
Qed.

Lemma skip_spaces_app_nonws w rest c :
  head w = Some c -> isWhitespaceASCII c = false -> skip_spaces (w ++ rest) = w ++ rest.
Proof. destruct w as [|x w]; [done|]. intros [= ->] E. simpl. by rewrite E. Qed.

Lemma skip_spaces_app_ws w rest :
  skip_spaces w = [] -> skip_spaces (w ++ rest) = skip_spaces rest.
Proof.
  induction w as [|c w IH]; [done|]. simpl.
  destruct (isWhitespaceASCII c); [auto | done].
Qed.

Lemma skip_ws_split k c rest :
  skip_spaces (take k c) = [] ->
  (forall x, head (drop k c) = Some x -> isWhitespaceASCII x = false) ->
  skip_spaces (c ++ rest)
  = match drop k c with [] => skip_spaces rest | _ :: _ => drop k c ++ rest end.
Proof.
  intros Ht Hh. rewrite <- (take_drop k c) at 1. rewrite <- app_assoc.
  rewrite (skip_spaces_app_ws _ _ Ht).
  destruct (drop k c) as [|x r] eqn:E; [done|].
  apply (skip_spaces_app_nonws (x :: r) rest x); [done|]. by apply Hh.
Qed.

Lemma skip_ws_chunks_spec n p :
  let b := skip_ws_chunks n p in
  unread b = skip_spaces (concat p)
  /\ bytes b + length (unread b) = n + length (concat p)
  /\ refill b = b.
Proof.
  revert n. induction p as [|c p IH]; intros n; simpl; [done|].
  destruct (skip_ws_in_spec n c) as (k & -> & Hk & Hs & Hh).
  rewrite (skip_ws_split k c (concat p) Hs Hh).
  assert (length c = k + length (drop k c)) as Hlen by (rewrite length_drop; lia).
  destruct (drop k c) as [|x r] eqn:E.
  - destruct (IH (n + k)) as (H1 & H2 & H3). split; [done|]. split; [|done].
    rewrite H2, length_app. simpl in Hlen. lia.
  - unfold unread. simpl. split; [done|]. split; [|done].
    rewrite !length_app. simpl in *. lia.
Qed.

Lemma unread_skipWhitespaceIfAny b :
  unread (skipWhitespaceIfAny b) = skip_spaces (unread b).
Proof.
  unfold skipWhitespaceIfAny, unread at 2.
  destruct (skip_ws_in_spec (bytes b) (working b)) as (k & -> & Hk & Hs & Hh).
  rewrite (skip_ws_split k _ (concat (pending b)) Hs Hh).
  destruct (drop k (working b)) as [|x r] eqn:E; [|done].
  apply skip_ws_chunks_spec.
Qed.

Lemma bytes_skipWhitespaceIfAny b :
  bytes (skipWhitespaceIfAny b) + length (skip_spaces (unread b))
  = bytes b + length (unread b).
Proof.
  rewrite <- unread_skipWhitespaceIfAny.
  unfold skipWhitespaceIfAny, unread at 2.
  destruct (skip_ws_in_spec (bytes b) (working b)) as (k & -> & Hk & Hs & Hh).
  assert (length (working b) = k + length (drop k (working b))) as Hlen
    by (rewrite length_drop; lia).
  destruct (drop k (working b)) as [|x r] eqn:E.
  - destruct (skip_ws_chunks_spec (bytes b + k) (pending b)) as (_ & H & _).
    rewrite H, length_app. simpl in Hlen. lia.
  - unfold unread. simpl. rewrite !length_app. simpl in *. lia.
Qed.

Lemma refill_skipWhitespaceIfAny b : refill (skipWhitespaceIfAny b) = skipWhitespaceIfAny b.
Proof.
  unfold skipWhitespaceIfAny.
  destruct (skip_ws_in_spec (bytes b) (working b)) as (k & -> & Hk & Hs & Hh).
  destruct (drop k (working b)) as [|x r] eqn:E; [|done].
  apply skip_ws_chunks_spec.
Qed.

Lemma length_skip_spaces l : length (skip_spaces l) <= length l.
Proof.
  induction l as [|a l IH]; simpl; [done|]. destruct (isWhitespaceASCII a); simpl; lia.
Qed.

Lemma checkChar_spec c b :
  match head (unread b) with
  | Some x =>
      if Ascii.eqb x c
      then fst (checkChar c b) = true
           /\ unread (snd (checkChar c b)) = tail (unread b)
           /\ bytes (snd (checkChar c b)) = S (bytes b)
      else checkChar c b = (false, refill b)
  | None => checkChar c b = (false, refill b)
  end.
Proof.
  unfold checkChar. rewrite <- head_working_refill.
  destruct (working (refill b)) as [|x w] eqn:E; simpl; [done|].
  destruct (Ascii.eqb x c); [|done]. simpl.
  destruct (unread_advance (refill b)) as [-> ->]; [congruence|].
  by rewrite unread_refill, bytes_refill.
Qed.

(** ** The row-boundary scan *)

Lemma find_first_symbols_spec w n r :
  find_first_symbols w = (n, r) ->
  r = drop n w /\ n <= length w /\ (r = [] -> n = length w)
  /\ (forall c, head r = Some c -> is_scan_symbol c = true).
Proof.
  revert n r. induction w as [|c w IH]; intros n r; simpl.
  - intros [= <- <-]. done.
  - destruct (is_scan_symbol c) eqn:E.
    + intros [= <- <-]. simpl. repeat split; [lia | done | by intros ? [= <-]].
    + destruct (find_first_symbols w) as [n' r'] eqn:F. intros [= <- <-].
      destruct (IH n' r' eq_refl) as (H1 & H2 & H3 & H4). simpl.
      repeat split; [done | lia | by intros ->%H3 | done].
Qed.

Lemma is_scan_symbol_cases c :
  is_scan_symbol c = true ->
  c = "\"%char \/ c = "'"%char \/ c = ")"%char \/ c = "("%char.
Proof.
  unfold is_scan_symbol. rewrite !orb_true_iff, !Ascii.eqb_eq. tauto.
Qed.

Lemma tail_drop {A} n (l : list A) : tail (drop n l) = drop (n + 1) l.
Proof. rewrite <- drop_drop. by destruct (drop n l). Qed.

(** One pass of the loop, on the input as a byte sequence. *)
Lemma scan_body_spec st n r :
  find_first_symbols (working (sbuf st)) = (n, r) ->
  let u := unread (sbuf st) in
  let st' := scan_body st in
  refill (sbuf st') = sbuf st'
  /\ match r with
     | [] =>
         unread (sbuf st') = drop n u /\ bytes (sbuf st') = bytes (sbuf st) + n
         /\ sbalance st' = sbalance st /\ squoted st' = squoted st
     | c :: _ =>
         if Ascii.eqb c "\"%char then
           unread (sbuf st') = drop (n + 2) u
           /\ bytes (sbuf st') = bytes (sbuf st) + n + 1
                                 + (if bool_decide (drop (n + 1) u = []) then 0 else 1)
           /\ sbalance st' = sbalance st /\ squoted st' = squoted st
         else
           unread (sbuf st') = drop (n + 1) u
           /\ bytes (sbuf st') = bytes (sbuf st) + n + 1
           /\ (if Ascii.eqb c "'"%char then
                 sbalance st' = sbalance st /\ squoted st' = negb (squoted st)
               else if Ascii.eqb c ")"%char then
                 sbalance st' = (if squoted st then sbalance st else sbalance st - 1)%Z
                 /\ squoted st' = squoted st
               else
                 sbalance st' = (if squoted st then sbalance st else sbalance st + 1)%Z
                 /\ squoted st' = squoted st)
     end.
Proof.
  intros F. pose proof (find_first_symbols_spec _ _ _ F) as (Hr & Hn & Hnil & Hsym).
  unfold scan_body. rewrite F. cbv zeta.
  set (b := sbuf st) in *.
  set (b1 := mkReadBuffer (bytes b + n) r (pending b)).
  assert (unread b1 = drop n (unread b)) as Hu1.
  { unfold unread, b1. simpl. rewrite Hr. rewrite drop_app_le by done. done. }
  assert (bytes b1 = bytes b + n) as Hb1 by done.
  destruct r as [|c r'].
  - simpl. rewrite refill_refill, unread_refill, bytes_refill. done.
  - assert (working b1 <> []) as Hw by done.
    destruct (unread_advance b1 Hw) as [Ha Hab].
    rewrite Hu1, tail_drop in Ha. rewrite Hb1 in Hab.
    destruct (is_scan_symbol_cases c (Hsym c eq_refl)) as [-> | [-> | [-> | ->]]]; simpl;
      rewrite !refill_refill, ?unread_refill, ?bytes_refill.
    + rewrite unread_advance_refill, bytes_advance_refill.
      rewrite Ha, Hab, tail_drop. rewrite <- Nat.add_assoc. simpl.
      repeat split; try done. lia.
    + repeat split; try done. lia.
    + repeat split; try done. lia.
    + repeat split; try done. lia.
Qed.

Lemma scan_body_progress st :
  working (sbuf st) <> [] ->
  length (unread (sbuf (scan_body st))) < length (unread (sbuf st)).
Proof.
  intros Hw. destruct (find_first_symbols (working (sbuf st))) as [n r] eqn:F.
  pose proof (find_first_symbols_spec _ _ _ F) as (Hr & Hn & Hnil & Hsym).
  pose proof (scan_body_spec st n r F) as [_ H]. cbv zeta in H.
  assert (0 < length (unread (sbuf st))) as Hpos.
  { unfold unread. rewrite length_app. destruct (working (sbuf st)); [done | simpl; lia]. }
  destruct r as [|c r'].
  - destruct H as (-> & _). rewrite length_drop. rewrite Hnil by done.
    destruct (working (sbuf st)); [done | simpl; lia].
  - destruct (Ascii.eqb c "\"%char); destruct H as (-> & _); rewrite length_drop; lia.
Qed.

(** The loop stops, and stops at the first test of its condition that
    fails; its passes are the iterates of the body. *)
Lemma scan_loop_iter fuel min_chunk_bytes chunk_begin st :
  length (unread (sbuf st)) < fuel ->
  exists n,
    scan_loop fuel min_chunk_bytes chunk_begin st = Nat.iter n scan_body st
    /\ (forall k, k < n ->
          scan_continue min_chunk_bytes chunk_begin (Nat.iter k scan_body st) = true)
    /\ scan_continue min_chunk_bytes chunk_begin (Nat.iter n scan_body st) = false.
Proof.
  revert st. induction fuel as [|fuel IH]; intros st Hlen; [lia|].
  simpl. destruct (scan_continue min_chunk_bytes chunk_begin st) eqn:E.
  - assert (working (sbuf st) <> []) as Hw.
    { unfold scan_continue, at_eof in E. by destruct (working (sbuf st)). }
    pose proof (scan_body_progress st Hw) as Hp.
    destruct (IH (scan_body st)) as (n & Hn & Hbefore & Hstop); [lia|].
    exists (S n). rewrite !Nat.iter_succ_r. split; [done|]. split; [|done].
    intros [|k] Hk; [done|]. rewrite Nat.iter_succ_r. apply Hbefore. lia.
  - exists 0. simpl. split; [done|]. split; [lia | done].
Qed.

Lemma at_eof_refilled b : refill b = b -> at_eof b = bool_decide (unread b = []).
Proof. intros <-. rewrite unread_refill. apply at_eof_refill. Qed.

Lemma head_working_refilled b : refill b = b -> head (working b) = head (unread b).
Proof. intros <-. rewrite unread_refill. apply head_working_refill. Qed.

Lemma scan_continue_spec min_chunk_bytes chunk_begin st :
  refill (sbuf st) = sbuf st ->
  scan_continue min_chunk_bytes chunk_begin st = true
  <-> unread (sbuf st) <> []
      /\ (sbalance st <> 0%Z \/ bytes (sbuf st) - chunk_begin < min_chunk_bytes).
Proof.
  intros Hr. unfold scan_continue. rewrite (at_eof_refilled _ Hr).
  rewrite andb_true_iff, orb_true_iff, !negb_true_iff, bool_decide_eq_false.
  rewrite Z.eqb_neq, Nat.ltb_lt. done.
Qed.

Lemma scan_iter_refilled start balance k :
  refill start = start ->
  refill (sbuf (Nat.iter k scan_body (mkScan start balance false)))
  = sbuf (Nat.iter k scan_body (mkScan start balance false)).
Proof.
  intros H. destruct k as [|k]; [done|]. simpl.
  destruct (find_first_symbols
              (working (sbuf (Nat.iter k scan_body (mkScan start balance false)))))
    as [n r] eqn:F.
  by destruct (scan_body_spec _ _ _ F) as [? _].
Qed.

(** C8 (as amended): [skipToNextRow] returns false, having consumed
    whitespace only, exactly when the input after the whitespace is
    exhausted or starts with a semicolon.  Otherwise it scans symbol by
    symbol: an escape byte consumes itself and exactly the following byte
    (when there is one), a quote toggles the quoted flag, a parenthesis
    changes the balance only while unquoted.  The scan goes on while input
    is left and the balance is not zero or fewer than [min_chunk_bytes]
    bytes are consumed: it stops at the first test that finds the input
    exhausted, or the balance at zero (not at the caller's starting value)
    with at least [min_chunk_bytes] bytes consumed.  A comma after the row
    is consumed too. *)
Theorem skipToNextRow_scan (buf : ReadBuffer) (min_chunk_bytes : nat) (balance : Z) :
  let start := skipWhitespaceIfAny buf in
  let result := skipToNextRow buf min_chunk_bytes balance in
  let st k := Nat.iter k scan_body (mkScan start balance false) in
  (fst result = false <->
     skip_spaces (unread buf) = [] \/ head (skip_spaces (unread buf)) = Some ";"%char)
  /\ (fst result = false -> snd result = start)
  /\ (fst result = true ->
      exists n,
        (forall k, k < n ->
           unread (sbuf (st k)) <> []
           /\ (sbalance (st k) <> 0%Z
               \/ bytes (sbuf (st k)) - bytes start < min_chunk_bytes))
        /\ (unread (sbuf (st n)) = []
            \/ (sbalance (st n) = 0%Z
                /\ min_chunk_bytes <= bytes (sbuf (st n)) - bytes start))
        /\ snd result = skip_comma (sbuf (st n)))
  /\ (forall s n c rest,
        find_first_symbols (working (sbuf s)) = (n, c :: rest) ->
        (c = "\"%char ->
           unread (sbuf (scan_body s)) = drop (n + 2) (unread (sbuf s))
           /\ sbalance (scan_body s) = sbalance s /\ squoted (scan_body s) = squoted s)
        /\ (c = "'"%char ->
           unread (sbuf (scan_body s)) = drop (n + 1) (unread (sbuf s))
           /\ sbalance (scan_body s) = sbalance s
           /\ squoted (scan_body s) = negb (squoted s))
        /\ (c = ")"%char ->
           unread (sbuf (scan_body s)) = drop (n + 1) (unread (sbuf s))
           /\ sbalance (scan_body s) = (if squoted s then sbalance s else sbalance s - 1)%Z
           /\ squoted (scan_body s) = squoted s)
        /\ (c = "("%char ->
           unread (sbuf (scan_body s)) = drop (n + 1) (unread (sbuf s))
           /\ sbalance (scan_body s) = (if squoted s then sbalance s else sbalance s + 1)%Z
           /\ squoted (scan_body s) = squoted s))
  /\ (forall s n,
        find_first_symbols (working (sbuf s)) = (n, []) ->
        unread (sbuf (scan_body s)) = drop n (unread (sbuf s))
        /\ sbalance (scan_body s) = sbalance s /\ squoted (scan_body s) = squoted s).
Proof.
  intros start result st.
  assert (refill start = start) as Hstart by apply refill_skipWhitespaceIfAny.
  assert (unread start = skip_spaces (unread buf)) as Hu by apply unread_skipWhitespaceIfAny.
  assert (fst result = false <->
     skip_spaces (unread buf) = [] \/ head (skip_spaces (unread buf)) = Some ";"%char) as Hfalse.
  { unfold result, skipToNextRow. fold start. rewrite Hstart.
    rewrite (at_eof_refilled _ Hstart), (head_working_refilled _ Hstart), Hu.
    destruct (bool_decide (skip_spaces (unread buf) = []) ||
              bool_decide (head (skip_spaces (unread buf)) = Some ";"%char)) eqn:E; simpl.
    - apply orb_true_iff in E. rewrite !bool_decide_eq_true in E. done.
    - apply orb_false_iff in E. rewrite !bool_decide_eq_false in E. split; [done | tauto]. }
  split; [exact Hfalse|]. split; [|split; [|split]].
  - unfold result, skipToNextRow. fold start. rewrite Hstart.
    destruct (at_eof start || bool_decide (head (working start) = Some ";"%char)); done.
  - intros Htrue.
    unfold result, skipToNextRow in *. fold start in Htrue |- *. rewrite Hstart in Htrue |- *.
    destruct (at_eof start || bool_decide (head (working start) = Some ";"%char)); [done|].
    cbv zeta. 
    destruct (scan_loop_iter (scan_fuel start) min_chunk_bytes (bytes start)
                (mkScan start balance false)) as (n & -> & Hbefore & Hstop).
    { unfold scan_fuel. simpl. lia. }
    exists n. split; [|split; [|reflexivity]].
    + intros k Hk. apply (scan_continue_spec min_chunk_bytes (bytes start)).
      * by apply scan_iter_refilled.
      * by apply Hbefore.
    + fold (st n) in Hstop |- *.
      assert (refill (sbuf (st n)) = sbuf (st n)) as Hr by by apply scan_iter_refilled.
      pose proof (scan_continue_spec min_chunk_bytes (bytes start) (st n) Hr) as Hc.
      destruct (decide (unread (sbuf (st n)) = [])) as [|Hne]; [by left | right].
      destruct (decide (sbalance (st n) = 0%Z)) as [Hz|Hnz].
      * split; [done|].
        destruct (decide (min_chunk_bytes <= bytes (sbuf (st n)) - bytes start)); [done|].
        assert (scan_continue min_chunk_bytes (bytes start) (st n) = true)
          by (apply Hc; split; [done | right; lia]).
        congruence.
      * assert (scan_continue min_chunk_bytes (bytes start) (st n) = true)
          by (apply Hc; split; [done | by left]).
        congruence.
  - intros s n c rest F. pose proof (scan_body_spec s n _ F) as [_ H]. cbv zeta in H.
    split; [|split; [|split]]; intros ->; simpl in H; tauto.
  - intros s n F. pose proof (scan_body_spec s n _ F) as [_ H]. cbv zeta in H. tauto.
Qed.

(** C8, the claim as worded fails: the scan does not stop when the balance
    is back at the caller's starting value, and it does not stop in an
    unbalanced region once [min_chunk_bytes] bytes are consumed.  With the
    starting balance 1, the balance of [(a)) z] is back at 1 after three
    bytes, and the scan goes on to the fourth, where the balance is 0.
    With [min_chunk_bytes] 1 and the starting balance 0, the first byte of
    [(()] leaves the region unbalanced with one byte consumed, and the scan
    goes on to the end of the input. *)
Lemma skipToNextRow_stops_at_balance_zero :
  let st := Nat.iter 2 scan_body (mkScan (Example.buffer "(a)) z") 1 false) in
  (sbalance st = 1%Z /\ bytes (sbuf st) = 3 /\ scan_continue 0 0 st = true)
  /\ skipToNextRow (Example.buffer "(a)) z") 0 1 = (true, mkReadBuffer 4 [" "; "z"]%char [])
  /\ let st' := Nat.iter 1 scan_body (mkScan (Example.buffer "(()") 0 false) in
     (sbalance st' = 1%Z /\ bytes (sbuf st') = 1 /\ scan_continue 1 0 st' = true)
     /\ skipToNextRow (Example.buffer "(()") 1 0 = (true, mkReadBuffer 3 [] []).
Proof. vm_compute. done. Qed.

Section Properties.

Context `{C : Collaborators}.

(** ** The deduction heuristic *)

Lemma Qltb_lt x y : Qltb x y = true <-> (x < y)%Q.
Proof.
  unfold Qltb. rewrite negb_true_iff. split.
  - intros H. apply Qnot_le_lt. intros Hle. apply Qle_bool_iff in Hle. congruence.
  - intros H. destruct (Qle_bool y x) eqn:E; [|done].
    apply Qle_bool_iff in E. by apply Qlt_not_le in H.
Qed.

Lemma Qltb_ge x y : Qltb x y = false <-> (y <= x)%Q.
Proof.
  unfold Qltb. rewrite negb_false_iff. apply Qle_bool_iff.
Qed.

(** C2 (as amended): whatever the counters of the column, with template
    deduction disabled in the settings [shouldDeduceNewTemplate] returns
    false and changes nothing.  With template deduction enabled it returns
    true, changing nothing, whenever the weighted score 1.5 x cold attempts
    + 0.5 x cache-hit attempts is below 100; at 100 or above it returns
    true only if the rows replayed through templates divided by the score
    exceed 1, and then the three counters of the column are zero; otherwise
    it returns false.  After 67 cold attempts and no replayed row the score
    is 100.5, the ratio is 0 and it returns false.  Whenever it returns
    false, [parseExpression], which has parsed the expression and set the
    column to [SingleExpressionEvaluation], goes on directly with the
    evaluation of the expression (lines 543-573) in the state it called
    [shouldDeduceNewTemplate] in: no template is asked for. *)
Theorem shouldDeduceNewTemplate_heuristic (settings : Settings) (column_idx : nat)
    (s : ValuesBlockInputFormat) :
  let score := attempts_weighted column_idx s in
  let replayed := Q_of_size_t (counter (rows_parsed_using_template s) column_idx) in
  let result := shouldDeduceNewTemplate settings column_idx s in
  (deduce_templates_of_expressions settings = false -> result = (Ret false, s))
  /\ (deduce_templates_of_expressions settings = true ->
      ((score < 100)%Q -> result = (Ret true, s))
      /\ ((100 <= score)%Q ->
          (fst result = Ret true <-> (1 < replayed / score)%Q)
          /\ (fst result = Ret true \/ result = (Ret false, s))
          /\ (fst result = Ret true ->
              attempts_to_deduce_template (snd result)
                = <[column_idx := 0%N]> (attempts_to_deduce_template s)
              /\ attempts_to_deduce_template_cached (snd result)
                = <[column_idx := 0%N]> (attempts_to_deduce_template_cached s)
              /\ rows_parsed_using_template (snd result)
                = <[column_idx := 0%N]> (rows_parsed_using_template s)))
      /\ (counter (attempts_to_deduce_template s) column_idx = 67%N ->
          counter (attempts_to_deduce_template_cached s) column_idx = 0%N ->
          counter (rows_parsed_using_template s) column_idx = 0%N ->
          (score == 100.5)%Q /\ (replayed / score == 0)%Q /\ result = (Ret false, s)))
  /\ (fst result = Ret false ->
      result = (Ret false, s)
      /\ forall (s0 s1 s2 : ValuesBlockInputFormat) (ast : AST) (ti_start : TokenIterator),
           parse_with_delimiter settings column_idx s0 = (Ret (ast, ti_start), s1) ->
           probe_streaming settings column_idx ast s1 = (Ret false, s2) ->
           set_parser_type column_idx SingleExpressionEvaluation s2 = (Ret tt, s) ->
           parseExpression settings column_idx s0
           = evaluate_single settings column_idx ast s).
Proof.
  intros score replayed result.
  assert (deduce_templates_of_expressions settings = false -> result = (Ret false, s)) as H0.
  { intros Hdis. unfold result, shouldDeduceNewTemplate. by rewrite Hdis. }
  assert (deduce_templates_of_expressions settings = true ->
          (score < 100)%Q -> result = (Ret true, s)) as H1.
  { intros Hen H. unfold result, shouldDeduceNewTemplate. rewrite Hen. simpl.
    unfold bind, get, ret. fold score.
    assert (Qltb score max_attempts = true) as -> by by apply Qltb_lt. done. }
  assert (deduce_templates_of_expressions settings = true -> (100 <= score)%Q ->
      (fst result = Ret true <-> (1 < replayed / score)%Q)
      /\ (fst result = Ret true \/ result = (Ret false, s))
      /\ (fst result = Ret true ->
          attempts_to_deduce_template (snd result)
            = <[column_idx := 0%N]> (attempts_to_deduce_template s)
          /\ attempts_to_deduce_template_cached (snd result)
            = <[column_idx := 0%N]> (attempts_to_deduce_template_cached s)
          /\ rows_parsed_using_template (snd result)
            = <[column_idx := 0%N]> (rows_parsed_using_template s))) as H2.
  { intros Hen H. unfold result, shouldDeduceNewTemplate. rewrite Hen. simpl.
    unfold bind, get, ret, modify. fold score replayed.
    assert (Qltb score max_attempts = false) as -> by by apply Qltb_ge.
    destruct (Qltb 1 (replayed / score)) eqn:E; simpl.
    - apply Qltb_lt in E. split; [done|]. split; [by left | done].
    - apply Qltb_ge in E. split; [|split; [by right | done]].
      split; [done|]. intros Hc. by apply Qlt_not_le in Hc. }
  assert (fst result = Ret false -> result = (Ret false, s)) as H3.
  { intros Hf. destruct (deduce_templates_of_expressions settings) eqn:Hen; [|by apply H0].
    destruct (Qlt_le_dec score 100) as [Hlt | Hge].
    - rewrite (H1 eq_refl Hlt) in Hf. done.
    - destruct (H2 eq_refl Hge) as (_ & [Ht | Hr] & _); [|exact Hr].
      rewrite Ht in Hf. done. }
  split; [exact H0|]. split.
  - intros Hen. split; [by apply H1|]. split; [by apply H2|].
    intros Ha Hc Hr.
    assert (score == 100.5)%Q as Hs.
    { unfold score, attempts_weighted. rewrite Ha, Hc. reflexivity. }
    assert (replayed / score == 0)%Q as Hq.
    { unfold replayed. rewrite Hr, Hs. reflexivity. }
    split; [exact Hs|]. split; [exact Hq|].
    destruct (H2 Hen) as (Hiff & [Ht | Hf] & _); [rewrite Hs; done| |done].
    apply Hiff in Ht. rewrite Hq in Ht. done.
  - intros Hf. split; [by apply H3|].
    intros s0 s1 s2 ast ti_start Hparse Hprobe Hset.
    unfold parseExpression, bind. rewrite Hparse, Hprobe, Hset.
    fold result. rewrite (H3 Hf). done.
Qed.

(** ** resetParser *)

Lemma reset_columns_spec (n i : nat) (s : ValuesBlockInputFormat) :
  let s' := snd (reset_columns n i s) in
  fst (reset_columns n i s) = Ret tt
  /\ (forall j, templates s' !! j =
                if bool_decide (i <= j < i + n) then (fun _ => None) <$> templates s !! j
                else templates s !! j)
  /\ (forall j, parser_type_for_column s' !! j =
                if bool_decide (i <= j < i + n)
                then (fun _ => Streaming) <$> parser_type_for_column s !! j
                else parser_type_for_column s !! j)
  /\ got_exception s' = got_exception s
  /\ total_rows s' = total_rows s.
Proof.
  revert i s. induction n as [|n IH]; intros i s.
  - simpl. repeat split; try done; intros j; rewrite bool_decide_eq_false_2; done || lia.
  - simpl. unfold bind, set_template, set_parser_type, modify. simpl.
    destruct (IH (S i) (with_parser_type_for_column <[i:=Streaming]>
                          (with_templates <[i:=None]> s))) as (H1 & H2 & H3 & H4 & H5).
    split; [exact H1|]. split; [|split; [|done]].
    + intros j. rewrite H2. simpl.
      destruct (decide (i = j)) as [<-|Hne].
      * rewrite bool_decide_eq_false_2 by lia. rewrite bool_decide_eq_true_2 by lia.
        destruct (decide (i < length (templates s))).
        -- rewrite list_lookup_insert_eq by done.
           destruct (lookup_lt_is_Some_2 (templates s) i) as [x ->]; done.
        -- rewrite list_insert_ge by lia. rewrite lookup_ge_None_2 by lia. done.
      * rewrite list_lookup_insert_ne by done.
        repeat case_bool_decide; try done; lia.
    + intros j. rewrite H3. simpl.
      destruct (decide (i = j)) as [<-|Hne].
      * rewrite bool_decide_eq_false_2 by lia. rewrite bool_decide_eq_true_2 by lia.
        destruct (decide (i < length (parser_type_for_column s))).
        -- rewrite list_lookup_insert_eq by done.
           destruct (lookup_lt_is_Some_2 (parser_type_for_column s) i) as [x ->]; done.
        -- rewrite list_insert_ge by lia. rewrite lookup_ge_None_2 by lia. done.
      * rewrite list_lookup_insert_ne by done.
        repeat case_bool_decide; try done; lia.
Qed.

(** C7: after a session that got an exception, [resetParser] leaves every
    column without a template and in [Streaming]; after a session without
    one, it leaves templates and parser types as they are. *)
Theorem resetParser_templates (settings : Settings) (s : ValuesBlockInputFormat) :
  length (templates s) = num_columns settings ->
  length (parser_type_for_column s) = num_columns settings ->
  let s' := snd (resetParser settings s) in
  fst (resetParser settings s) = Ret tt
  /\ (got_exception s = true ->
      templates s' = replicate (num_columns settings) None
      /\ parser_type_for_column s' = replicate (num_columns settings) Streaming)
  /\ (got_exception s = false ->
      templates s' = templates s
      /\ parser_type_for_column s' = parser_type_for_column s).
Proof.
  intros Ht Hp. unfold resetParser, bind, get, IInputFormat_resetParser, modify, ret.
  destruct (got_exception s) eqn:E.
  - pose proof (reset_columns_spec (num_columns settings) 0 s) as (H1 & H2 & H3 & _).
    destruct (reset_columns (num_columns settings) 0 s) as [o s1]. simpl in *. subst o.
    simpl. split; [done|]. split; [|done]. intros _. split.
    + apply list_eq. intros j. rewrite H2.
      destruct (decide (j < num_columns settings)).
      * rewrite bool_decide_eq_true_2 by lia. rewrite lookup_replicate_2 by done.
        destruct (lookup_lt_is_Some_2 (templates s) j) as [x ->]; [lia | done].
      * rewrite bool_decide_eq_false_2 by lia.
        rewrite lookup_ge_None_2 by lia. symmetry. apply lookup_replicate_None. lia.
    + apply list_eq. intros j. rewrite H3.
      destruct (decide (j < num_columns settings)).
      * rewrite bool_decide_eq_true_2 by lia. rewrite lookup_replicate_2 by done.
        destruct (lookup_lt_is_Some_2 (parser_type_for_column s) j) as [x ->]; [lia | done].
      * rewrite bool_decide_eq_false_2 by lia.
        rewrite lookup_ge_None_2 by lia. symmetry. apply lookup_replicate_None. lia.
  - simpl. done.
Qed.

(** ** tryReadValue *)

Ltac run :=
  repeat (progress unfold skip_whitespace, rollback, set_parser_type, set_template, set_column,
            column_insert, column_popBack, on_buf_pure, on_buf, try_catch, try_all,
            bind, ret, throw, rethrow, get, modify, lift in *);
  simpl in *.

Lemma popBack_insert (c : IColumn) (v : Field) : popBack 1 (c ++ [v]) = c.
Proof.
  unfold popBack. rewrite length_app. simpl.
  replace (length c + 1 - 1) with (length c) by lia. by rewrite take_app_length.
Qed.

Lemma alter_popBack_insert (idx : nat) (v : Field) (cols : list IColumn) :
  alter (popBack 1) idx (alter (fun c => c ++ [v]) idx cols) = cols.
Proof.
  rewrite list_alter_alter_eq. apply list_alter_id. intros c. simpl. apply popBack_insert.
Qed.

(** The first part of the [try] block: it appends one value when it
    returns, and none when it raises. *)
Lemma read_literal_spec (settings : Settings) (idx : nat) (s : ValuesBlockInputFormat) :
  match read_literal settings idx s with
  | (Ret _, s1) =>
      (exists v, columns s1 = alter (fun c => c ++ [v]) idx (columns s))
      /\ checkpoint (buf s1) = checkpoint (buf s)
  | (Throw _, s1) =>
      columns s1 = columns s /\ checkpoint (buf s1) = checkpoint (buf s)
  end.
Proof.
  unfold read_literal. run.
  destruct (checkStringByFirstCharacterAndAssertTheRestCaseInsensitive DEFAULT (cursor (buf s)))
    as [[[]|e] c1]; simpl; [by eauto| |done].
  destruct (null_as_default settings && negb (isNullableOrLowCardinalityNullable (column_type settings idx))); simpl.
  - destruct (deserializeNullAsDefaultOrNestedTextQuoted (column_type settings idx) c1)
      as [[[v r]|e] c2]; simpl; by eauto.
  - destruct (deserializeTextQuoted (column_type settings idx) c1) as [[v|e] c2]; simpl; by eauto.
Qed.

Lemma assertDelimiterAfterValue_frame (settings : Settings) (idx : nat) (s : ValuesBlockInputFormat) :
  let r := assert_delimiter settings idx s in
  columns (snd r) = columns s /\ checkpoint (buf (snd r)) = checkpoint (buf s).
Proof.
  unfold assert_delimiter, assertDelimiterAfterValue, checkDelimiterAfterValue. run.
  case_bool_decide; simpl;
    repeat (match goal with
            | |- context [checkChar ?c ?b] => destruct (checkChar c b) as [[] ?]; simpl
            end); done.
Qed.

(** C5: in [tryReadValue], when the cell is not the [DEFAULT] marker and
    the literal deserializer raises [e], leaving the cursor at [c2]: if [e]
    is the out-of-bound error or is no parse error, [e] reaches the caller
    from the state the deserializer left (cursor at [c2], no rollback,
    columns as they were, no call but the deserializer's); only when [e] is
    a parse error other than the out-of-bound one, the cursor is rolled
    back and [parseExpression] runs. *)
Theorem tryReadValue_deserializer_error (settings : Settings) (column_idx : nat)
    (s : ValuesBlockInputFormat) (c1 c2 : ReadBuffer) (e : Exception) :
  checkStringByFirstCharacterAndAssertTheRestCaseInsensitive DEFAULT (cursor (buf s))
    = (Ret false, c1) ->
  (if null_as_default settings
      && negb (isNullableOrLowCardinalityNullable (column_type settings column_idx))
   then deserializeNullAsDefaultOrNestedTextQuoted (column_type settings column_idx) c1
        = (Throw e, c2)
   else deserializeTextQuoted (column_type settings column_idx) c1 = (Throw e, c2)) ->
  let raised := log (EvDeserialize column_idx) (set_cursor c2 s) in
  (isParseError (code e) = false \/ code e = ARGUMENT_OUT_OF_BOUND ->
     tryReadValue settings column_idx s = (Throw e, raised))
  /\ (isParseError (code e) = true /\ code e <> ARGUMENT_OUT_OF_BOUND ->
     tryReadValue settings column_idx s
     = parseExpression settings column_idx (with_buf rollbackToCheckpoint raised))
  /\ cursor (buf raised) = c2
  /\ columns raised = columns s
  /\ trace raised = trace s ++ [EvDeserialize column_idx].
Proof.
  intros Hd He raised.
  assert (read_literal settings column_idx s = (Throw e, raised)) as Hl.
  { unfold read_literal. run. rewrite Hd. simpl.
    destruct (null_as_default settings && negb _); simpl; rewrite He; done. }
  split; [|split; [|done]].
  - intros Hcode. unfold tryReadValue. rewrite Hl. unfold tryReadValue_catch.
    destruct Hcode as [-> | ->]; [done|].
    rewrite bool_decide_eq_true_2 by done. by rewrite orb_true_r.
  - intros [Hp Hne]. unfold tryReadValue. rewrite Hl. unfold tryReadValue_catch.
    rewrite Hp, bool_decide_eq_false_2 by done. done.
Qed.

(** C10: when the [try] block of [tryReadValue] raises a parse error other
    than the out-of-bound one, [parseExpression] starts from the columns as
    they were at entry and from the cursor at the checkpoint: nothing is
    popped when the value was not yet appended (the error came from the
    [DEFAULT] check or the deserializer), and the one appended value is
    popped when the error came from the delimiter check after it. *)
Theorem tryReadValue_restores (settings : Settings) (column_idx : nat)
    (s : ValuesBlockInputFormat) (e : Exception) :
  isParseError (code e) = true ->
  code e <> ARGUMENT_OUT_OF_BOUND ->
  (forall s1,
     read_literal settings column_idx s = (Throw e, s1) ->
     let s2 := with_buf rollbackToCheckpoint s1 in
     tryReadValue settings column_idx s = parseExpression settings column_idx s2
     /\ columns s1 = columns s
     /\ columns s2 = columns s
     /\ (forall c, checkpoint (buf s) = Some c -> cursor (buf s2) = c))
  /\ (forall read s1 s3,
     read_literal settings column_idx s = (Ret read, s1) ->
     assert_delimiter settings column_idx s1 = (Throw e, s3) ->
     let s2 := with_buf rollbackToCheckpoint
                 (with_columns (alter (popBack 1) column_idx) s3) in
     tryReadValue settings column_idx s = parseExpression settings column_idx s2
     /\ (exists v, columns s3 = alter (fun c => c ++ [v]) column_idx (columns s))
     /\ columns s2 = columns s
     /\ (forall c, checkpoint (buf s) = Some c -> cursor (buf s2) = c)).
Proof.
  intros Hp Hne. split.
  - intros s1 Hl s2. pose proof (read_literal_spec settings column_idx s) as Hs.
    rewrite Hl in Hs. destruct Hs as [Hc Hk].
    split; [|split; [done|split; [done|]]].
    + unfold tryReadValue. rewrite Hl. unfold tryReadValue_catch.
      rewrite Hp, bool_decide_eq_false_2 by done. done.
    + intros c Hck. unfold s2. simpl. unfold rollbackToCheckpoint. rewrite Hk, Hck. done.
  - intros read s1 s3 Hl Hd s2. pose proof (read_literal_spec settings column_idx s) as Hs.
    rewrite Hl in Hs. destruct Hs as [[v Hc] Hk].
    pose proof (assertDelimiterAfterValue_frame settings column_idx s1) as Hf.
    cbv zeta in Hf. rewrite Hd in Hf. simpl in Hf. destruct Hf as [Hc3 Hk3].
    split; [|split; [|split]].
    + unfold tryReadValue. rewrite Hl, Hd. unfold tryReadValue_catch.
      rewrite Hp, bool_decide_eq_false_2 by done. done.
    + exists v. congruence.
    + unfold s2. simpl. rewrite Hc3, Hc. apply alter_popBack_insert.
    + intros c Hck. unfold s2. simpl. unfold rollbackToCheckpoint.
      rewrite Hk3, Hk, Hck. done.
Qed.

(** ** parseExpression *)

Lemma hasBit_setBit (column_idx row_idx : nat) (m : BlockMissingValues) :
  hasBit column_idx row_idx (setBit column_idx row_idx m) = true.
Proof. unfold hasBit, setBit. apply bool_decide_eq_true_2. left. Qed.


(** C4: [parseExpression] returns only if the parser accepts an expression
    and the token right after it is a comma, for a column that is not the
    last, or the closing round bracket, for the last one.  This is the
    condition of the claim in its sharpest form: of the two endings it
    allows for the last column, the bracket and the bracket behind a
    trailing comma, a return has always the first; any other token after
    the expression, the trailing comma included, makes [parseExpression]
    raise SYNTAX_ERROR. *)
Theorem parseExpression_delimiter (settings : Settings) (column_idx : nat)
    (s s1 : ValuesBlockInputFormat) (ast : option AST) (after : TokenIterator) :
  readUntilTheEndOfRowAndReTokenize column_idx s = (Ret tt, s1) ->
  parse (iterator s1) = (ast, after) ->
  let delimiter := if bool_decide (column_idx + 1 ≠ num_columns settings)
                   then Comma else ClosingRoundBracket in
  (forall read s', parseExpression settings column_idx s = (Ret read, s') ->
                   is_Some ast /\ type (current after) = delimiter)
  /\ (type (current after) <> delimiter ->
      exists s', parseExpression settings column_idx s = (Throw (exception SYNTAX_ERROR), s')).
Proof.
  intros Ht Hp delimiter.
  unfold parseExpression, parse_with_delimiter. run. rewrite Ht. simpl.
  destruct (negb (isError (current_token s1)) && negb (isEnd (current_token s1))) eqn:Etok;
    simpl.
  2: { split; [done | eauto]. }
  rewrite Hp. simpl. unfold delimiter.
  destruct ast as [a|]; simpl.
  2: { destruct (bool_decide (column_idx + 1 ≠ num_columns settings)); simpl;
       (split; [done | eauto]). }
  case_bool_decide as Hlast; simpl;
    match goal with
    | |- context [bool_decide (type (current after) = ?d)] =>
        destruct (bool_decide (type (current after) = d)) eqn:E
    end; simpl.
  - apply bool_decide_eq_true in E. split; [|done]. intros. split; [eauto | done].
  - apply bool_decide_eq_false in E. split; [done | eauto].
  - apply bool_decide_eq_true in E. split; [|done]. intros. split; [eauto | done].
  - apply bool_decide_eq_false in E. split; [done | eauto].
Qed.

(** ** What a call of parseExpression changes *)

Lemma step_refl idx s : step idx s s.
Proof.
  split.
  - exists []. symmetry. apply list_alter_id. intros. apply app_nil_r.
  - exists []. split; [by rewrite app_nil_r | by left].
Qed.

Lemma step_trans idx s1 s2 s3 : step idx s1 s2 -> step idx s2 s3 -> step idx s1 s3.
Proof.
  intros [[t1 H1] (e1 & He1 & Ht1)] [[t2 H2] (e2 & He2 & Ht2)]. split.
  - exists (t1 ++ t2). rewrite H2, H1, list_alter_alter_eq.
    apply list_alter_ext; [|done]. intros c _. simpl. by rewrite app_assoc.
  - exists (e1 ++ e2). split; [by rewrite He2, He1, app_assoc|].
    destruct Ht1 as [Ht1|Ht1], Ht2 as [Ht2|Ht2];
      [left; congruence | right; apply elem_of_app; tauto..].
Qed.

(** A state that differs in the cursor, the tokens, the parser types, the
    counters or the cache only. *)
Lemma step_same idx s s' :
  columns s' = columns s -> templates s' = templates s ->
  (exists evs, trace s' = trace s ++ evs) -> step idx s s'.
Proof.
  intros Hc Ht [evs He]. split.
  - exists []. rewrite Hc. symmetry. apply list_alter_id. intros. apply app_nil_r.
  - exists evs. split; [done | by left].
Qed.

Ltac trace_ext :=
  simpl; rewrite <- ?app_assoc;
  first [ eexists; reflexivity | exists []; symmetry; apply app_nil_r ].

Ltac same := apply step_same; [done | done | trace_ext].

Lemma checkpoint_rollbackToCheckpoint b :
  checkpoint (rollbackToCheckpoint b) = checkpoint b.
Proof. unfold rollbackToCheckpoint. by destruct (checkpoint b) eqn:E. Qed.

Lemma retokenize_same s :
  let s' := snd (retokenize s) in
  columns s' = columns s /\ templates s' = templates s /\ trace s' = trace s
  /\ checkpoint (buf s') = checkpoint (buf s).
Proof.
  unfold retokenize. run. case_match; simpl; rewrite checkpoint_rollbackToCheckpoint; done.
Qed.

Lemma readUntilTheEndOfRowAndReTokenize_same column_idx s :
  let s' := snd (readUntilTheEndOfRowAndReTokenize column_idx s) in
  columns s' = columns s /\ templates s' = templates s /\ trace s' = trace s
  /\ checkpoint (buf s') = checkpoint (buf s).
Proof.
  unfold readUntilTheEndOfRowAndReTokenize. run.
  destruct (token_iterator s) as [it|]; [|apply retokenize_same].
  destruct (token_memory_valid (buf s) (current it)); [|apply retokenize_same].
  simpl. case_match; [done|].
  match goal with |- context [retokenize ?x] => pose proof (retokenize_same x) as Hret end.
  simpl in Hret. done.
Qed.

Lemma parse_with_delimiter_step settings column_idx s o s' :
  parse_with_delimiter settings column_idx s = (o, s') -> step column_idx s s'.
Proof.
  unfold parse_with_delimiter. unfold bind at 1.
  pose proof (readUntilTheEndOfRowAndReTokenize_same column_idx s) as (Hc & Ht & He & _).
  destruct (readUntilTheEndOfRowAndReTokenize column_idx s) as [[[]|e] s1]; simpl in *.
  2: { intros [= <- <-]. apply step_same; [done | done | exists []; by rewrite He, app_nil_r]. }
  run. intros H. apply step_same.
  - repeat case_match; simplify_eq/=; done.
  - repeat case_match; simplify_eq/=; done.
  - repeat case_match; simplify_eq/=; rewrite He; first [by exists [] ; rewrite app_nil_r | by eexists].
Qed.

Lemma appends_one idx v s s' :
  columns s' = alter (fun c => c ++ [v]) idx (columns s) -> appends idx s s'.
Proof. intros H. by exists [v]. Qed.

Lemma appends_none idx s s' : columns s' = columns s -> appends idx s s'.
Proof.
  intros H. exists []. rewrite H. symmetry. apply list_alter_id. intros. apply app_nil_r.
Qed.

Lemma deduces_same idx s s' :
  templates s' = templates s -> (exists evs, trace s' = trace s ++ evs) -> deduces idx s s'.
Proof. intros Ht [evs He]. exists evs. split; [done | by left]. Qed.

Lemma checkDelimiterAfterValue_same settings column_idx s :
  let s' := snd (checkDelimiterAfterValue settings column_idx s) in
  columns s' = columns s /\ templates s' = templates s /\ trace s' = trace s
  /\ checkpoint (buf s') = checkpoint (buf s).
Proof.
  unfold checkDelimiterAfterValue. run.
  case_bool_decide; simpl;
    repeat (match goal with
            | |- context [checkChar ?c ?b] => destruct (checkChar c b) as [[] ?]; simpl
            end); done.
Qed.

Lemma probe_streaming_step settings column_idx ast s o s' :
  probe_streaming settings column_idx ast s = (o, s') -> step column_idx s s'.
Proof.
  unfold probe_streaming. unfold bind at 1, get.
  destruct (bool_decide (parser_type column_idx s ≠ Streaming) && isLiteral ast).
  2: { intros [= <- <-]. apply step_refl. }
  unfold bind at 1. unfold bind at 1. unfold modify at 1. unfold on_buf at 1.
  simpl.
  destruct (deserializeTextQuoted (column_type settings column_idx) (cursor (buf s)))
    as [[v|e] c1]; simpl.
  - unfold bind at 1. unfold skip_whitespace, modify at 1. 
    match goal with
    | |- context [checkDelimiterAfterValue settings column_idx ?x] =>
        pose proof (checkDelimiterAfterValue_same settings column_idx x) as (Hc & Ht & He & _);
        destruct (checkDelimiterAfterValue settings column_idx x) as [[ok|e] s2]
    end; simpl in *.
    + destruct ok; run; intros [= <- <-]; (split; [|apply deduces_same; [simpl; congruence | simpl; rewrite ?He; trace_ext]]).
      * apply (appends_one _ v). simpl. by rewrite Hc.
      * apply appends_none. simpl. rewrite Hc. apply alter_popBack_insert.
    + destruct (negb (isParseError (code e)) || bool_decide (code e = ARGUMENT_OUT_OF_BOUND));
        run; intros [= <- <-]; (split; [|apply deduces_same; [simpl; congruence | simpl; rewrite ?He; trace_ext]]).
      * apply (appends_one _ v). simpl. by rewrite Hc.
      * apply appends_none. simpl. rewrite Hc. apply alter_popBack_insert.
  - destruct (negb (isParseError (code e)) || bool_decide (code e = ARGUMENT_OUT_OF_BOUND));
      run; intros [= <- <-]; same.
Qed.

Lemma shouldDeduceNewTemplate_same settings column_idx s :
  let s' := snd (shouldDeduceNewTemplate settings column_idx s) in
  columns s' = columns s /\ templates s' = templates s /\ trace s' = trace s.
Proof. unfold shouldDeduceNewTemplate. run. repeat case_match; done. Qed.

Lemma template_parse_same column_idx it s :
  let s' := snd (template_parse column_idx it s) in
  columns s' = columns s
  /\ checkpoint (buf s') = checkpoint (buf s)
  /\ (exists evs, trace s' = trace s ++ evs)
  /\ (forall b, fst (fst (template_parse column_idx it s)) = Ret b -> b = false ->
                templates s' = templates s).
Proof.
  unfold template_parse. destruct (template_of column_idx s) as [t|]; simpl.
  2: { split; [done|]. split; [done|]. split; [trace_ext | done]. }
  destruct (template_parseExpression (structure t) (cursor (buf s)) it) as [[[[b|]|e] c] it'];
    simpl; (split; [done|]; split; [done|]; split; [trace_ext|]); try done.
  intros b' [= <-]. done.
Qed.

Lemma deduce_attempt_spec settings column_idx ast ti_start s :
  let s' := snd (deduce_attempt settings column_idx ast ti_start s) in
  columns s' = columns s
  /\ exists evs, trace s' = trace s ++ EvGetTemplate column_idx :: evs.
Proof.
  unfold deduce_attempt, get_template_structure, template_parse_copy. run.
  destruct (getFromCacheOrConstruct _ _ _ _ _ _ _) as [[[st found]|e] cache]; simpl.
  2: { split; [done | by exists []]. }
  destruct found; simpl;
    match goal with
    | |- context [template_parse column_idx ti_start ?x] =>
        pose proof (template_parse_same column_idx ti_start x) as (Hc2 & _ & [evs He2] & _);
        destruct (template_parse column_idx ti_start x) as [[[m|e] it'] s2]
    end; simpl in *; try destruct m; simpl;
    (split; [done | exists evs; rewrite He2; by rewrite <- app_assoc]).
Qed.

Lemma deduce_template_step settings column_idx ast ti_start s o s' :
  deduce_template settings column_idx ast ti_start s = (o, s') -> step column_idx s s'.
Proof.
  unfold deduce_template. unfold bind at 1, get.
  case_bool_decide; [intros [= <- <-]; apply step_refl|].
  unfold bind at 1, try_all.
  pose proof (deduce_attempt_spec settings column_idx ast ti_start s) as (Hc & evs & He).
  destruct (deduce_attempt settings column_idx ast ti_start s) as [attempt s1]. simpl in *.
  assert (forall s2, columns s2 = columns s1 -> trace s2 = trace s1 -> step column_idx s s2)
    as Hstep.
  { intros s2 Hc2 He2. split; [apply appends_none; congruence|].
    exists (EvGetTemplate column_idx :: evs). split; [congruence|]. right. left. }
  destruct attempt as [[]|e]; run; destruct (interpret_expressions settings); simpl;
    intros [= <- <-]; by apply Hstep.
Qed.

Lemma evaluate_single_step settings column_idx ast s o s' :
  evaluate_single settings column_idx ast s = (o, s') -> step column_idx s s'.
Proof.
  unfold evaluate_single. run. intros H.
  repeat case_match; simplify_eq/=;
    (split; [first [ by apply appends_none | by eapply appends_one ]
            | apply deduces_same; [done | trace_ext]]).
Qed.

Lemma parseExpression_step settings column_idx s o s' :
  parseExpression settings column_idx s = (o, s') -> step column_idx s s'.
Proof.
  unfold parseExpression. unfold bind at 1.
  destruct (parse_with_delimiter settings column_idx s) as [[[ast ti]|e] s1] eqn:E1.
  2: { intros [= <- <-]. by eapply parse_with_delimiter_step. }
  apply parse_with_delimiter_step in E1.
  unfold bind at 1.
  destruct (probe_streaming settings column_idx ast s1) as [[streaming|e] s2] eqn:E2.
  2: { intros [= <- <-]. eapply step_trans; [done|]. by eapply probe_streaming_step. }
  apply probe_streaming_step in E2.
  assert (step column_idx s s2) as H2 by by eapply step_trans.
  destruct streaming; [intros [= <- <-]; done|].
  unfold bind at 1. unfold set_parser_type, modify at 1. unfold bind at 1.
  match goal with
  | |- context [shouldDeduceNewTemplate settings column_idx ?x] =>
      pose proof (shouldDeduceNewTemplate_same settings column_idx x) as (Hc & Ht & He);
      destruct (shouldDeduceNewTemplate settings column_idx x) as [[deduce|e] s3]
  end; simpl in Hc, Ht, He.
  2: { intros [= <- <-]. eapply step_trans; [done|].
       apply step_same; [done | done | exists []; by rewrite He, app_nil_r]. }
  assert (step column_idx s s3) as H3.
  { eapply step_trans; [done|].
    apply step_same; [done | done | exists []; by rewrite He, app_nil_r]. }
  unfold bind at 1.
  destruct ((if deduce then deduce_template settings column_idx ast ti else ret false) s3)
    as [[templated|e] s4] eqn:E4.
  - assert (step column_idx s3 s4) as H4.
    { destruct deduce; [by eapply deduce_template_step|].
      injection E4 as <- <-. apply step_refl. }
    destruct templated.
    + intros [= <- <-]. by eapply step_trans.
    + intros H5%evaluate_single_step. eapply step_trans; [|done]. by eapply step_trans.
  - intros [= <- <-]. eapply step_trans; [done|].
    destruct deduce; [by eapply deduce_template_step | done].
Qed.

(** ** tryParseExpressionUsingTemplate *)

Lemma evaluate_rows_length st ty bs rs :
  evaluate_rows st ty bs = Ret rs -> length rs = length bs.
Proof.
  revert rs. induction bs as [|b bs IH]; intros rs; simpl.
  - by intros [= <-].
  - destruct (template_evaluate st ty b); [|done].
    destruct (evaluate_rows st ty bs); [|done].
    intros [= <-]. simpl. f_equal. by apply IH.
Qed.

Lemma column_alter (idx : nat) (f : IColumn -> IColumn) (cols : list IColumn) :
  idx < length cols ->
  default [] (alter f idx cols !! idx) = f (default [] (cols !! idx)).
Proof.
  unfold IColumn in *. intros H. rewrite list_lookup_alter_eq.
  destruct (cols !! idx) as [c|] eqn:E; [reflexivity|]. apply lookup_ge_None in E. lia.
Qed.

Lemma bind_Ret {A B} (m : M A) (k : A -> M B) s a s1 :
  m s = (Ret a, s1) -> bind m k s = k a s1.
Proof. intros H. unfold bind. by rewrite H. Qed.

Lemma bind_Throw {A B} (m : M A) (k : A -> M B) s e s1 :
  m s = (Throw e, s1) -> bind m k s = (Throw e, s1).
Proof. intros H. unfold bind. by rewrite H. Qed.

Lemma insert_as_alter {A} (l : list A) (i : nat) (x y : A) (f : A -> A) :
  l !! i = Some y -> f y = x -> <[i := x]> l = alter f i l.
Proof.
  intros Hl Hf. apply list_eq. intros j. destruct (decide (j = i)) as [->|Hne].
  - rewrite list_lookup_insert_eq by (by eapply lookup_lt_Some).
    rewrite list_lookup_alter_eq, Hl. simpl. by rewrite Hf.
  - rewrite list_lookup_insert_ne by done. by rewrite list_lookup_alter_ne.
Qed.

(** The flush of a template: its values join the column, in order, and
    the template keeps its structure with no row. *)
Lemma evaluate_into_column_spec settings column_idx s t values :
  template_of column_idx s = Some t ->
  evaluate_rows (structure t) (column_type settings column_idx) (rows t) = Ret values ->
  column_idx < length (columns s) ->
  exists s',
    evaluate_into_column settings column_idx s = (Ret tt, s')
    /\ columns s' = alter (fun c => c ++ map fst values) column_idx (columns s)
    /\ templates s' = <[column_idx := Some (mkTemplate (structure t) [])]> (templates s)
    /\ buf s' = buf s
    /\ token_iterator s' = token_iterator s
    /\ trace s' = trace s ++ [EvEvaluateAll column_idx].
Proof.
  intros Ht Hev Hcol. unfold evaluate_into_column, evaluateAll.
  erewrite bind_Ret by reflexivity.
  unfold column.
  destruct (columns s !! column_idx) as [col|] eqn:Ecol.
  2: { apply lookup_ge_None in Ecol. unfold IColumn in *. lia. }
  simpl. destruct col as [|v col].
  - run. rewrite Ht. run. rewrite Hev. simpl. eexists. split; [reflexivity|]. simpl.
    split; [|done].
    by apply (insert_as_alter _ _ _ []).
  - run. rewrite Ht. run. rewrite Hev. simpl. eexists. split; [reflexivity|]. done.
Qed.

(** C1: in [tryParseExpressionUsingTemplate], when the row does not match
    the column's template, every row accumulated in the template is
    evaluated and the values are appended to the column, the template is
    reset, the cursor is rolled back to the checkpoint and the row goes to
    [parseExpression].  Whatever [parseExpression] then does, the flushed
    values stay in the column before the row's own value, and a template
    the column has afterwards comes from a new call of
    [getFromCacheOrConstruct]. *)
Theorem tryParseExpressionUsingTemplate_mismatch (settings : Settings) (column_idx : nat)
    (s s1 s2 : ValuesBlockInputFormat) (t : ConstantExpressionTemplate)
    (it' : TokenIterator) (values : list (Field * bool)) :
  readUntilTheEndOfRowAndReTokenize column_idx s = (Ret tt, s1) ->
  template_of column_idx s1 = Some t ->
  template_parse column_idx (iterator s1) s1 = (Ret false, it', s2) ->
  evaluate_rows (structure t) (column_type settings column_idx) (rows t) = Ret values ->
  column_idx < length (columns s) ->
  column_idx < length (templates s) ->
  exists s3,
    tryParseExpressionUsingTemplate settings column_idx s
    = parseExpression settings column_idx s3
    /\ length values = length (rows t)
    /\ column column_idx s3 = column column_idx s ++ map fst values
    /\ template_of column_idx s3 = None
    /\ (forall c, checkpoint (buf s) = Some c -> cursor (buf s3) = c)
    /\ token_iterator s3 = token_iterator s1
    /\ (forall o s',
          parseExpression settings column_idx s3 = (o, s') ->
          (exists tail, column column_idx s' = column column_idx s ++ map fst values ++ tail)
          /\ (template_of column_idx s' <> None ->
              exists evs, trace s' = trace s3 ++ evs /\ EvGetTemplate column_idx ∈ evs)).
Proof.
  intros Hre Ht Htp Hev Hcol Htpl.
  pose proof (readUntilTheEndOfRowAndReTokenize_same column_idx s) as (Hc1 & Ht1 & _ & Hk1).
  rewrite Hre in Hc1, Ht1, Hk1. simpl in Hc1, Ht1, Hk1.
  assert (columns s2 = columns s1 /\ templates s2 = templates s1
          /\ checkpoint (buf s2) = checkpoint (buf s1)) as (Hc2 & Ht2 & Hk2).
  { unfold template_parse in Htp. rewrite Ht in Htp.
    destruct (template_parseExpression _ _ _) as [[o c] it''].
    destruct o as [[b|]|e]; simplify_eq/=. done. }
  set (s2' := with_token_iterator (Some it') s2).
  assert (template_parse_ref column_idx s1 = (Ret false, s2')) as Hpr.
  { unfold template_parse_ref. by rewrite Htp. }
  destruct (evaluate_into_column_spec settings column_idx s2' t values)
    as (s' & Hflush & Hcf & Htf & Hbf & Hif & Hef); [| done | |].
  { unfold template_of in *. simpl. by rewrite Ht2. }
  { simpl. by rewrite Hc2, Hc1. }
  simpl in Hcf, Htf, Hbf.
  set (s3 := with_token_iterator (token_iterator s1)
               (with_buf rollbackToCheckpoint (with_templates <[column_idx := None]> s'))).
  exists s3.
  assert (tryParseExpressionUsingTemplate settings column_idx s
          = parseExpression settings column_idx s3) as Hrun.
  { unfold tryParseExpressionUsingTemplate.
    erewrite bind_Ret by exact Hre.
    erewrite bind_Ret by reflexivity.
    erewrite bind_Ret by exact Hpr. cbv beta iota.
    erewrite bind_Ret by exact Hflush.
    reflexivity. }
  split; [exact Hrun|]. split; [by eapply evaluate_rows_length|].
  assert (columns s3 = alter (fun c => c ++ map fst values) column_idx (columns s)) as Hc3.
  { simpl. by rewrite Hcf, Hc2, Hc1. }
  assert (column column_idx s3 = column column_idx s ++ map fst values) as Hcolumn.
  { unfold column. rewrite Hc3. by apply column_alter. }
  split; [exact Hcolumn|].
  assert (template_of column_idx s3 = None) as Hnone.
  { unfold template_of. simpl. rewrite Htf, Ht2, Ht1, list_insert_insert_eq.
    by rewrite list_lookup_insert_eq. }
  split; [exact Hnone|]. split.
  { intros c0 Hck. simpl. rewrite Hbf. unfold rollbackToCheckpoint.
    by rewrite Hk2, Hk1, Hck. }
  split; [done|].
  intros o s'' Hpe. apply parseExpression_step in Hpe as [[tail Ha] (evs & He & Hd)].
  split.
  - exists tail. unfold column in *. rewrite Ha.
    rewrite column_alter by (rewrite Hc3, length_alter; done).
    rewrite Hcolumn. by rewrite app_assoc.
  - intros Hsome. exists evs. split; [done|].
    destruct Hd as [Hsame|Hin]; [|done].
    unfold template_of in Hsome, Hnone. rewrite Hsame in Hsome. done.
Qed.

(** ** The DEFAULT marker *)

Lemma set_cursor_set_cursor c c' s : set_cursor c (set_cursor c' s) = set_cursor c s.
Proof. done. Qed.

Lemma checkChar_cases c b :
  (exists r, unread b = c :: r /\ fst (checkChar c b) = true
             /\ unread (snd (checkChar c b)) = r)
  \/ (head (unread b) <> Some c /\ fst (checkChar c b) = false
      /\ unread (snd (checkChar c b)) = unread b).
Proof.
  pose proof (checkChar_spec c b) as H.
  destruct (unread b) as [|x r] eqn:E; simpl in H.
  - right. rewrite H. simpl. by rewrite unread_refill.
  - destruct (Ascii.eqb x c) eqn:Ex.
    + apply Ascii.eqb_eq in Ex as ->. left. exists r. tauto.
    + right. rewrite H. simpl. rewrite unread_refill.
      split; [|done]. intros [= ->]. by rewrite Ascii.eqb_refl in Ex.
Qed.

Lemma skip_spaces_idemp l : skip_spaces (skip_spaces l) = skip_spaces l.
Proof.
  induction l as [|c l IH]; [done|]. simpl.
  destruct (isWhitespaceASCII c) eqn:E; [done|]. simpl. by rewrite E.
Qed.

Ltac stop_at c := exists c; first [ split; [reflexivity | done] | reflexivity ].

Lemma checkDelimiterAfterValue_spec settings column_idx s :
  match delimiter_after (bool_decide (column_idx + 1 = num_columns settings))
          (unread (cursor (buf s))) with
  | Some r =>
      exists c, checkDelimiterAfterValue settings column_idx s = (Ret true, set_cursor c s)
                /\ unread c = r
  | None =>
      exists c, checkDelimiterAfterValue settings column_idx s = (Ret false, set_cursor c s)
  end.
Proof.
  unfold checkDelimiterAfterValue, delimiter_after. run.
  assert (unread (skipWhitespaceIfAny (cursor (buf s)))
          = skip_spaces (unread (cursor (buf s)))) as Hu0
    by apply unread_skipWhitespaceIfAny.
  rewrite <- Hu0.
  destruct (decide (column_idx + 1 = num_columns settings)) as [Hl|Hl].
  2: { rewrite !(bool_decide_eq_false_2 (column_idx + 1 = num_columns settings)) by done.
    rewrite (bool_decide_eq_true_2 (column_idx + 1 ≠ num_columns settings)) by done.
    simpl.
    remember (skipWhitespaceIfAny (cursor (buf s))) as c0 eqn:Ec0. clear Hu0 Ec0.
    destruct (checkChar "," c0) as [r1 c1] eqn:E1.
    destruct (checkChar_cases "," c0) as [(r & Hr & Hf & Hs) | (Hh & Hf & Hs)];
      rewrite E1 in Hf, Hs; simpl in Hf, Hs; subst r1.
    + rewrite Hr. simpl. stop_at c1.
    + destruct (unread c0) as [|x r] eqn:Eu; simpl; [stop_at c1|].
      destruct (Ascii.eqb x ",") eqn:Ex; [|stop_at c1].
      apply Ascii.eqb_eq in Ex as ->. done. }
  - rewrite !(bool_decide_eq_true_2 (column_idx + 1 = num_columns settings)) by done.
    rewrite (bool_decide_eq_false_2 (column_idx + 1 ≠ num_columns settings)) by (by intros ?).
    simpl.
    remember (skipWhitespaceIfAny (cursor (buf s))) as c0 eqn:Ec0. clear Hu0 Ec0.
    destruct (checkChar "," c0) as [r1 c1] eqn:E1.
    destruct (checkChar_cases "," c0) as [(r & Hr & Hf & Hs) | (Hh & Hf & Hs)];
      rewrite E1 in Hf, Hs; simpl in Hf, Hs; subst r1; simpl.
    + rewrite Hr. simpl.
      assert (unread (skipWhitespaceIfAny c1) = skip_spaces r) as Hu2
        by (rewrite unread_skipWhitespaceIfAny; congruence).
      rewrite <- Hu2.
      remember (skipWhitespaceIfAny c1) as c2 eqn:Ec2. clear Hu2 Ec2.
      destruct (checkChar ")" c2) as [r3 c3] eqn:E3.
      destruct (checkChar_cases ")" c2) as [(r' & Hr' & Hf' & Hs') | (Hh' & Hf' & Hs')];
        rewrite E3 in Hf', Hs'; simpl in Hf', Hs'; subst r3.
      * rewrite Hr'. simpl. stop_at c3.
      * destruct (unread c2) as [|x r'] eqn:Eu; simpl; [stop_at c3|].
        destruct (Ascii.eqb x ")") eqn:Ex; [|stop_at c3].
        apply Ascii.eqb_eq in Ex as ->. done.
    + destruct (checkChar ")" c1) as [r3 c3] eqn:E3.
      destruct (checkChar_cases ")" c1) as [(r' & Hr' & Hf' & Hs') | (Hh' & Hf' & Hs')];
        rewrite E3 in Hf', Hs'; simpl in Hf', Hs'; subst r3; rewrite Hs in *.
      * rewrite Hr'. simpl. destruct (Ascii.eqb ")" ",") eqn:Ex; [done|]. stop_at c3.
      * destruct (unread c0) as [|x r'] eqn:Eu; simpl; [stop_at c3|].
        destruct (Ascii.eqb x ",") eqn:Ex.
        { apply Ascii.eqb_eq in Ex as ->. done. }
        destruct (Ascii.eqb x ")") eqn:Ex'; [|stop_at c3].
        apply Ascii.eqb_eq in Ex' as ->. done.
Qed.

Lemma assertStringCaseInsensitive_ok pattern b word rest :
  unread b = word ++ rest ->
  map to_lower word = map to_lower pattern ->
  exists b', assertStringCaseInsensitive pattern b = (Ret tt, b') /\ unread b' = rest.
Proof.
  revert b word. induction pattern as [|c p IH]; intros b word Hu Hw.
  - destruct word; [|done]. by exists b.
  - destruct word as [|x w]; [done|]. simpl in Hw. injection Hw as Hx Hw.
    simpl. pose proof (head_working_refill b) as Hh. rewrite Hu in Hh. simpl in Hh.
    destruct (working (refill b)) as [|y r] eqn:Ew; [done|]. injection Hh as ->.
    unfold equalsCaseInsensitive. rewrite Hx, Ascii.eqb_refl.
    apply (IH _ w); [|done]. rewrite unread_advance_refill, Hu. done.
Qed.

Lemma checkString_DEFAULT b word rest :
  unread b = word ++ rest ->
  map to_lower word = list_ascii_of_string "default" ->
  exists b',
    checkStringByFirstCharacterAndAssertTheRestCaseInsensitive DEFAULT b = (Ret true, b')
    /\ unread b' = rest.
Proof.
  intros Hu Hw. unfold checkStringByFirstCharacterAndAssertTheRestCaseInsensitive.
  destruct word as [|x w]; [done|].
  pose proof (head_working_refill b) as Hh. rewrite Hu in Hh. simpl in Hh.
  destruct (working (refill b)) as [|y r] eqn:Ew; [done|]. injection Hh as ->.
  change DEFAULT with ("D"%char :: list_ascii_of_string "EFAULT").
  cbv iota beta.
  assert (equalsCaseInsensitive "D" x = true) as ->.
  { unfold equalsCaseInsensitive. simpl in Hw. injection Hw as -> _. done. }
  destruct (assertStringCaseInsensitive_ok ("D"%char :: list_ascii_of_string "EFAULT")
              (refill b) (x :: w) rest) as (b' & -> & Hb'); [by rewrite unread_refill | done |].
  by exists b'.
Qed.

(** X19: for a column in [Streaming], a cell that reads
    DEFAULT in any mix of cases, followed by the column's delimiter, has
    its missing-mask bit set and the column's type default appended,
    whatever the declared type, and no call reaches the literal
    deserializer, the expression parser or any other collaborator. *)
Theorem read_column_DEFAULT (settings : Settings) (column_idx row_num : nat)
    (s : ValuesBlockInputFormat) (word rest remaining : list ascii) :
  parser_type column_idx s = Streaming ->
  skip_spaces (unread (cursor (buf s))) = word ++ rest ->
  map to_lower word = list_ascii_of_string "default" ->
  delimiter_after (bool_decide (column_idx + 1 = num_columns settings)) rest
    = Some remaining ->
  exists c,
    let s' := with_buf (fun _ => mkPeekable c None)
                (with_block_missing_values (setBit column_idx row_num)
                   (with_columns
                      (alter (fun col => col ++ [getDefault (column_type settings column_idx)])
                             column_idx) s)) in
    read_column settings column_idx row_num s = (Ret tt, s')
    /\ unread c = remaining
    /\ hasBit column_idx row_num (block_missing_values s') = true
    /\ trace s' = trace s
    /\ (column_idx < length (columns s) ->
        column column_idx s'
        = column column_idx s ++ [getDefault (column_type settings column_idx)]).
Proof.
  intros Hp Hu Hw Hd.
  set (c0 := skipWhitespaceIfAny (cursor (buf s))).
  destruct (checkString_DEFAULT c0 word rest) as (c1 & Hc1 & Hu1);
    [by unfold c0; rewrite unread_skipWhitespaceIfAny | done |].
  set (s1 := with_columns
               (alter (fun col => col ++ [getDefault (column_type settings column_idx)])
                      column_idx)
               (set_cursor c1 (with_buf setCheckpoint
                                 (with_buf (on_cursor skipWhitespaceIfAny) s)))).
  pose proof (checkDelimiterAfterValue_spec settings column_idx
                (with_buf (on_cursor skipWhitespaceIfAny) s1)) as Hdel.
  assert (unread (cursor (buf (with_buf (on_cursor skipWhitespaceIfAny) s1)))
          = skip_spaces rest) as Hu2.
  { simpl. by rewrite unread_skipWhitespaceIfAny, Hu1. }
  assert (forall l last, delimiter_after last (skip_spaces l) = delimiter_after last l) as Hidem.
  { intros l last. unfold delimiter_after. by rewrite skip_spaces_idemp. }
  rewrite Hu2, Hidem, Hd in Hdel. destruct Hdel as (c & Hrun & Hc).
  exists c. cbv zeta. split; [|split; [done|split; [apply hasBit_setBit|split; [done|]]]].
  - unfold read_column. erewrite bind_Ret by reflexivity.
    unfold with_checkpoint, parse_value. erewrite bind_Ret.
    2: { erewrite bind_Ret by reflexivity.
         rewrite bool_decide_eq_true_2 by done.
         unfold tryReadValue, read_literal.
         erewrite bind_Ret.
         2: { unfold on_buf. simpl. fold c0. rewrite Hc1. reflexivity. }
         cbv iota beta. erewrite bind_Ret by reflexivity.
         unfold ret. fold s1.
         unfold assert_delimiter. erewrite bind_Ret by reflexivity.
         unfold assertDelimiterAfterValue. erewrite bind_Ret by exact Hrun.
         reflexivity. }
    reflexivity.
  - intros Hlen. unfold column. simpl. by apply column_alter.
Qed.

(** ** The statement terminator *)

Lemma skip_spaces_terminator ws rest :
  skip_spaces ws = [] -> skip_spaces (ws ++ ";"%char :: rest) = ";"%char :: rest.
Proof. intros H. by rewrite skip_spaces_app_ws. Qed.

Lemma skipBOMIfExists_terminator b ws rest :
  unread b = ws ++ ";"%char :: rest -> skip_spaces ws = [] -> skipBOMIfExists b = b.
Proof.
  intros Hu Hws. unfold skipBOMIfExists, lookahead. rewrite Hu.
  rewrite bool_decide_eq_false_2; [done|].
  destruct ws as [|w ws]; simpl. 1: done.
  intros [= -> _]. simpl in Hws. done.
Qed.

Lemma readSuffix_spec (s : ValuesBlockInputFormat) (rest : list ascii) :
  unread (cursor (buf s)) = ";"%char :: rest ->
  exists c,
    unread c = skip_spaces rest
    /\ readSuffix s
       = (if hasUnreadData (mkPeekable c (checkpoint (buf s)))
          then (Throw (exception CANNOT_READ_ALL_DATA), set_cursor c s)
          else (Ret tt, set_cursor c s)).
Proof.
  intros Hu. unfold readSuffix. erewrite bind_Ret by reflexivity.
  unfold peek. rewrite head_working_refill, Hu. simpl.
  erewrite bind_Ret by reflexivity. erewrite bind_Ret by reflexivity.
  erewrite bind_Ret by reflexivity.
  exists (skipWhitespaceIfAny (advance (refill (cursor (buf s))))).
  split; [by rewrite unread_skipWhitespaceIfAny, unread_advance_refill, Hu|].
  unfold on_cursor, set_cursor, with_buf, throw, ret. simpl.
  by destruct (hasUnreadData _).
Qed.

Lemma evaluate_templates_nothing settings n i s :
  (forall j t, templates s !! j = Some (Some t) -> rows t = []) ->
  evaluate_templates settings n i s = (Ret tt, s).
Proof.
  intros H. revert i. induction n as [|n IH]; intros i; [done|].
  simpl. erewrite bind_Ret by reflexivity. erewrite bind_Ret; [apply IH|].
  unfold template_of. destruct (templates s !! i) as [[t|]|] eqn:E; simpl; try done.
  unfold rowsCount. rewrite (H i t E). done.
Qed.

Lemma read_next_row_terminator settings s ws rest k :
  unread (cursor (buf s)) = ws ++ ";"%char :: rest ->
  skip_spaces ws = [] ->
  read_next_row settings k s
  = (Ret false, set_cursor (skipWhitespaceIfAny (cursor (buf s))) s).
Proof.
  intros Hu Hws. unfold read_next_row, try_catch.
  erewrite bind_Ret by reflexivity. erewrite bind_Ret by reflexivity.
  simpl. rewrite (refill_skipWhitespaceIfAny (cursor (buf s))).
  rewrite (head_working_refilled _ (refill_skipWhitespaceIfAny _)).
  rewrite unread_skipWhitespaceIfAny, Hu, skip_spaces_terminator by done. simpl.
  rewrite orb_true_r. unfold bind, modify, ret. simpl.
  unfold set_cursor, with_buf, on_cursor. simpl.
  by rewrite refill_skipWhitespaceIfAny.
Qed.

(** X18: when what is left of the input, after whitespace, is a
    semicolon, [read] consumes the semicolon and the whitespace behind it
    and then asks [hasUnreadData], and nothing else: it returns the empty
    chunk when the buffer reports no unread data and raises
    CANNOT_READ_ALL_DATA when it reports some.  The bytes that follow the
    semicolon are not looked at otherwise; when only whitespace follows,
    nothing is unread and the empty chunk is returned.  (The block may hold
    a row at least; in a reader that parses values, the templates have been
    flushed, as every [read] that returns leaves them.) *)
Theorem read_at_statement_terminator (settings : Settings) (s : ValuesBlockInputFormat)
    (ws rest : list ascii) :
  unread (cursor (buf s)) = ws ++ ";"%char :: rest ->
  skip_spaces ws = [] ->
  0 < max_block_size settings ->
  (forall j t, templates s !! j = Some (Some t) -> rows t = []) ->
  exists s',
    read settings s
    = ((if hasUnreadData (buf s') then Throw (exception CANNOT_READ_ALL_DATA)
        else Ret EmptyChunk), s')
    /\ unread (cursor (buf s')) = skip_spaces rest
    /\ checkpoint (buf s') = checkpoint (buf s)
    /\ templates s' = templates s
    /\ parser_type_for_column s' = parser_type_for_column s
    /\ (skip_spaces rest = [] -> read settings s = (Ret EmptyChunk, s')).
Proof.
  intros Hu Hws Hmax Htpl.
  assert (exists s1,
    (fun s => read_rows settings (max_block_size settings) 0
       (with_block_missing_values (fun _ => [])
         (with_columns (fun _ => replicate (num_columns settings) [])
            (snd ((if bool_decide (total_rows s = 0%N) then readPrefix else ret tt) s))))) s
    = (Ret 0, s1)
    /\ fst ((if bool_decide (total_rows s = 0%N) then readPrefix else ret tt) s) = Ret tt
    /\ unread (cursor (buf s1)) = ";"%char :: rest
    /\ checkpoint (buf s1) = checkpoint (buf s)
    /\ templates s1 = templates s
    /\ parser_type_for_column s1 = parser_type_for_column s
    /\ columns s1 = replicate (num_columns settings) [])
    as (s1 & Hrows & Hpre & Hu1 & Hk1 & Ht1 & Hp1 & Hc1).
  { destruct (max_block_size settings) as [|n]; [lia|]. cbv beta. simpl read_rows.
    remember (with_block_missing_values _ _) as s0 eqn:Es0.
    assert (unread (cursor (buf s0)) = ws ++ ";"%char :: rest
            /\ checkpoint (buf s0) = checkpoint (buf s)
            /\ templates s0 = templates s
            /\ parser_type_for_column s0 = parser_type_for_column s
            /\ columns s0 = replicate (num_columns settings) []
            /\ fst ((if bool_decide (total_rows s = 0%N) then readPrefix else ret tt) s) = Ret tt)
      as (Hu0 & Hk0 & Ht0 & Hp0 & Hc0 & Hf0).
    { subst s0. case_bool_decide; simpl; [|done].
      rewrite (skipBOMIfExists_terminator _ ws rest) by done. done. }
    clear Es0.
    eexists. erewrite bind_Ret by (by eapply read_next_row_terminator).
    split; [reflexivity|]. split; [done|]. simpl.
    rewrite unread_skipWhitespaceIfAny, Hu0, skip_spaces_terminator by done. done. }
  cbv beta in Hrows.
  set (s2 := with_approx_bytes_read_for_chunk
              (bytes (cursor (buf s1))
               - bytes (cursor (buf (with_block_missing_values (fun _ => [])
                   (with_columns (fun _ => replicate (num_columns settings) [])
                     (snd ((if bool_decide (total_rows s = 0%N) then readPrefix else ret tt) s)))))))
              s1).
  destruct (readSuffix_spec s2 rest Hu1) as (c & Hc & Hsuffix).
  change (checkpoint (buf s2)) with (checkpoint (buf s1)) in Hsuffix.
  assert (read settings s
          = ((if hasUnreadData (mkPeekable c (checkpoint (buf s1)))
              then Throw (exception CANNOT_READ_ALL_DATA) else Ret EmptyChunk),
             set_cursor c s2)) as Hread.
  { unfold read. erewrite bind_Ret by reflexivity.
    destruct ((if bool_decide (total_rows s = 0%N) then readPrefix else ret tt) s)
      as [o0 s0] eqn:E0. simpl in Hpre. subst o0.
    erewrite (bind_Ret _ _ s) by exact E0.
    erewrite bind_Ret by reflexivity. erewrite bind_Ret by reflexivity.
    erewrite bind_Ret by reflexivity.
    erewrite bind_Ret by exact Hrows.
    erewrite bind_Ret by reflexivity. erewrite bind_Ret by reflexivity.
    simpl in s2, Hsuffix |- *. fold s2.
    destruct (need_only_count settings).
    - unfold bind. rewrite Hsuffix. by case_match.
    - erewrite bind_Ret by reflexivity.
      erewrite bind_Ret.
      2: { apply evaluate_templates_nothing. simpl. by rewrite Ht1. }
      erewrite bind_Ret by reflexivity. simpl. rewrite Hc1.
      destruct (num_columns settings); simpl; unfold bind; rewrite Hsuffix; by case_match. }
  exists (set_cursor c s2).
  split; [exact Hread|]. split; [exact Hc|]. split; [exact Hk1|].
  split; [exact Ht1|]. split; [exact Hp1|].
  intros Hr. rewrite Hread.
  destruct (hasUnreadData (mkPeekable c (checkpoint (buf s1)))) eqn:E; [|done].
  apply hasUnreadData_unread in E. simpl in E. by rewrite Hc, Hr in E.
Qed.

(** * Further properties of the code *)

(** ** The scan only moves forward *)

Lemma further_refl b : further b b.
Proof. exists []. simpl. split; [done | lia]. Qed.

Lemma further_trans b1 b2 b3 : further b1 b2 -> further b2 b3 -> further b1 b3.
Proof.
  intros (x & Hx & Hbx) (y & Hy & Hby). exists (x ++ y).
  rewrite Hx, Hy, length_app, <- app_assoc. split; [done | lia].
Qed.

Lemma further_drop b b' k :
  k <= length (unread b) -> unread b' = drop k (unread b) -> bytes b' = bytes b + k ->
  further b b'.
Proof.
  intros Hk Hu Hb. exists (take k (unread b)).
  rewrite Hu, take_drop, length_take. split; [done | lia].
Qed.

Lemma further_length b b' : further b b' -> length (unread b') <= length (unread b).
Proof. intros (x & -> & _). rewrite length_app. lia. Qed.

Lemma further_refill b : further b (refill b).
Proof. apply (further_drop _ _ 0); [lia | by rewrite unread_refill | rewrite bytes_refill; lia]. Qed.

Lemma skip_spaces_drop l : exists k, k <= length l /\ skip_spaces l = drop k l.
Proof.
  induction l as [|c l (k & Hk & IH)]; [by exists 0|]. simpl.
  destruct (isWhitespaceASCII c); [exists (S k); simpl; split; [lia | done] | exists 0; simpl; split; [lia | done]].
Qed.

Lemma further_skipWhitespaceIfAny b : further b (skipWhitespaceIfAny b).
Proof.
  destruct (skip_spaces_drop (unread b)) as (k & Hk & Hd).
  apply (further_drop _ _ k); [done | by rewrite unread_skipWhitespaceIfAny |].
  pose proof (bytes_skipWhitespaceIfAny b) as Hb. rewrite Hd, length_drop in Hb. lia.
Qed.

Lemma further_checkChar c b : further b (snd (checkChar c b)).
Proof.
  pose proof (checkChar_spec c b) as H.
  destruct (unread b) as [|x u] eqn:Hu; simpl in H.
  - rewrite H. apply further_refill.
  - destruct (Ascii.eqb x c).
    + destruct H as (_ & Hu' & Hb). apply (further_drop _ _ 1); rewrite ?Hu; simpl; [lia | done | lia].
    + rewrite H. apply further_refill.
Qed.

Lemma further_scan_body st : further (sbuf st) (sbuf (scan_body st)).
Proof.
  destruct (find_first_symbols (working (sbuf st))) as [n r] eqn:Hf.
  pose proof (scan_body_spec st n r Hf) as [_ H].
  destruct (find_first_symbols_spec _ _ _ Hf) as (Hr & Hn & Hnil & _).
  assert (length (working (sbuf st)) <= length (unread (sbuf st))) as Hw.
  { unfold unread. rewrite length_app. lia. }
  assert (r <> [] -> n < length (unread (sbuf st))) as Hlt.
  { intros Hne. destruct (decide (n < length (working (sbuf st)))) as [|Hge]; [lia|].
    rewrite Hr, drop_ge in Hne by lia. done. }
  destruct r as [|c r'].
  - destruct H as (Hu & Hb & _). apply (further_drop _ _ n); [lia | done | done].
  - specialize (Hlt ltac:(done)).
    destruct (Ascii.eqb c "\"%char).
    + destruct H as (Hu & Hb & _). case_bool_decide as Hd.
      * apply (further_drop _ _ (n + 1)); [lia | | lia].
        rewrite Hu, Hd. apply drop_ge.
        apply (f_equal length) in Hd. rewrite length_drop in Hd. simpl in Hd. lia.
      * apply (further_drop _ _ (n + 2)); [| done | lia].
        destruct (decide (n + 2 <= length (unread (sbuf st)))) as [|Hgt]; [done|].
        exfalso. apply Hd. apply drop_ge. lia.
    + destruct H as (Hu & Hb & _). apply (further_drop _ _ (n + 1)); [lia | done | lia].
Qed.

Lemma further_iter_scan_body k st : further (sbuf st) (sbuf (Nat.iter k scan_body st)).
Proof.
  induction k as [|k IH]; simpl; [apply further_refl|].
  eapply further_trans; [exact IH | apply further_scan_body].
Qed.

Lemma further_scan_loop fuel min_chunk_bytes chunk_begin st :
  further (sbuf st) (sbuf (scan_loop fuel min_chunk_bytes chunk_begin st)).
Proof.
  revert st. induction fuel as [|fuel IH]; intros st; simpl; [apply further_refl|].
  destruct (scan_continue min_chunk_bytes chunk_begin st); [|apply further_refl].
  eapply further_trans; [apply further_scan_body | apply IH].
Qed.

(** X1: [skipToNextRow] only moves forward over its input: the bytes left
    unread are the end of the bytes that were unread, and [count()] has
    grown by exactly the number of bytes in between.  When it returns true
    and [min_chunk_bytes] or [balance] is not zero, the scan has consumed at
    least one byte after the leading whitespace. *)
Theorem skipToNextRow_further (buf : ReadBuffer) (min_chunk_bytes : nat) (balance : Z) :
  let result := skipToNextRow buf min_chunk_bytes balance in
  further buf (snd result)
  /\ (fst result = true -> 0 < min_chunk_bytes \/ balance <> 0%Z ->
      length (unread (snd result)) < length (skip_spaces (unread buf))).
Proof.
  unfold skipToNextRow. cbv zeta.
  set (start := refill (skipWhitespaceIfAny buf)).
  assert (further buf start) as Hstart.
  { eapply further_trans; [apply further_skipWhitespaceIfAny | apply further_refill]. }
  assert (unread start = skip_spaces (unread buf)) as Hustart.
  { unfold start. by rewrite unread_refill, unread_skipWhitespaceIfAny. }
  destruct (at_eof start || bool_decide (head (working start) = Some ";"%char)) eqn:Hstop;
    cbn [fst snd]; [split; [done | discriminate]|].
  apply orb_false_iff in Hstop as [Heof _].
  set (st := scan_loop (scan_fuel start) min_chunk_bytes (bytes start)
               (mkScan start balance false)).
  pose proof (further_checkChar ","%char (sbuf st)) as Hcomma.
  unfold skip_comma.
  split.
  - eapply further_trans; [exact Hstart|]. eapply further_trans; [|exact Hcomma].
    apply (further_scan_loop _ _ _ (mkScan start balance false)).
  - intros _ Hgo. rewrite <- Hustart.
    apply further_length in Hcomma.
    enough (length (unread (sbuf st)) < length (unread start)) by lia.
    unfold st, scan_fuel. simpl.
    assert (scan_continue min_chunk_bytes (bytes start) (mkScan start balance false) = true)
      as ->.
    { unfold scan_continue. simpl. rewrite Heof. simpl.
      destruct Hgo as [Hmin | Hbal].
      - apply orb_true_iff. right. apply Nat.ltb_lt. lia.
      - apply orb_true_iff. left. apply negb_true_iff. by apply Z.eqb_neq. }
    pose proof (further_length _ _
                  (further_scan_loop (length (unread start)) min_chunk_bytes (bytes start)
                     (scan_body (mkScan start balance false)))) as Hrest.
    pose proof (scan_body_progress (mkScan start balance false)) as Hfirst. simpl in Hfirst.
    assert (working start <> []) as Hw.
    { unfold at_eof in Heof. by destruct (working start). }
    specialize (Hfirst Hw). lia.
Qed.

(** ** Nulls in complex types *)

Lemma IDataType_nested_ind (P : IDataType -> Prop) :
  P DataTypeUInt64 -> P DataTypeInt64 -> P DataTypeString ->
  (forall t, P t -> P (DataTypeNullable t)) ->
  (forall t, P t -> P (DataTypeLowCardinality t)) ->
  (forall t, P t -> P (DataTypeArray t)) ->
  (forall ts, Forall P ts -> P (DataTypeTuple ts)) ->
  (forall k v, P k -> P v -> P (DataTypeMap k v)) ->
  forall t, P t.
Proof.
  intros H1 H2 H3 H4 H5 H6 H7 H8. fix IH 1. intros [| | |t|t|t|ts|k v].
  - exact H1.
  - exact H2.
  - exact H3.
  - apply H4, IH.
  - apply H5, IH.
  - apply H6, IH.
  - apply H7. induction ts as [|t ts IHts]; constructor; [apply IH | exact IHts].
  - apply H8; apply IH.
Qed.

(** The replacement keeps a null a null and a value a value. *)
Lemma tryToReplaceNull_isNull data_type value value' :
  tryToReplaceNullFieldsInComplexTypesWithDefaultValues data_type value = Ret value' ->
  isNull value' = isNull value.
Proof.
  destruct data_type, value; simpl; try (by intros [= <-]).
  - destruct (isNullable data_type); [by intros [= <-]|].
    match goal with |- context [match ?g with Ret _ => _ | Throw _ => _ end] => destruct g end;
      by intros [= <-].
  - case_bool_decide; [done|].
    match goal with |- context [match ?g with Ret _ => _ | Throw _ => _ end] => destruct g end;
      by intros [= <-].
  - match goal with |- context [match ?g with Ret _ => _ | Throw _ => _ end] => destruct g end;
      by intros [= <-].
Qed.

Lemma null_or_allowed_replaced t v v' :
  tryToReplaceNullFieldsInComplexTypesWithDefaultValues t
    (if isNull v && negb (isNullable t) then getDefault t else v) = Ret v' ->
  null_or_allowed t v' = true.
Proof.
  intros Hf. apply tryToReplaceNull_isNull in Hf.
  unfold null_or_allowed. rewrite Hf.
  destruct (isNullable t); [by rewrite orb_true_r|].
  destruct (isNull v) eqn:Hv; simpl; [|by rewrite Hv].
  by destruct (isNull (getDefault t)).
Qed.

(** X2: when [tryToReplaceNullFieldsInComplexTypesWithDefaultValues]
    returns, the value it returns satisfies [nulls_allowed]: wherever the
    function descends (into the elements of a tuple value under a tuple
    type, the elements of an array value under an array type whose element
    type is not Nullable, the keys and values of a map value under a map
    type), a null stands only where the type of that place is Nullable or
    has a null as its default, and the same holds inside each such
    element, key and value.  Nothing is said where the function does not
    descend: a value of another shape than its type, and the elements of
    an array whose element type is Nullable, come back as they are, nulls
    included. *)
Theorem tryToReplaceNull_nulls_allowed (data_type : IDataType) (value value' : Field) :
  tryToReplaceNullFieldsInComplexTypesWithDefaultValues data_type value = Ret value' ->
  nulls_allowed data_type value' = true.
Proof.
  revert value value'.
  induction data_type as [| | |t IH|t IH|t IH|ts IH|k v IHk IHv] using IDataType_nested_ind;
    intros value value'; destruct value; simpl; try (by intros [= <-]).
  - (* Array *)
    destruct (isNullable t) eqn:Hn; [by intros [= <-]; simpl; fold (isNullable t); rewrite ?Hn|].
    match goal with |- context [match ?g xs with Ret _ => _ | Throw _ => _ end] => set (go := g) end.
    destruct (go xs) as [ys|] eqn:Hgo; [|done]. intros [= <-]. simpl. fold (isNullable t). rewrite ?Hn. simpl.
    revert ys Hgo. induction xs as [|x xs IHxs]; intros ys; simpl; [by intros [= <-]|].
    destruct (tryToReplaceNullFieldsInComplexTypesWithDefaultValues t _) as [x'|] eqn:Hx; [|done].
    destruct (go xs) as [ys'|] eqn:Hys; [|done]. intros [= <-]. simpl.
    rewrite (IHxs ys' eq_refl), (IH _ _ Hx), andb_true_r, andb_true_r.
    apply (null_or_allowed_replaced t x). by rewrite Hn, andb_true_r.
  - (* Tuple *)
    case_bool_decide as Hlen; [done|].
    match goal with |- context [match ?g ts xs with Ret _ => _ | Throw _ => _ end] =>
      set (go := g) end.
    destruct (go ts xs) as [ys|] eqn:Hgo; [|done]. intros [= <-]. simpl.
    clear Hlen. revert xs ys Hgo. induction IH as [|t ts IHt _ IHts]; intros xs ys; [done|].
    destruct xs as [|x xs]; simpl; [by intros [= <-]|].
    destruct (tryToReplaceNullFieldsInComplexTypesWithDefaultValues t _) as [x'|] eqn:Hx; [|done].
    destruct (go ts xs) as [ys'|] eqn:Hys; [|done]. intros [= <-].
    rewrite (IHts xs ys' Hys), (IHt _ _ Hx), andb_true_r, andb_true_r.
    by apply (null_or_allowed_replaced t x).
  - (* Map *)
    match goal with |- context [match ?g xs with Ret _ => _ | Throw _ => _ end] => set (go := g) end.
    destruct (go xs) as [ys|] eqn:Hgo; [|done]. intros [= <-]. simpl.
    revert ys Hgo. induction xs as [|x xs IHxs]; intros ys; simpl; [by intros [= <-]|].
    destruct x as [| | | | |[|ek [|ev more]]|]; try done.
    destruct (tryToReplaceNullFieldsInComplexTypesWithDefaultValues k _) as [k'|] eqn:Hk; [|done].
    destruct (tryToReplaceNullFieldsInComplexTypesWithDefaultValues v _) as [v'|] eqn:Hv; [|done].
    destruct (go xs) as [ys'|] eqn:Hys; [|done]. intros [= <-]. simpl.
    rewrite (IHxs ys' eq_refl), (IHk _ _ Hk), (IHv _ _ Hv), !andb_true_r.
    rewrite (null_or_allowed_replaced k ek k' Hk).
    by rewrite (null_or_allowed_replaced v ev v' Hv).
Qed.

Lemma forallb_cons_true {A} (f : A -> bool) x xs :
  forallb f (x :: xs) = true -> f x = true /\ forallb f xs = true.
Proof. simpl. by intros [? ?]%andb_true_iff. Qed.

Lemma null_free_not_null v : null_free v = true -> isNull v = false.
Proof. by destruct v. Qed.

(** X3: a value with no null in it is returned as it is: when
    [tryToReplaceNullFieldsInComplexTypesWithDefaultValues] returns, it has
    changed nothing but nulls. *)
Theorem tryToReplaceNull_null_free (data_type : IDataType) (value value' : Field) :
  null_free value = true ->
  tryToReplaceNullFieldsInComplexTypesWithDefaultValues data_type value = Ret value' ->
  value' = value.
Proof.
  revert value value'.
  induction data_type as [| | |t IH|t IH|t IH|ts IH|k v IHk IHv] using IDataType_nested_ind;
    intros value value'; destruct value; simpl; try (by intros _ [= <-]).
  - (* Array *)
    intros Hfree. destruct (isNullable t); [by intros [= <-]|].
    match goal with |- context [match ?g xs with Ret _ => _ | Throw _ => _ end] => set (go := g) end.
    destruct (go xs) as [ys|] eqn:Hgo; [|done]. intros [= <-]. f_equal.
    revert ys Hgo. induction xs as [|x xs IHxs]; intros ys; simpl; [by intros [= <-]|].
    apply forallb_cons_true in Hfree as [Hx Hxs].
    rewrite (null_free_not_null x Hx).
    destruct (tryToReplaceNullFieldsInComplexTypesWithDefaultValues t x) as [x'|] eqn:Hx'; [|done].
    destruct (go xs) as [ys'|] eqn:Hys; [|done]. intros [= <-].
    by rewrite (IHxs Hxs ys' eq_refl), (IH _ _ Hx Hx').
  - (* Tuple *)
    intros Hfree. case_bool_decide as Hlen; [done|].
    match goal with |- context [match ?g ts xs with Ret _ => _ | Throw _ => _ end] =>
      set (go := g) end.
    destruct (go ts xs) as [ys|] eqn:Hgo; [|done]. intros [= <-]. f_equal.
    revert xs ys Hfree Hlen Hgo. induction IH as [|t ts IHt _ IHts]; intros xs ys Hfree Hlen.
    { destruct xs; [|done]. simpl. by intros [= <-]. }
    destruct xs as [|x xs]; [done|]. simpl.
    apply forallb_cons_true in Hfree as [Hx Hxs].
    rewrite (null_free_not_null x Hx). simpl.
    destruct (tryToReplaceNullFieldsInComplexTypesWithDefaultValues t x) as [x'|] eqn:Hx'; [|done].
    destruct (go ts xs) as [ys'|] eqn:Hys; [|done]. intros [= <-].
    rewrite (IHts xs ys' Hxs ltac:(simpl in Hlen; lia) Hys). by rewrite (IHt _ _ Hx Hx').
  - (* Map *)
    intros Hfree.
    match goal with |- context [match ?g xs with Ret _ => _ | Throw _ => _ end] => set (go := g) end.
    destruct (go xs) as [ys|] eqn:Hgo; [|done]. intros [= <-]. f_equal.
    revert ys Hgo. induction xs as [|x xs IHxs]; intros ys; simpl; [by intros [= <-]|].
    apply forallb_cons_true in Hfree as [Hx Hxs].
    destruct x as [| | | | |[|ek [|ev more]]|]; try done.
    simpl in Hx. apply andb_true_iff in Hx as [Hek [Hev _]%andb_true_iff].
    rewrite (null_free_not_null ek Hek), (null_free_not_null ev Hev). simpl.
    destruct (tryToReplaceNullFieldsInComplexTypesWithDefaultValues k ek) as [k'|] eqn:Hk; [|done].
    destruct (tryToReplaceNullFieldsInComplexTypesWithDefaultValues v ev) as [v'|] eqn:Hv; [|done].
    destruct (go xs) as [ys'|] eqn:Hys; [|done]. intros [= <-].
    by rewrite (IHxs Hxs ys' eq_refl), (IHk _ _ Hek Hk), (IHv _ _ Hev Hv).
Qed.

(** ** The streaming parser on a literal *)

(** X4: in a column in [Streaming], a cell that is not the [DEFAULT] marker
    and that the literal deserializer reads, followed by the column's
    delimiter, is read by the deserializer alone: its value is appended to
    the column, the delimiter is consumed, the column stays in [Streaming]
    and no parser, template or evaluator is called.  The cell's bit in the
    missing mask is set exactly when the null-as-default deserializer
    reports that it put a default in place of the value. *)
Theorem read_column_literal (settings : Settings) (column_idx row_num : nat)
    (s : ValuesBlockInputFormat) (c1 c2 : ReadBuffer) (value : Field) (read : bool)
    (remaining : list ascii) :
  parser_type column_idx s = Streaming ->
  checkStringByFirstCharacterAndAssertTheRestCaseInsensitive DEFAULT
    (skipWhitespaceIfAny (cursor (buf s))) = (Ret false, c1) ->
  (if null_as_default settings
      && negb (isNullableOrLowCardinalityNullable (column_type settings column_idx))
   then deserializeNullAsDefaultOrNestedTextQuoted (column_type settings column_idx) c1
        = (Ret (value, read), c2)
   else deserializeTextQuoted (column_type settings column_idx) c1 = (Ret value, c2)
        /\ read = true) ->
  delimiter_after (bool_decide (column_idx + 1 = num_columns settings)) (unread c2)
    = Some remaining ->
  exists c,
    let s' := with_buf (fun _ => mkPeekable c None)
                (with_block_missing_values
                   (if read then fun m => m else setBit column_idx row_num)
                   (with_columns (alter (fun col => col ++ [value]) column_idx)
                      (log (EvDeserialize column_idx) s))) in
    read_column settings column_idx row_num s = (Ret tt, s')
    /\ unread c = remaining
    /\ trace s' = trace s ++ [EvDeserialize column_idx]
    /\ parser_type_for_column s' = parser_type_for_column s
    /\ templates s' = templates s
    /\ (column_idx < length (columns s) ->
        column column_idx s' = column column_idx s ++ [value]).
Proof.
  intros Hp Hc1 Hread Hd.
  set (s1 := with_columns (alter (fun col => col ++ [value]) column_idx)
               (set_cursor c2
                  (log (EvDeserialize column_idx)
                     (set_cursor c1 (with_buf setCheckpoint
                                       (with_buf (on_cursor skipWhitespaceIfAny) s)))))).
  assert (read_literal settings column_idx
            (with_buf setCheckpoint (with_buf (on_cursor skipWhitespaceIfAny) s))
          = (Ret read, s1)) as Hlit.
  { unfold read_literal. erewrite bind_Ret.
    2: { unfold on_buf. simpl. rewrite Hc1. reflexivity. }
    cbv iota beta. erewrite bind_Ret by reflexivity.
    destruct (null_as_default settings
              && negb (isNullableOrLowCardinalityNullable (column_type settings column_idx))).
    - erewrite bind_Ret.
      2: { unfold on_buf. simpl. rewrite Hread. reflexivity. }
      erewrite bind_Ret by reflexivity. reflexivity.
    - destruct Hread as [Hread ->]. erewrite bind_Ret.
      2: { unfold on_buf. simpl. rewrite Hread. reflexivity. }
      erewrite bind_Ret by reflexivity. reflexivity. }
  pose proof (checkDelimiterAfterValue_spec settings column_idx
                (with_buf (on_cursor skipWhitespaceIfAny) s1)) as Hdel.
  assert (unread (cursor (buf (with_buf (on_cursor skipWhitespaceIfAny) s1)))
          = skip_spaces (unread c2)) as Hu2.
  { simpl. by rewrite unread_skipWhitespaceIfAny. }
  assert (forall l last, delimiter_after last (skip_spaces l) = delimiter_after last l) as Hidem.
  { intros l last. unfold delimiter_after. by rewrite skip_spaces_idemp. }
  rewrite Hu2, Hidem, Hd in Hdel. destruct Hdel as (c & Hrun & Hc).
  exists c. cbv zeta. split; [|split; [done|split; [done|split; [done|split; [done|]]]]].
  - unfold read_column. erewrite bind_Ret by reflexivity.
    unfold with_checkpoint, parse_value. erewrite bind_Ret.
    2: { erewrite bind_Ret by reflexivity.
         rewrite bool_decide_eq_true_2 by done.
         unfold tryReadValue. rewrite Hlit.
         unfold assert_delimiter. erewrite bind_Ret by reflexivity.
         unfold assertDelimiterAfterValue. erewrite bind_Ret by exact Hrun.
         reflexivity. }
    by destruct read.
  - intros Hlen. unfold column. simpl. by apply column_alter.
Qed.

(** ** Tokens of the row *)

Lemma retokenize_frame s :
  exists c it,
    snd (retokenize s) = with_token_iterator (Some it) (set_cursor c s)
    /\ (forall c0, checkpoint (buf s) = Some c0 -> c = c0)
    /\ (fst (retokenize s) = Ret tt /\ isError (current it) = false /\ isEnd (current it) = false
        \/ fst (retokenize s) = Throw (exception SYNTAX_ERROR)).
Proof.
  destruct s as [[cur chk] ? ? ? ? ? ? ? ? ? ? ? ? ?]. unfold retokenize. run.
  destruct chk as [c0|]; simpl.
  - eexists _, _. split; [|split].
    + case_match; reflexivity.
    + by intros ? [= <-].
    + case_match eqn:E; [by right|left]. apply orb_false_iff in E as [? ?]. done.
  - eexists _, _. split; [|split].
    + case_match; reflexivity.
    + done.
    + case_match eqn:E; [by right|left]. apply orb_false_iff in E as [? ?]. done.
Qed.

Lemma readUntilTheEndOfRowAndReTokenize_frame column_idx s o s' :
  readUntilTheEndOfRowAndReTokenize column_idx s = (o, s') ->
  exists c it,
    s' = with_token_iterator (Some it) (set_cursor c s)
    /\ (c = cursor (buf s) \/ forall c0, checkpoint (buf s) = Some c0 -> c = c0)
    /\ (o = Ret tt /\ isError (current it) = false /\ isEnd (current it) = false
        \/ o = Throw (exception SYNTAX_ERROR)
           /\ forall c0, checkpoint (buf s) = Some c0 -> c = c0).
Proof.
  assert (forall s0 : ValuesBlockInputFormat,
            buf s0 = buf s ->
            (forall c it, with_token_iterator (Some it) (set_cursor c s0)
                          = with_token_iterator (Some it) (set_cursor c s)) ->
            retokenize s0 = (o, s') ->
            exists c it,
              s' = with_token_iterator (Some it) (set_cursor c s)
              /\ (c = cursor (buf s) \/ forall c0, checkpoint (buf s) = Some c0 -> c = c0)
              /\ (o = Ret tt /\ isError (current it) = false /\ isEnd (current it) = false
                  \/ o = Throw (exception SYNTAX_ERROR)
                     /\ forall c0, checkpoint (buf s) = Some c0 -> c = c0)) as Hre.
  { intros s0 Hb Hs0 Hrun. destruct (retokenize_frame s0) as (c & it & Hs & Hc & Ho).
    rewrite Hrun in Hs, Ho. simpl in Hs, Ho.
    rewrite Hb in Hc. exists c, it. rewrite Hs, Hs0. split; [done|]. split; [by right|].
    destruct Ho as [?|?]; [by left | by right]. }
  unfold readUntilTheEndOfRowAndReTokenize. unfold bind at 1, get at 1.
  destruct (token_iterator s) as [it|] eqn:Hit; [|by apply Hre].
  destruct (token_memory_valid (buf s) (current it)); [|by apply Hre].
  unfold bind at 1, modify at 1.
  set (it' := mkTokenIterator _ _).
  destruct (negb (isError (current it')) && negb (isEnd (current it'))) eqn:Hok.
  - intros [= <- <-]. exists (cursor (buf s)), it'. split; [|split].
    + destruct s as [[cur chk] ? ? ? ? ? ? ? ? ? ? ? ? ?]. reflexivity.
    + by left.
    + left. apply andb_true_iff in Hok as [?%negb_true_iff ?%negb_true_iff]. done.
  - apply Hre; [done|]. intros c it0. reflexivity.
Qed.

(** X5: [readUntilTheEndOfRowAndReTokenize], called under a checkpoint,
    changes nothing but the token iterator and the position of the buffer,
    and never moves the buffer forward: the position afterwards is the one
    before (the tokens of the row are reused) or the checkpoint (the row was
    tokenized again).  When it returns, the current token is neither an
    error nor the end of the stream; when it raises, the exception is
    SYNTAX_ERROR and the buffer is at the checkpoint. *)
Theorem readUntilTheEndOfRowAndReTokenize_position (column_idx : nat)
    (s : ValuesBlockInputFormat) (c0 : ReadBuffer) :
  checkpoint (buf s) = Some c0 ->
  let r := readUntilTheEndOfRowAndReTokenize column_idx s in
  (exists it c, snd r = with_token_iterator (Some it) (set_cursor c s)
                /\ (c = cursor (buf s) \/ c = c0))
  /\ (fst r = Ret tt ->
      isError (current_token (snd r)) = false /\ isEnd (current_token (snd r)) = false)
  /\ (forall e, fst r = Throw e ->
                e = exception SYNTAX_ERROR /\ cursor (buf (snd r)) = c0).
Proof.
  intros Hc0. cbv zeta.
  destruct (readUntilTheEndOfRowAndReTokenize column_idx s) as [o s'] eqn:Hrun.
  destruct (readUntilTheEndOfRowAndReTokenize_frame column_idx s o s' Hrun)
    as (c & it & -> & Hc & Ho).
  simpl. split; [|split].
  - exists it, c. split; [done|]. destruct Hc as [?|Hc]; [by left | right; by apply Hc].
  - intros ->. destruct Ho as [(_ & ? & ?)|[Ho _]]; done.
  - intros e ->. destruct Ho as [(Ho & _)|[Ho Hc']]; [done|].
    injection Ho as <-. split; [done|]. by apply Hc'.
Qed.

(** ** A row that matches the template *)

(** X6: in [tryParseExpressionUsingTemplate], when the row matches the
    column's template, the row's literals join the rows accumulated in the
    template, the counter of rows parsed with templates is incremented and
    true is returned; nothing is appended to the column and nothing is
    evaluated, the only collaborator called being the template's
    [parseExpression]. *)
Theorem tryParseExpressionUsingTemplate_match (settings : Settings) (column_idx : nat)
    (s s1 : ValuesBlockInputFormat) (t : ConstantExpressionTemplate) (b : Binding)
    (c : ReadBuffer) (it' : TokenIterator) :
  readUntilTheEndOfRowAndReTokenize column_idx s = (Ret tt, s1) ->
  template_of column_idx s1 = Some t ->
  template_parseExpression (structure t) (cursor (buf s1)) (iterator s1)
    = (Ret (Some b), c, it') ->
  let matched := mkTemplate (structure t) (rows t ++ [b]) in
  let s' := with_rows_parsed_using_template (incr_counter column_idx)
              (with_token_iterator (Some it')
                 (with_templates (<[column_idx := Some matched]>)
                    (set_cursor c (log (EvTemplateParse column_idx) s1)))) in
  tryParseExpressionUsingTemplate settings column_idx s = (Ret true, s')
  /\ columns s' = columns s
  /\ block_missing_values s' = block_missing_values s
  /\ templates s' = <[column_idx := Some matched]> (templates s)
  /\ rows_parsed_using_template s'
     = alter size_t_incr column_idx (rows_parsed_using_template s)
  /\ trace s' = trace s ++ [EvTemplateParse column_idx].
Proof.
  intros Hre Ht Hm. cbv zeta.
  destruct (readUntilTheEndOfRowAndReTokenize_frame column_idx s _ _ Hre) as (c1 & it1 & Hs & _).
  split; [|by rewrite Hs].
  unfold tryParseExpressionUsingTemplate. erewrite bind_Ret by exact Hre.
  erewrite bind_Ret by reflexivity.
  erewrite bind_Ret.
  2: { unfold template_parse_ref, template_parse. rewrite Ht. simpl.
       rewrite Hm. reflexivity. }
  cbv iota. erewrite bind_Ret by reflexivity. reflexivity.
Qed.

(** ** Parser types and templates *)

Lemma column_in_kept idx p t s s' :
  parser_type_for_column s !! idx = Some p -> templates s !! idx = Some t ->
  parser_type_for_column s' = parser_type_for_column s -> templates s' = templates s ->
  column_in idx p t s s'.
Proof.
  intros Hp Ht Hp' Ht'. split; [rewrite Hp' | rewrite Ht']; symmetry; by apply list_insert_id.
Qed.

Lemma column_in_trans idx p1 t1 p2 t2 s s1 s2 :
  column_in idx p1 t1 s s1 -> column_in idx p2 t2 s1 s2 -> column_in idx p2 t2 s s2.
Proof.
  intros [Hp1 Ht1] [Hp2 Ht2]. split.
  - by rewrite Hp2, Hp1, list_insert_insert_eq.
  - by rewrite Ht2, Ht1, list_insert_insert_eq.
Qed.

Lemma column_in_lookup idx p t s s' :
  column_in idx p t s s' ->
  idx < length (parser_type_for_column s) -> idx < length (templates s) ->
  parser_type idx s' = p /\ template_of idx s' = t
  /\ parser_type_for_column s' !! idx = Some p /\ templates s' !! idx = Some t.
Proof.
  intros [Hp Ht] Hlp Hlt. unfold parser_type, template_of.
  by rewrite Hp, Ht, !list_lookup_insert_eq.
Qed.

Lemma column_in_other idx p t s s' j :
  column_in idx p t s s' -> j <> idx ->
  parser_type j s' = parser_type j s /\ template_of j s' = template_of j s.
Proof.
  intros [Hp Ht] Hj. unfold parser_type, template_of.
  by rewrite Hp, Ht, !list_lookup_insert_ne.
Qed.

Lemma column_in_length idx p t s s' :
  column_in idx p t s s' ->
  length (parser_type_for_column s') = length (parser_type_for_column s)
  /\ length (templates s') = length (templates s).
Proof. intros [Hp Ht]. by rewrite Hp, Ht, !length_insert. Qed.

Lemma checkDelimiterAfterValue_cursor settings column_idx s :
  exists o c, checkDelimiterAfterValue settings column_idx s = (Ret o, set_cursor c s).
Proof.
  pose proof (checkDelimiterAfterValue_spec settings column_idx s) as H.
  destruct (delimiter_after _ _); destruct H as (c & H); [destruct H as [H _]|]; eauto.
Qed.

Lemma parse_with_delimiter_types settings idx s o s' :
  parse_with_delimiter settings idx s = (o, s') ->
  parser_type_for_column s' = parser_type_for_column s /\ templates s' = templates s.
Proof.
  unfold parse_with_delimiter. unfold bind at 1.
  destruct (readUntilTheEndOfRowAndReTokenize idx s) as [[[]|e] s1] eqn:E.
  2: { intros [= <- <-].
       by destruct (readUntilTheEndOfRowAndReTokenize_frame _ _ _ _ E) as (c & it & -> & _). }
  destruct (readUntilTheEndOfRowAndReTokenize_frame _ _ _ _ E) as (c & it & -> & _).
  run. intros H. repeat case_match; simplify_eq/=; done.
Qed.

Lemma probe_streaming_types settings idx ast s o s' :
  probe_streaming settings idx ast s = (o, s') ->
  templates s' = templates s
  /\ (o = Ret true /\ parser_type_for_column s' = <[idx := Streaming]> (parser_type_for_column s)
      \/ o <> Ret true /\ parser_type_for_column s' = parser_type_for_column s).
Proof.
  unfold probe_streaming. unfold bind at 1, get.
  destruct (bool_decide (parser_type idx s ≠ Streaming) && isLiteral ast).
  2: { intros [= <- <-]. split; [done|]. by right. }
  unfold bind at 1. unfold bind at 1. unfold modify at 1. unfold on_buf at 1.
  simpl.
  destruct (deserializeTextQuoted (column_type settings idx) (cursor (buf s)))
    as [[v|e] c1]; simpl.
  - unfold bind at 1. unfold skip_whitespace, modify at 1.
    match goal with
    | |- context [checkDelimiterAfterValue settings idx ?x] =>
        destruct (checkDelimiterAfterValue_cursor settings idx x) as (ok & c & ->)
    end.
    destruct ok; run; intros [= <- <-]; (split; [done|]); [by left | by right].
  - destruct (negb (isParseError (code e)) || bool_decide (code e = ARGUMENT_OUT_OF_BOUND));
      run; intros [= <- <-]; (split; [done|]); by right.
Qed.

Lemma shouldDeduceNewTemplate_types settings idx s :
  let s' := snd (shouldDeduceNewTemplate settings idx s) in
  parser_type_for_column s' = parser_type_for_column s /\ templates s' = templates s
  /\ exists b, fst (shouldDeduceNewTemplate settings idx s) = Ret b.
Proof. unfold shouldDeduceNewTemplate. run. repeat case_match; eauto. Qed.

Lemma template_parse_types idx it s o it' s' :
  template_parse idx it s = (o, it', s') ->
  parser_type_for_column s' = parser_type_for_column s
  /\ (o = Ret true /\ (exists t, templates s' = <[idx := Some t]> (templates s))
      \/ o <> Ret true /\ templates s' = templates s).
Proof.
  unfold template_parse. destruct (template_of idx s) as [t|]; simpl.
  2: { intros [= <- <- <-]. split; [done|]. by right. }
  destruct (template_parseExpression (structure t) (cursor (buf s)) it) as [[[[b|]|e] c] it0];
    simpl; intros [= <- <- <-]; (split; [done|]); [left; eauto | by right | by right].
Qed.

Lemma deduce_attempt_types settings idx ast ti_start s o s' :
  deduce_attempt settings idx ast ti_start s = (o, s') ->
  (o = Ret true
   /\ parser_type_for_column s' = <[idx := BatchTemplate]> (parser_type_for_column s)
   /\ exists t, templates s' = <[idx := Some t]> (templates s))
  \/ (o <> Ret true
      /\ parser_type_for_column s' = parser_type_for_column s
      /\ (templates s' = templates s \/ exists t, templates s' = <[idx := t]> (templates s))).
Proof.
  unfold deduce_attempt, get_template_structure, template_parse_copy. run.
  destruct (getFromCacheOrConstruct _ _ _ _ _ _ _) as [[[st found]|e] cache]; simpl.
  2: { intros [= <- <-]. right. split; [done|]. split; [done|]. by left. }
  destruct found; simpl;
    match goal with
    | |- context [template_parse idx ti_start ?x] =>
        destruct (template_parse idx ti_start x) as [[m it'] s2] eqn:E;
        apply template_parse_types in E as (Hp & Ht)
    end; simpl in *;
    (destruct m as [[]|e]; simpl; intros [= <- <-];
     [ left; split; [done|]; simpl; split; [by rewrite Hp|];
       destruct Ht as [(_ & t & ->)|[? _]]; [|done];
       exists t; by rewrite list_insert_insert_eq
     | right; split; [done|]; split; [done|]; right;
       destruct Ht as [(? & _)|[_ ->]]; [done|]; eauto
     | right; split; [done|]; split; [done|]; right;
       destruct Ht as [(? & _)|[_ ->]]; [done|]; eauto ]).
Qed.

Lemma deduce_template_types settings idx ast ti_start s r s' :
  deduce_template settings idx ast ti_start s = (Ret r, s') ->
  (r = true
   /\ parser_type_for_column s' = <[idx := BatchTemplate]> (parser_type_for_column s)
   /\ exists t, templates s' = <[idx := Some t]> (templates s))
  \/ (r = false /\ interpret_expressions settings = true
      /\ parser_type_for_column s' = parser_type_for_column s
      /\ templates s' = <[idx := None]> (templates s)).
Proof.
  unfold deduce_template. unfold bind at 1, get.
  case_bool_decide; [done|].
  unfold bind at 1, try_all.
  destruct (deduce_attempt settings idx ast ti_start s) as [attempt s1] eqn:E.
  apply deduce_attempt_types in E as [(-> & Hp & Ht)|(Hno & Hp & Ht)].
  { intros [= <- <-]. by left. }
  assert (<[idx := None]> (templates s1) = <[idx := None]> (templates s)) as Hnone.
  { destruct Ht as [->|[t ->]]; [done | by rewrite list_insert_insert_eq]. }
  destruct attempt as [[]|e]; [done| |]; run;
    destruct (interpret_expressions settings); simpl; intros [= <- <-]; right; done.
Qed.

Lemma evaluate_single_types settings idx ast s o s' :
  evaluate_single settings idx ast s = (o, s') ->
  parser_type_for_column s' = parser_type_for_column s /\ templates s' = templates s
  /\ (forall r, o = Ret r -> interpret_expressions settings = true).
Proof.
  unfold evaluate_single. destruct (interpret_expressions settings); run; intros H.
  - repeat case_match; simplify_eq/=; done.
  - by simplify_eq/=.
Qed.

(** The ways in which [parseExpression] returns: the value was read again
    by the streaming parser, the row was parsed with a new template, or the
    expression was evaluated by itself. *)
Lemma parseExpression_column_in settings idx s r s' :
  templates s !! idx = Some None ->
  idx < length (parser_type_for_column s) ->
  parseExpression settings idx s = (Ret r, s') ->
  exists p t,
    column_in idx p t s s'
    /\ (p = BatchTemplate <-> is_Some t)
    /\ (p = SingleExpressionEvaluation -> interpret_expressions settings = true)
    /\ (p <> SingleExpressionEvaluation -> r = true).
Proof.
  intros Hnone Hlen. unfold parseExpression. unfold bind at 1.
  destruct (parse_with_delimiter settings idx s) as [[[ast ti]|e] s1] eqn:E1; [|done].
  apply parse_with_delimiter_types in E1 as [Hp1 Ht1].
  unfold bind at 1.
  destruct (probe_streaming settings idx ast s1) as [[streaming|e] s2] eqn:E2; [|done].
  apply probe_streaming_types in E2 as [Ht2 Hp2].
  destruct streaming.
  { intros [= <- <-]. exists Streaming, None.
    destruct Hp2 as [[_ Hp2]|[? _]]; [|done].
    split; [|split; [|done]].
    - split; [by rewrite Hp2, Hp1|]. rewrite Ht2, Ht1. symmetry. by apply list_insert_id.
    - split; [done | by intros []]. }
  destruct Hp2 as [[? _]|[_ Hp2]]; [done|].
  unfold bind at 1. unfold set_parser_type, modify at 1. unfold bind at 1.
  match goal with
  | |- context [shouldDeduceNewTemplate settings idx ?x] =>
      pose proof (shouldDeduceNewTemplate_types settings idx x) as (Hp3 & Ht3 & [deduce Hd]);
      destruct (shouldDeduceNewTemplate settings idx x) as [o3 s3]
  end; simpl in Hp3, Ht3, Hd. subst o3.
  assert (parser_type_for_column s3
          = <[idx := SingleExpressionEvaluation]> (parser_type_for_column s)) as Hp3'.
  { by rewrite Hp3, Hp2, Hp1. }
  assert (templates s3 = templates s) as Ht3' by by rewrite Ht3, Ht2, Ht1.
  unfold bind at 1.
  destruct ((if deduce then deduce_template settings idx ast ti else ret false) s3)
    as [[templated|e] s4] eqn:E4; [|done].
  assert (templated = true
          /\ parser_type_for_column s4 = <[idx := BatchTemplate]> (parser_type_for_column s)
          /\ (exists t, templates s4 = <[idx := Some t]> (templates s))
          \/ templated = false
             /\ parser_type_for_column s4
                = <[idx := SingleExpressionEvaluation]> (parser_type_for_column s)
             /\ templates s4 = <[idx := None]> (templates s)) as H4.
  { destruct deduce.
    - apply deduce_template_types in E4 as [(-> & Hp4 & t & Ht4)|(-> & _ & Hp4 & Ht4)].
      + left. split; [done|]. split; [by rewrite Hp4, Hp3', list_insert_insert_eq|].
        exists t. by rewrite Ht4, Ht3'.
      + right. split; [done|]. split; [by rewrite Hp4|]. by rewrite Ht4, Ht3'.
    - injection E4 as <- <-. right. split; [done|]. split; [done|].
      rewrite Ht3'. symmetry. by apply list_insert_id. }
  destruct H4 as [(-> & Hp4 & t & Ht4)|(-> & Hp4 & Ht4)].
  - intros [= <- <-]. exists BatchTemplate, (Some t). split; [done|].
    split; [split; [by eexists | done]|]. split; done.
  - intros E5. apply evaluate_single_types in E5 as (Hp5 & Ht5 & Hint).
    exists SingleExpressionEvaluation, None. split; [split; congruence|].
    split; [split; [done | by intros []]|]. split; [intros _; by eapply Hint | done].
Qed.

Lemma read_literal_types settings idx s o s' :
  read_literal settings idx s = (o, s') ->
  parser_type_for_column s' = parser_type_for_column s /\ templates s' = templates s.
Proof. unfold read_literal. run. intros H. repeat case_match; simplify_eq/=; done. Qed.

Lemma assert_delimiter_types settings idx s o s' :
  assert_delimiter settings idx s = (o, s') ->
  parser_type_for_column s' = parser_type_for_column s /\ templates s' = templates s.
Proof.
  unfold assert_delimiter, assertDelimiterAfterValue. unfold bind at 1.
  unfold skip_whitespace, modify at 1. unfold bind at 1.
  match goal with
  | |- context [checkDelimiterAfterValue settings idx ?x] =>
      destruct (checkDelimiterAfterValue_cursor settings idx x) as (ok & c & ->)
  end.
  destruct ok; run; by intros [= <- <-].
Qed.

Lemma tryReadValue_column_in settings idx s r s' :
  templates s !! idx = Some None ->
  parser_type_for_column s !! idx = Some Streaming ->
  tryReadValue settings idx s = (Ret r, s') ->
  exists p t, column_in idx p t s s' /\ (p = BatchTemplate <-> is_Some t).
Proof.
  intros Hnone Hstr. unfold tryReadValue.
  assert (forall s1 rb e,
            parser_type_for_column s1 = parser_type_for_column s ->
            templates s1 = templates s ->
            tryReadValue_catch settings idx rb e s1 = (Ret r, s') ->
            exists p t, column_in idx p t s s' /\ (p = BatchTemplate <-> is_Some t)) as Hcatch.
  { intros s1 rb e Hp1 Ht1. unfold tryReadValue_catch.
    destruct (negb (isParseError (code e)) || bool_decide (code e = ARGUMENT_OUT_OF_BOUND));
      [done|].
    unfold bind at 1.
    destruct ((if rb then column_popBack idx 1 else ret tt) s1) as [o2 s2] eqn:E2.
    assert (o2 = Ret tt /\ parser_type_for_column s2 = parser_type_for_column s
            /\ templates s2 = templates s) as (-> & Hp2 & Ht2).
    { destruct rb; run; by simplify_eq/=. }
    unfold bind at 1, rollback, modify at 1.
    intros E3. apply parseExpression_column_in in E3 as (p & t & [Hp Ht] & Hiff & _).
    - exists p, t. split; [|done]. split; simpl in *; congruence.
    - simpl. by rewrite Ht2.
    - simpl. rewrite Hp2. by eapply lookup_lt_Some. }
  destruct (read_literal settings idx s) as [[read|e] s1] eqn:E1;
    apply read_literal_types in E1 as [Hp1 Ht1]; [|by eapply Hcatch].
  destruct (assert_delimiter settings idx s1) as [[[]|e] s2] eqn:E2;
    apply assert_delimiter_types in E2 as [Hp2 Ht2].
  - intros [= <- <-]. exists Streaming, None. split; [|split; [done | by intros []]].
    apply column_in_kept; congruence.
  - apply Hcatch; congruence.
Qed.

Lemma evaluate_into_column_types settings idx s o s' :
  evaluate_into_column settings idx s = (o, s') ->
  parser_type_for_column s' = parser_type_for_column s
  /\ (templates s' = templates s \/ exists t, templates s' = <[idx := t]> (templates s)).
Proof.
  unfold evaluate_into_column, evaluateAll. run. intros H.
  repeat case_match; simplify_eq/=; eauto.
Qed.

Lemma tryParseExpressionUsingTemplate_column_in settings idx s r s' :
  parser_type_for_column s !! idx = Some BatchTemplate ->
  idx < length (templates s) ->
  tryParseExpressionUsingTemplate settings idx s = (Ret r, s') ->
  exists p t, column_in idx p t s s' /\ (p = BatchTemplate <-> is_Some t).
Proof.
  intros Hbatch Hlen. unfold tryParseExpressionUsingTemplate. unfold bind at 1.
  destruct (readUntilTheEndOfRowAndReTokenize idx s) as [[[]|e] s1] eqn:E1; [|done].
  destruct (readUntilTheEndOfRowAndReTokenize_frame _ _ _ _ E1) as (c & it & -> & _).
  unfold bind at 1, get at 1. unfold bind at 1, template_parse_ref.
  match goal with
  | |- context [template_parse idx ?i ?x] =>
      destruct (template_parse idx i x) as [[m it'] s2] eqn:E2;
      apply template_parse_types in E2 as (Hp2 & Ht2)
  end; simpl in Hp2, Ht2.
  destruct m as [[]|e]; [| |done].
  - run. intros [= <- <-]. destruct Ht2 as [(_ & t & Ht2)|[? _]]; [|done].
    exists BatchTemplate, (Some t). split; [|split; [by eexists | done]].
    split; simpl; [|done]. rewrite Hp2. symmetry. by apply list_insert_id.
  - destruct Ht2 as [(? & _)|[_ Ht2]]; [done|].
    unfold bind at 1.
    match goal with
    | |- context [evaluate_into_column settings idx ?x] =>
        destruct (evaluate_into_column settings idx x) as [[[]|e] s3] eqn:E3;
        apply evaluate_into_column_types in E3 as (Hp3 & Ht3)
    end; [|done]. simpl in Hp3, Ht3.
    unfold bind at 1, set_template, modify at 1.
    unfold bind at 1, rollback, modify at 1.
    unfold bind at 1, modify at 1.
    assert (<[idx := None]> (templates s3) = <[idx := None]> (templates s)) as Hnone.
    { destruct Ht3 as [->|[t ->]]; rewrite ?list_insert_insert_eq; by rewrite Ht2. }
    intros E4. apply parseExpression_column_in in E4 as (p & t & [Hp Ht] & Hiff & _).
    + exists p, t. split; [|done]. simpl in Hp, Ht. split.
      * rewrite Hp, Hp3, Hp2. done.
      * by rewrite Ht, Hnone, list_insert_insert_eq.
    + simpl. rewrite Hnone. by apply list_lookup_insert_eq.
    + simpl. rewrite Hp3, Hp2. by eapply lookup_lt_Some.
Qed.

Lemma parse_value_column_in settings idx s r s' :
  idx < length (parser_type_for_column s) ->
  idx < length (templates s) ->
  template_in_use idx s ->
  parse_value settings idx s = (Ret r, s') ->
  exists p t, column_in idx p t s s' /\ (p = BatchTemplate <-> is_Some t).
Proof.
  intros Hlp Hlt Huse. unfold parse_value. unfold bind at 1, get at 1.
  destruct (lookup_lt_is_Some_2 _ _ Hlp) as [p Hp].
  destruct (lookup_lt_is_Some_2 _ _ Hlt) as [t Ht].
  unfold template_in_use, parser_type, template_of in Huse. rewrite Hp, Ht in Huse.
  simpl in Huse.
  unfold parser_type. rewrite Hp. simpl.
  assert (p <> BatchTemplate -> t = None) as Hnone.
  { intros Hne. destruct t; [|done]. exfalso. apply Hne, Huse. by eexists. }
  repeat case_bool_decide; subst.
  - apply tryReadValue_column_in; [|done]. by rewrite Ht, Hnone.
  - by apply tryParseExpressionUsingTemplate_column_in.
  - intros E. apply parseExpression_column_in in E as (p' & t' & ? & ? & _); [eauto| |done].
    by rewrite Ht, Hnone.
Qed.

Lemma read_column_column_in settings idx row s s' :
  idx < length (parser_type_for_column s) ->
  idx < length (templates s) ->
  template_in_use idx s ->
  read_column settings idx row s = (Ret tt, s') ->
  exists p t, column_in idx p t s s' /\ (p = BatchTemplate <-> is_Some t).
Proof.
  intros Hlp Hlt Huse. unfold read_column. unfold bind at 1, skip_whitespace, modify at 1.
  unfold with_checkpoint. unfold bind at 1.
  match goal with
  | |- context [parse_value settings idx ?x] =>
      destruct (parse_value settings idx x) as [[r|e] s1] eqn:E1
  end; [|done].
  apply parse_value_column_in in E1 as (p & t & [Hp Ht] & Hiff); [|done..].
  intros H. exists p, t. split; [|done].
  destruct r; run; simplify_eq/=; done.
Qed.

Lemma template_in_use_column_in idx p t s s' j :
  column_in idx p t s s' -> (p = BatchTemplate <-> is_Some t) ->
  idx < length (parser_type_for_column s) -> idx < length (templates s) ->
  template_in_use j s -> template_in_use j s'.
Proof.
  intros Hin Hiff Hlp Hlt Huse. unfold template_in_use.
  destruct (decide (j = idx)) as [->|Hne].
  - by destruct (column_in_lookup _ _ _ _ _ Hin Hlp Hlt) as (-> & -> & _).
  - by destruct (column_in_other _ _ _ _ _ _ Hin Hne) as [-> ->].
Qed.

Lemma read_columns_template_in_use settings n idx row s s' :
  idx + n <= length (parser_type_for_column s) ->
  idx + n <= length (templates s) ->
  (forall j, template_in_use j s) ->
  read_columns settings n idx row s = (Ret tt, s') ->
  (forall j, template_in_use j s')
  /\ length (parser_type_for_column s') = length (parser_type_for_column s)
  /\ length (templates s') = length (templates s).
Proof.
  revert idx s. induction n as [|n IH]; intros idx s Hlp Hlt Huse; simpl.
  { by intros [= <-]. }
  unfold bind at 1.
  destruct (read_column settings idx row s) as [[[]|e] s1] eqn:E1; [|done].
  apply read_column_column_in in E1 as (p & t & Hin & Hiff); [|lia|lia|done].
  destruct (column_in_length _ _ _ _ _ Hin) as [Hl1 Hl2].
  intros E2. apply IH in E2 as (Huse' & Hl1' & Hl2'); [|lia|lia|].
  - split; [done|]. split; congruence.
  - intros j. eapply template_in_use_column_in; [done|done|lia|lia|done].
Qed.

(** X7: a row that is read without an exception keeps every column in
    [BatchTemplate] exactly when the column has a template, so that the
    next row of a column in [BatchTemplate] finds the template it is matched
    against, and a column that starts to deduce a template has none yet.
    The invariant holds of a new reader and, after an exception,
    [resetParser] restores it. *)
Theorem readRow_template_in_use (settings : Settings) (row_num : nat)
    (s s' : ValuesBlockInputFormat) :
  length (parser_type_for_column s) = num_columns settings ->
  length (templates s) = num_columns settings ->
  (forall column_idx, template_in_use column_idx s) ->
  readRow settings row_num s = (Ret tt, s') ->
  (forall column_idx, template_in_use column_idx s')
  /\ length (parser_type_for_column s') = num_columns settings
  /\ length (templates s') = num_columns settings.
Proof.
  intros Hlp Hlt Huse. unfold readRow.
  unfold bind at 1, modify at 1. unfold bind at 1.
  match goal with
  | |- context [on_buf ?f ?x] => destruct (on_buf f x) as [[[]|e] s1] eqn:E1
  end; [|done].
  assert (parser_type_for_column s1 = parser_type_for_column s
          /\ templates s1 = templates s) as [Hp1 Ht1].
  { unfold on_buf in E1. simpl in E1. case_match. by simplify_eq/=. }
  unfold bind at 1.
  destruct (read_columns settings (num_columns settings) 0 row_num s1) as [[[]|e] s2] eqn:E2;
    [|done].
  apply read_columns_template_in_use in E2 as (Huse2 & Hl1 & Hl2).
  - run. intros [= <-]. simpl. split; [done|]. split; congruence.
  - rewrite Hp1. simpl. lia.
  - rewrite Ht1. simpl. lia.
  - intros j. specialize (Huse j). unfold template_in_use, parser_type, template_of in *.
    by rewrite Hp1, Ht1.
Qed.

(** ** Without the interpreter of expressions *)

Lemma without_evaluation_same s s' : trace s' = trace s -> without_evaluation s s'.
Proof. intros H. exists []. by rewrite app_nil_r. Qed.

Lemma without_evaluation_trans s1 s2 s3 :
  without_evaluation s1 s2 -> without_evaluation s2 s3 -> without_evaluation s1 s3.
Proof.
  intros (e1 & H1 & F1) (e2 & H2 & F2). exists (e1 ++ e2).
  rewrite H2, H1, app_assoc, forallb_app, F1, F2. done.
Qed.

Lemma without_evaluation_log e s s' :
  is_evaluation e = false -> trace s' = trace s ++ [e] -> without_evaluation s s'.
Proof. intros He H. exists [e]. simpl. by rewrite He. Qed.

Ltac calls :=
  first [ by apply without_evaluation_same
        | by eapply without_evaluation_log
        | eexists; split; [simpl; rewrite <- ?app_assoc; reflexivity | done] ].

Lemma parse_with_delimiter_calls settings idx s o s' :
  parse_with_delimiter settings idx s = (o, s') -> without_evaluation s s'.
Proof.
  unfold parse_with_delimiter. unfold bind at 1.
  destruct (readUntilTheEndOfRowAndReTokenize idx s) as [[[]|e] s1] eqn:E;
    destruct (readUntilTheEndOfRowAndReTokenize_frame _ _ _ _ E) as (c & it & -> & _).
  2: { intros [= <- <-]. calls. }
  run. intros H. repeat case_match; simplify_eq/=; calls.
Qed.

Lemma probe_streaming_calls settings idx ast s o s' :
  probe_streaming settings idx ast s = (o, s') -> without_evaluation s s'.
Proof.
  unfold probe_streaming. unfold bind at 1, get.
  destruct (bool_decide (parser_type idx s ≠ Streaming) && isLiteral ast).
  2: { intros [= <- <-]. calls. }
  unfold bind at 1. unfold bind at 1. unfold modify at 1. unfold on_buf at 1.
  simpl.
  destruct (deserializeTextQuoted (column_type settings idx) (cursor (buf s)))
    as [[v|e] c1]; simpl.
  - unfold bind at 1. unfold skip_whitespace, modify at 1.
    match goal with
    | |- context [checkDelimiterAfterValue settings idx ?x] =>
        destruct (checkDelimiterAfterValue_cursor settings idx x) as (ok & c & ->)
    end.
    destruct ok; run; intros [= <- <-]; calls.
  - destruct (negb (isParseError (code e)) || bool_decide (code e = ARGUMENT_OUT_OF_BOUND));
      run; intros [= <- <-]; calls.
Qed.

Lemma template_parse_calls idx it s o it' s' :
  template_parse idx it s = (o, it', s') -> without_evaluation s s'.
Proof.
  unfold template_parse. destruct (template_of idx s) as [t|]; simpl.
  2: { intros [= <- <- <-]. calls. }
  destruct (template_parseExpression (structure t) (cursor (buf s)) it) as [[[[b|]|e] c] it0];
    simpl; intros [= <- <- <-]; calls.
Qed.

Lemma deduce_attempt_calls settings idx ast ti_start s o s' :
  deduce_attempt settings idx ast ti_start s = (o, s') -> without_evaluation s s'.
Proof.
  unfold deduce_attempt, get_template_structure, template_parse_copy. run.
  destruct (getFromCacheOrConstruct _ _ _ _ _ _ _) as [[[st found]|e] cache]; simpl.
  2: { intros [= <- <-]. calls. }
  destruct found; simpl;
    match goal with
    | |- context [template_parse idx ti_start ?x] =>
        destruct (template_parse idx ti_start x) as [[m it'] s2] eqn:E;
        apply template_parse_calls in E
    end; simpl in *;
    (assert (without_evaluation s s2) as H2
       by (eapply without_evaluation_trans; [|exact E]; calls));
    destruct m as [[]|e]; simpl; intros [= <- <-];
    (eapply without_evaluation_trans; [exact H2|]; calls).
Qed.

Lemma deduce_template_calls settings idx ast ti_start s o s' :
  deduce_template settings idx ast ti_start s = (o, s') -> without_evaluation s s'.
Proof.
  unfold deduce_template. unfold bind at 1, get.
  case_bool_decide; [intros [= <- <-]; calls|].
  unfold bind at 1, try_all.
  destruct (deduce_attempt settings idx ast ti_start s) as [attempt s1] eqn:E.
  apply deduce_attempt_calls in E.
  destruct attempt as [[]|e]; run; destruct (interpret_expressions settings); simpl;
    intros [= <- <-]; (eapply without_evaluation_trans; [exact E|]); calls.
Qed.

Lemma parseExpression_calls settings idx s o s' :
  interpret_expressions settings = false ->
  parseExpression settings idx s = (o, s') -> without_evaluation s s'.
Proof.
  intros Hint. unfold parseExpression. unfold bind at 1.
  destruct (parse_with_delimiter settings idx s) as [[[ast ti]|e] s1] eqn:E1;
    apply parse_with_delimiter_calls in E1.
  2: { by intros [= <- <-]. }
  unfold bind at 1.
  destruct (probe_streaming settings idx ast s1) as [[streaming|e] s2] eqn:E2;
    apply probe_streaming_calls in E2.
  2: { intros [= <- <-]. by eapply without_evaluation_trans. }
  assert (without_evaluation s s2) as H2 by by eapply without_evaluation_trans.
  destruct streaming; [by intros [= <- <-]|].
  unfold bind at 1. unfold set_parser_type, modify at 1. unfold bind at 1.
  match goal with
  | |- context [shouldDeduceNewTemplate settings idx ?x] =>
      pose proof (shouldDeduceNewTemplate_same settings idx x) as (_ & _ & He);
      pose proof (shouldDeduceNewTemplate_types settings idx x) as (_ & _ & [deduce Hd]);
      destruct (shouldDeduceNewTemplate settings idx x) as [o3 s3]
  end; simpl in He, Hd. subst o3.
  assert (without_evaluation s s3) as H3.
  { eapply without_evaluation_trans; [exact H2|]. calls. }
  unfold bind at 1.
  destruct ((if deduce then deduce_template settings idx ast ti else ret false) s3)
    as [[templated|e] s4] eqn:E4.
  - assert (without_evaluation s s4) as H4.
    { eapply without_evaluation_trans; [exact H3|].
      destruct deduce; [by eapply deduce_template_calls|]. injection E4 as <- <-. calls. }
    destruct templated; [by intros [= <- <-]|].
    unfold evaluate_single. rewrite Hint. simpl. by intros [= <- <-].
  - intros [= <- <-]. eapply without_evaluation_trans; [exact H3|].
    destruct deduce; [by eapply deduce_template_calls | done].
Qed.

Lemma read_literal_calls settings idx s o s' :
  read_literal settings idx s = (o, s') -> without_evaluation s s'.
Proof. unfold read_literal. run. intros H. repeat case_match; simplify_eq/=; calls. Qed.

Lemma assert_delimiter_calls settings idx s o s' :
  assert_delimiter settings idx s = (o, s') -> without_evaluation s s'.
Proof.
  unfold assert_delimiter, assertDelimiterAfterValue. unfold bind at 1.
  unfold skip_whitespace, modify at 1. unfold bind at 1.
  match goal with
  | |- context [checkDelimiterAfterValue settings idx ?x] =>
      destruct (checkDelimiterAfterValue_cursor settings idx x) as (ok & c & ->)
  end.
  destruct ok; run; intros [= <- <-]; calls.
Qed.

Lemma tryReadValue_calls settings idx s o s' :
  interpret_expressions settings = false ->
  tryReadValue settings idx s = (o, s') -> without_evaluation s s'.
Proof.
  intros Hint. unfold tryReadValue.
  assert (forall s1 rb e,
            without_evaluation s s1 ->
            tryReadValue_catch settings idx rb e s1 = (o, s') ->
            without_evaluation s s') as Hcatch.
  { intros s1 rb e H1. unfold tryReadValue_catch.
    destruct (negb (isParseError (code e)) || bool_decide (code e = ARGUMENT_OUT_OF_BOUND)).
    { by intros [= <- <-]. }
    unfold bind at 1.
    destruct ((if rb then column_popBack idx 1 else ret tt) s1) as [o2 s2] eqn:E2.
    assert (o2 = Ret tt /\ trace s2 = trace s1) as (-> & Ht2).
    { destruct rb; run; by simplify_eq/=. }
    unfold bind at 1, rollback, modify at 1.
    intros E3. apply parseExpression_calls in E3; [|done].
    eapply without_evaluation_trans; [exact H1|].
    eapply without_evaluation_trans; [|exact E3]. calls. }
  destruct (read_literal settings idx s) as [[read|e] s1] eqn:E1;
    apply read_literal_calls in E1; [|by eapply Hcatch].
  destruct (assert_delimiter settings idx s1) as [[[]|e] s2] eqn:E2;
    apply assert_delimiter_calls in E2.
  - intros [= <- <-]. by eapply without_evaluation_trans.
  - apply Hcatch. by eapply without_evaluation_trans.
Qed.

Lemma evaluate_into_column_calls settings idx s o s' :
  evaluate_into_column settings idx s = (o, s') -> without_evaluation s s'.
Proof.
  unfold evaluate_into_column, evaluateAll. run. intros H.
  repeat case_match; simplify_eq/=; calls.
Qed.

Lemma tryParseExpressionUsingTemplate_calls settings idx s o s' :
  interpret_expressions settings = false ->
  tryParseExpressionUsingTemplate settings idx s = (o, s') -> without_evaluation s s'.
Proof.
  intros Hint. unfold tryParseExpressionUsingTemplate. unfold bind at 1.
  destruct (readUntilTheEndOfRowAndReTokenize idx s) as [[[]|e] s1] eqn:E1;
    destruct (readUntilTheEndOfRowAndReTokenize_frame _ _ _ _ E1) as (c & it & -> & _).
  2: { intros [= <- <-]. calls. }
  unfold bind at 1, get at 1. unfold bind at 1, template_parse_ref.
  match goal with
  | |- context [template_parse idx ?i ?x] =>
      destruct (template_parse idx i x) as [[m it'] s2] eqn:E2;
      apply template_parse_calls in E2
  end.
  assert (without_evaluation s s2) as H2.
  { eapply without_evaluation_trans; [|exact E2]. calls. }
  destruct m as [[]|e].
  - run. intros [= <- <-]. eapply without_evaluation_trans; [exact H2|]. calls.
  - unfold bind at 1.
    match goal with
    | |- context [evaluate_into_column settings idx ?x] =>
        destruct (evaluate_into_column settings idx x) as [[[]|e] s3] eqn:E3;
        apply evaluate_into_column_calls in E3
    end.
    2: { intros [= <- <-]. eapply without_evaluation_trans; [exact H2|].
         eapply without_evaluation_trans; [|exact E3]. calls. }
    unfold bind at 1, set_template, modify at 1.
    unfold bind at 1, rollback, modify at 1.
    unfold bind at 1, modify at 1.
    intros E4. apply parseExpression_calls in E4; [|done].
    eapply without_evaluation_trans; [exact H2|].
    eapply without_evaluation_trans; [|exact E4].
    eapply without_evaluation_trans; [|calls]. eapply without_evaluation_trans; [|exact E3].
    calls.
  - intros [= <- <-]. eapply without_evaluation_trans; [exact H2|]. calls.
Qed.

Lemma parse_value_calls settings idx s o s' :
  interpret_expressions settings = false ->
  parse_value settings idx s = (o, s') -> without_evaluation s s'.
Proof.
  intros Hint. unfold parse_value. unfold bind at 1, get at 1.
  repeat case_bool_decide.
  - by apply tryReadValue_calls.
  - by apply tryParseExpressionUsingTemplate_calls.
  - by apply parseExpression_calls.
Qed.

Lemma read_column_calls settings idx row s o s' :
  interpret_expressions settings = false ->
  read_column settings idx row s = (o, s') -> without_evaluation s s'.
Proof.
  intros Hint. unfold read_column. unfold bind at 1, skip_whitespace, modify at 1.
  unfold with_checkpoint. unfold bind at 1.
  match goal with
  | |- context [parse_value settings idx ?x] =>
      destruct (parse_value settings idx x) as [[r|e] s1] eqn:E1;
      (apply parse_value_calls in E1; [|exact Hint])
  end.
  - destruct r; run; intros [= <- <-];
      (eapply without_evaluation_trans; [|eapply without_evaluation_trans; [exact E1|]]); calls.
  - intros [= <- <-].
    (eapply without_evaluation_trans; [|eapply without_evaluation_trans; [exact E1|]]); calls.
Qed.

Lemma read_columns_calls settings n idx row s o s' :
  interpret_expressions settings = false ->
  read_columns settings n idx row s = (o, s') -> without_evaluation s s'.
Proof.
  intros Hint. revert idx s. induction n as [|n IH]; intros idx s; simpl.
  { intros [= <- <-]. calls. }
  unfold bind at 1.
  destruct (read_column settings idx row s) as [[[]|e] s1] eqn:E1;
    (apply read_column_calls in E1; [|done]).
  - intros E2%IH. by eapply without_evaluation_trans.
  - by intros [= <- <-].
Qed.

Lemma readRow_calls settings row s o s' :
  interpret_expressions settings = false ->
  readRow settings row s = (o, s') -> without_evaluation s s'.
Proof.
  intros Hint. unfold readRow.
  unfold bind at 1, modify at 1. unfold bind at 1.
  match goal with
  | |- context [on_buf ?f ?x] => destruct (on_buf f x) as [[[]|e] s1] eqn:E1
  end.
  2: { intros [= <- <-]. unfold on_buf in E1. simpl in E1. case_match. simplify_eq/=. calls. }
  assert (trace s1 = trace s) as Ht1.
  { unfold on_buf in E1. simpl in E1. case_match. by simplify_eq/=. }
  unfold bind at 1.
  destruct (read_columns settings (num_columns settings) 0 row s1) as [[[]|e] s2] eqn:E2;
    (apply read_columns_calls in E2; [|done]).
  - run. intros [= <- <-].
    eapply without_evaluation_trans; [|eapply without_evaluation_trans; [exact E2|]]; calls.
  - intros [= <- <-]. eapply without_evaluation_trans; [|exact E2]. calls.
Qed.

Lemma read_next_row_calls settings k s o s' :
  interpret_expressions settings = false ->
  read_next_row settings k s = (o, s') -> without_evaluation s s'.
Proof.
  intros Hint. unfold read_next_row, try_catch.
  match goal with
  | |- context [bind skip_whitespace ?k s] =>
      destruct (bind skip_whitespace k s) as [o1 s1] eqn:E1
  end.
  assert (without_evaluation s s1) as H1.
  { revert E1. unfold bind at 1, skip_whitespace, modify at 1. unfold bind at 1, get at 1.
    case_match.
    - run. intros [= <- <-]. calls.
    - unfold bind at 1. destruct (need_only_count settings).
      + run. intros [= <- <-]. calls.
      + match goal with
        | |- context [readRow settings k ?x] =>
            destruct (readRow settings k x) as [[[]|e] s2] eqn:E2;
            (apply readRow_calls in E2; [|done])
        end; run; intros [= <- <-];
          (eapply without_evaluation_trans; [|exact E2]); calls. }
  destruct o1 as [r|e].
  - by intros [= <- <-].
  - clear E1. run. destruct (isParseError (code e)); intros [= <- <-]; done.
Qed.

Lemma read_rows_calls settings n k s o s' :
  interpret_expressions settings = false ->
  read_rows settings n k s = (o, s') -> without_evaluation s s'.
Proof.
  intros Hint. revert k s. induction n as [|n IH]; intros k s; simpl.
  { intros [= <- <-]. calls. }
  unfold bind at 1.
  destruct (read_next_row settings k s) as [[more|e] s1] eqn:E1;
    (apply read_next_row_calls in E1; [|done]).
  - destruct more.
    + intros E2%IH. by eapply without_evaluation_trans.
    + by intros [= <- <-].
  - by intros [= <- <-].
Qed.

Lemma evaluate_templates_calls settings n i s o s' :
  evaluate_templates settings n i s = (o, s') -> without_evaluation s s'.
Proof.
  revert i s. induction n as [|n IH]; intros i s; simpl.
  { intros [= <- <-]. calls. }
  unfold bind at 1, get at 1. unfold bind at 1.
  match goal with
  | |- context [match ?m s with _ => _ end] => destruct (m s) as [[[]|e] s1] eqn:E1
  end.
  - assert (without_evaluation s s1) as H1.
    { destruct (template_of i s) as [t|]; [|injection E1 as <-; calls].
      case_bool_decide; [injection E1 as <-; calls|].
      by eapply evaluate_into_column_calls. }
    intros E2%IH. by eapply without_evaluation_trans.
  - intros [= <- <-].
    destruct (template_of i s) as [t|]; [|done].
    case_bool_decide; [done|]. by eapply evaluate_into_column_calls.
Qed.

Lemma readSuffix_calls s : trace (snd (readSuffix s)) = trace s.
Proof. unfold readSuffix. run. repeat case_match; done. Qed.

(** X8: with [interpret_expressions] off, [read] never has a single
    expression evaluated: whatever the input and the outcome, no call of
    [evaluateConstantExpression] is among the calls it makes. *)
Theorem read_without_interpreter (settings : Settings) (s : ValuesBlockInputFormat) :
  interpret_expressions settings = false ->
  exists calls,
    trace (snd (read settings s)) = trace s ++ calls
    /\ forall column_idx, EvEvaluate column_idx ∉ calls.
Proof.
  intros Hint.
  enough (without_evaluation s (snd (read settings s))) as (evs & He & Hall).
  { exists evs. split; [done|]. intros j Hj.
    rewrite forallb_forall in Hall. specialize (Hall (EvEvaluate j)).
    rewrite <- list_elem_of_In in Hall. by specialize (Hall Hj). }
  destruct (read settings s) as [o s'] eqn:E. simpl. revert E.
  unfold read. unfold bind at 1, get at 1. unfold bind at 1.
  match goal with
  | |- context [match ?m s with _ => _ end] => destruct (m s) as [o0 s0] eqn:E0
  end.
  assert (o0 = Ret tt /\ trace s0 = trace s) as (-> & Ht0).
  { case_bool_decide; unfold readPrefix in E0; run; by simplify_eq/=. }
  clear E0.
  unfold bind at 1, modify at 1. unfold bind at 1, modify at 1.
  unfold bind at 1, get at 1. unfold bind at 1.
  match goal with
  | |- context [read_rows settings ?n ?k ?x] =>
      destruct (read_rows settings n k x) as [[rows_in_block|e] s1] eqn:E1;
      (apply read_rows_calls in E1; [|done])
  end.
  2: { intros [= <- <-]. eapply without_evaluation_trans; [|exact E1]. calls. }
  assert (without_evaluation s s1) as H1.
  { eapply without_evaluation_trans; [|exact E1]. calls. }
  unfold bind at 1, get at 1. unfold bind at 1, modify at 1.
  destruct (need_only_count settings).
  - destruct (bool_decide (rows_in_block = 0)).
    + unfold bind at 1.
      match goal with
      | |- context [readSuffix ?x] =>
          pose proof (readSuffix_calls x) as Hs; destruct (readSuffix x) as [[[]|e] s2]
      end; simpl in Hs; run; intros [= <- <-];
        (eapply without_evaluation_trans; [exact H1|]); calls.
    + run. intros [= <- <-]. eapply without_evaluation_trans; [exact H1|]. calls.
  - unfold bind at 1, get at 1. unfold bind at 1.
    match goal with
    | |- context [evaluate_templates settings ?n ?i ?x] =>
        destruct (evaluate_templates settings n i x) as [[[]|e] s2] eqn:E2;
        apply evaluate_templates_calls in E2
    end.
    2: { intros [= <- <-]. eapply without_evaluation_trans; [exact H1|].
         eapply without_evaluation_trans; [|exact E2]. calls. }
    assert (without_evaluation s s2) as H2.
    { eapply without_evaluation_trans; [exact H1|].
      eapply without_evaluation_trans; [|exact E2]. calls. }
    unfold bind at 1, get at 1.
    destruct (columns s2) as [|[|v column0] rest].
    + unfold bind at 1.
      pose proof (readSuffix_calls s2) as Hs. destruct (readSuffix s2) as [[[]|e] s3].
      * run. intros [= <- <-]. eapply without_evaluation_trans; [exact H2|]. calls.
      * intros [= <- <-]. eapply without_evaluation_trans; [exact H2|]. calls.
    + unfold bind at 1.
      pose proof (readSuffix_calls s2) as Hs. destruct (readSuffix s2) as [[[]|e] s3].
      * run. intros [= <- <-]. eapply without_evaluation_trans; [exact H2|]. calls.
      * intros [= <- <-]. eapply without_evaluation_trans; [exact H2|]. calls.
    + run. by intros [= <- <-].
Qed.

(** X9: with [interpret_expressions] off, [parseExpression] returns only
    true, and only in two ways: the expression is a literal that the
    streaming parser reads after all, and the column is back in
    [Streaming]; or the row is parsed with the template deduced from the
    expression, and the column is in [BatchTemplate] with that template.
    Every other expression raises an exception. *)
Theorem parseExpression_without_interpreter (settings : Settings) (column_idx : nat)
    (s s' : ValuesBlockInputFormat) (read : bool) :
  interpret_expressions settings = false ->
  parseExpression settings column_idx s = (Ret read, s') ->
  read = true
  /\ (parser_type_for_column s' = <[column_idx := Streaming]> (parser_type_for_column s)
      /\ templates s' = templates s
      \/ parser_type_for_column s' = <[column_idx := BatchTemplate]> (parser_type_for_column s)
         /\ exists t, templates s' = <[column_idx := Some t]> (templates s)).
Proof.
  intros Hint. unfold parseExpression. unfold bind at 1.
  destruct (parse_with_delimiter settings column_idx s) as [[[ast ti]|e] s1] eqn:E1; [|done].
  apply parse_with_delimiter_types in E1 as [Hp1 Ht1].
  unfold bind at 1.
  destruct (probe_streaming settings column_idx ast s1) as [[streaming|e] s2] eqn:E2; [|done].
  apply probe_streaming_types in E2 as [Ht2 Hp2].
  destruct streaming.
  { intros [= <- <-]. destruct Hp2 as [[_ Hp2]|[? _]]; [|done].
    split; [done|]. left. split; congruence. }
  destruct Hp2 as [[? _]|[_ Hp2]]; [done|].
  unfold bind at 1. unfold set_parser_type, modify at 1. unfold bind at 1.
  match goal with
  | |- context [shouldDeduceNewTemplate settings column_idx ?x] =>
      pose proof (shouldDeduceNewTemplate_types settings column_idx x)
        as (Hp3 & Ht3 & [deduce Hd]);
      destruct (shouldDeduceNewTemplate settings column_idx x) as [o3 s3]
  end; simpl in Hp3, Ht3, Hd. subst o3.
  unfold bind at 1.
  assert (forall s4 o, evaluate_single settings column_idx ast s4 <> (Ret o, s')) as Hno.
  { intros s4 o. unfold evaluate_single. by rewrite Hint. }
  destruct deduce; [|by intros ?%Hno].
  destruct (deduce_template settings column_idx ast ti s3) as [[templated|e] s4] eqn:E4; [|done].
  apply deduce_template_types in E4 as [(-> & Hp4 & t & Ht4)|(_ & Hint' & _)]; [|congruence].
  intros [= <- <-]. split; [done|]. right. split.
  - by rewrite Hp4, Hp3, Hp2, Hp1, list_insert_insert_eq.
  - exists t. by rewrite Ht4, Ht3, Ht2, Ht1.
Qed.

(** ** Columns only grow *)

Lemma appends_refl idx s : appends idx s s.
Proof. by apply appends_none. Qed.

Lemma appends_trans idx s1 s2 s3 : appends idx s1 s2 -> appends idx s2 s3 -> appends idx s1 s3.
Proof.
  intros [t1 H1] [t2 H2]. exists (t1 ++ t2). rewrite H2, H1, list_alter_alter_eq.
  apply list_alter_ext; [|done]. intros c _. simpl. by rewrite app_assoc.
Qed.

Lemma appends_columns idx s1 s2 s3 :
  appends idx s1 s2 -> columns s3 = columns s2 -> appends idx s1 s3.
Proof. intros [t H] H3. exists t. by rewrite H3. Qed.

Lemma appends_prefix idx s s' : appends idx s s' -> Forall2 prefix (columns s) (columns s').
Proof.
  intros [t ->]. generalize (columns s). intros l. revert idx.
  induction l as [|c l IH]; intros [|idx]; simpl; constructor;
    first [ by exists t | done | apply IH ].
Qed.

Lemma tryReadValue_appends settings idx s o s' :
  tryReadValue settings idx s = (o, s') -> appends idx s s'.
Proof.
  unfold tryReadValue.
  pose proof (read_literal_spec settings idx s) as Hlit.
  destruct (read_literal settings idx s) as [[read|e] s1].
  - destruct Hlit as [[v Hv] _].
    pose proof (assertDelimiterAfterValue_frame settings idx s1) as [Hc _].
    destruct (assert_delimiter settings idx s1) as [[[]|e] s2]; simpl in Hc.
    + intros [= <- <-]. apply (appends_one _ v). by rewrite Hc.
    + unfold tryReadValue_catch.
      destruct (negb (isParseError (code e)) || bool_decide (code e = ARGUMENT_OUT_OF_BOUND)).
      { intros [= <- <-]. apply (appends_one _ v). by rewrite Hc. }
      run. intros H%parseExpression_step. destruct H as [H _].
      eapply appends_trans; [|exact H]. apply appends_none. simpl.
      rewrite Hc, Hv. apply alter_popBack_insert.
  - destruct Hlit as [Hc _]. unfold tryReadValue_catch.
    destruct (negb (isParseError (code e)) || bool_decide (code e = ARGUMENT_OUT_OF_BOUND)).
    { intros [= <- <-]. by apply appends_none. }
    run. intros H%parseExpression_step. destruct H as [H _].
    eapply appends_trans; [|exact H]. by apply appends_none.
Qed.

Lemma evaluate_into_column_appends settings idx s o s' :
  evaluate_into_column settings idx s = (o, s') -> appends idx s s'.
Proof.
  unfold evaluate_into_column. unfold bind at 1, get at 1.
  destruct (column idx s) as [|v c] eqn:Hcol.
  - unfold bind at 1.
    destruct (evaluateAll settings idx 0 s) as [[evaluated|e] s1] eqn:E.
    + assert (columns s1 = columns s) as Hc.
      { revert E. unfold evaluateAll. run. intros H. repeat case_match; simplify_eq/=; done. }
      run. intros [= <- <-]. exists evaluated. simpl. rewrite Hc.
      unfold column in Hcol.
      destruct (columns s !! idx) as [c0|] eqn:Hl; simpl in Hcol.
      * rewrite Hcol in Hl. by apply insert_as_alter with (y := []).
      * rewrite list_insert_ge by by apply lookup_ge_None.
        symmetry. etrans; [|apply (list_alter_id id); done].
        apply list_alter_ext; [|done]. intros x Hx. unfold IColumn in *. rewrite Hl in Hx. done.
    + intros [= <- <-]. apply appends_none.
      revert E. unfold evaluateAll. run. intros H. repeat case_match; simplify_eq/=; done.
  - unfold bind at 1.
    destruct (evaluateAll settings idx (length (v :: c)) s) as [[evaluated|e] s1] eqn:E.
    + assert (columns s1 = columns s) as Hc.
      { revert E. unfold evaluateAll. run. intros H. repeat case_match; simplify_eq/=; done. }
      run. intros [= <- <-]. exists evaluated. simpl. by rewrite Hc.
    + intros [= <- <-]. apply appends_none.
      revert E. unfold evaluateAll. run. intros H. repeat case_match; simplify_eq/=; done.
Qed.

Lemma tryParseExpressionUsingTemplate_appends settings idx s o s' :
  tryParseExpressionUsingTemplate settings idx s = (o, s') -> appends idx s s'.
Proof.
  unfold tryParseExpressionUsingTemplate. unfold bind at 1.
  destruct (readUntilTheEndOfRowAndReTokenize idx s) as [[[]|e] s1] eqn:E1;
    destruct (readUntilTheEndOfRowAndReTokenize_frame _ _ _ _ E1) as (c & it & -> & _).
  2: { intros [= <- <-]. by apply appends_none. }
  unfold bind at 1, get at 1. unfold bind at 1, template_parse_ref.
  match goal with
  | |- context [template_parse idx ?i ?x] =>
      pose proof (template_parse_same idx i x) as (Hc2 & _);
      destruct (template_parse idx i x) as [[m it'] s2]
  end. simpl in Hc2.
  destruct m as [[]|e].
  - run. intros [= <- <-]. by apply appends_none.
  - unfold bind at 1.
    match goal with
    | |- context [evaluate_into_column settings idx ?x] =>
        destruct (evaluate_into_column settings idx x) as [[[]|e] s3] eqn:E3;
        apply evaluate_into_column_appends in E3
    end.
    2: { intros [= <- <-]. destruct E3 as [t E3]. exists t. simpl in E3. by rewrite E3, Hc2. }
    run. intros H%parseExpression_step. destruct H as [H _].
    eapply appends_trans; [|exact H].
    destruct E3 as [t E3]. exists t. simpl in *. by rewrite E3, Hc2.
  - intros [= <- <-]. by apply appends_none.
Qed.

Lemma read_column_appends settings idx row s o s' :
  read_column settings idx row s = (o, s') -> appends idx s s'.
Proof.
  unfold read_column. unfold bind at 1, skip_whitespace, modify at 1.
  unfold with_checkpoint. unfold bind at 1.
  match goal with
  | |- context [parse_value settings idx ?x] =>
      destruct (parse_value settings idx x) as [[r|e] s1] eqn:E1
  end;
    (assert (appends idx s s1) as H1;
     [ revert E1; unfold parse_value; unfold bind at 1, get at 1;
       repeat case_bool_decide; intros E1;
       [ apply tryReadValue_appends in E1
       | apply tryParseExpressionUsingTemplate_appends in E1
       | apply parseExpression_step in E1 as [E1 _] ];
       destruct E1 as [t E1]; exists t; by rewrite E1 |]).
  - destruct r; run; intros [= <- <-]; by eapply appends_columns.
  - intros [= <- <-]. by eapply appends_columns.
Qed.

Lemma prefix_columns_trans (l1 l2 l3 : list IColumn) :
  Forall2 prefix l1 l2 -> Forall2 prefix l2 l3 -> Forall2 prefix l1 l3.
Proof.
  intros H12. revert l3. induction H12 as [|x y l1 l2 Hxy _ IH]; intros l3 H23.
  - by inversion H23.
  - inversion H23 as [|? z ? l3' Hyz H23']; subst. constructor; [|by apply IH].
    by etrans.
Qed.

Lemma prefix_columns_refl (l : list IColumn) : Forall2 prefix l l.
Proof. by apply Forall_Forall2_diag, Forall_forall. Qed.

Lemma read_columns_grow settings n idx row s o s' :
  read_columns settings n idx row s = (o, s') -> Forall2 prefix (columns s) (columns s').
Proof.
  revert idx s. induction n as [|n IH]; intros idx s; simpl.
  { intros [= <- <-]. apply prefix_columns_refl. }
  unfold bind at 1.
  destruct (read_column settings idx row s) as [[[]|e] s1] eqn:E1;
    apply read_column_appends, appends_prefix in E1.
  - intros E2%IH. by eapply prefix_columns_trans.
  - by intros [= <- <-].
Qed.

(** X10: whatever the row and whether it is read or raises an exception,
    [readRow] removes nothing from the columns: every column afterwards
    starts with the values it held before, and no column is added or
    dropped. *)
Theorem readRow_columns_grow (settings : Settings) (row_num : nat)
    (s : ValuesBlockInputFormat) :
  Forall2 prefix (columns s) (columns (snd (readRow settings row_num s))).
Proof.
  destruct (readRow settings row_num s) as [o s'] eqn:E. simpl. revert E.
  unfold readRow.
  unfold bind at 1, modify at 1. unfold bind at 1.
  match goal with
  | |- context [on_buf ?f ?x] => destruct (on_buf f x) as [[[]|e] s1] eqn:E1
  end.
  2: { intros [= <- <-]. unfold on_buf in E1. simpl in E1. case_match. simplify_eq/=.
       apply prefix_columns_refl. }
  assert (columns s1 = columns s) as Hc1.
  { unfold on_buf in E1. simpl in E1. case_match. by simplify_eq/=. }
  unfold bind at 1.
  destruct (read_columns settings (num_columns settings) 0 row_num s1) as [[[]|e] s2] eqn:E2;
    apply read_columns_grow in E2; rewrite Hc1 in E2.
  - run. by intros [= <- <-].
  - by intros [= <- <-].
Qed.

(** ** Counting rows *)

Lemma set_cursor_cursor s : set_cursor (cursor (buf s)) s = s.
Proof. by destruct s as [[? ?] ? ? ? ? ? ? ? ? ? ? ? ? ?]. Qed.

Lemma read_next_row_count settings k s :
  need_only_count settings = true ->
  exists more c, read_next_row settings k s = (Ret more, set_cursor c s).
Proof.
  intros Hcount. unfold read_next_row. run. rewrite Hcount.
  destruct (at_eof _ || bool_decide _); simpl; eexists _, _; reflexivity.
Qed.

Lemma read_rows_count settings n k s :
  need_only_count settings = true ->
  exists rows_in_block c,
    read_rows settings n k s = (Ret rows_in_block, set_cursor c s)
    /\ k <= rows_in_block <= k + n.
Proof.
  intros Hcount. revert k s. induction n as [|n IH]; intros k s; simpl.
  { exists k, (cursor (buf s)). rewrite set_cursor_cursor. split; [done | lia]. }
  unfold bind at 1.
  destruct (read_next_row_count settings k s Hcount) as (more & c & ->).
  destruct more.
  - destruct (IH (S k) (set_cursor c s)) as (m & c' & -> & Hm).
    exists m, c'. rewrite set_cursor_set_cursor. split; [done | lia].
  - exists k, c. split; [done | lia].
Qed.

Lemma readSuffix_cursor s :
  exists o c, readSuffix s = (o, set_cursor c s)
              /\ (o = Ret tt \/ o = Throw (exception CANNOT_READ_ALL_DATA)
                  \/ o = Throw (exception LOGICAL_ERROR)).
Proof.
  unfold readSuffix. run. repeat case_match; simpl; eexists _, _; (split; [reflexivity|]); eauto.
Qed.

(** X11: when only the rows are counted, [read] calls no deserializer, no
    parser, no template and no evaluator, and leaves the parser types and
    the templates as they were.  It returns the empty chunk or a count
    between one and [max_block_size], by which [total_rows] has grown;
    malformed rows are never reported, the only exceptions being the two of
    [readSuffix]. *)
Theorem read_need_only_count (settings : Settings) (s : ValuesBlockInputFormat) :
  need_only_count settings = true ->
  let r := read settings s in
  trace (snd r) = trace s
  /\ parser_type_for_column (snd r) = parser_type_for_column s
  /\ templates (snd r) = templates s
  /\ (fst r = Ret EmptyChunk /\ total_rows (snd r) = total_rows s
      \/ (exists n, fst r = Ret (ChunkForCount n)
                    /\ 0 < n <= max_block_size settings
                    /\ total_rows (snd r) = ((total_rows s + N.of_nat n) mod 2 ^ 64)%N)
      \/ (fst r = Throw (exception CANNOT_READ_ALL_DATA)
          \/ fst r = Throw (exception LOGICAL_ERROR))).
Proof.
  intros Hcount. cbv zeta.
  destruct (read settings s) as [o s'] eqn:E. simpl. revert E.
  unfold read. unfold bind at 1, get at 1. unfold bind at 1.
  match goal with
  | |- context [match ?m s with _ => _ end] =>
      assert (exists c0, m s = (Ret tt, set_cursor c0 s)) as (c0 & ->)
  end.
  { case_bool_decide; [by eexists|]. exists (cursor (buf s)). by rewrite set_cursor_cursor. }
  unfold bind at 1, modify at 1. unfold bind at 1, modify at 1.
  unfold bind at 1, get at 1. unfold bind at 1.
  match goal with
  | |- context [read_rows settings ?n ?k ?x] =>
      destruct (read_rows_count settings n k x Hcount) as (m & c1 & -> & Hm)
  end.
  unfold bind at 1, get at 1. unfold bind at 1, modify at 1. rewrite Hcount.
  case_bool_decide as Hz.
  - unfold bind at 1.
    match goal with
    | |- context [readSuffix ?x] =>
        destruct (readSuffix_cursor x) as (o' & c2 & -> & Ho)
    end.
    destruct Ho as [->|[->| ->]]; simpl; intros [= <- <-]; simpl;
      (split; [done|split; [done|split; [done|]]]);
      [left; done | right; right; left; done | right; right; right; done].
  - simpl. intros [= <- <-]. simpl. split; [done|]. split; [done|]. split; [done|].
    right. left. exists m. split; [done|]. split; [lia | done].
Qed.

(** ** The end of the input *)

Lemma skipBOMIfExists_blank b : skip_spaces (unread b) = [] -> skipBOMIfExists b = b.
Proof.
  intros Hu. unfold skipBOMIfExists, lookahead.
  rewrite bool_decide_eq_false_2; [done|].
  destruct (unread b) as [|x u]; [done|]. simpl. intros [= -> _]. done.
Qed.

Lemma readPrefix_blank s :
  skip_spaces (unread (cursor (buf s))) = [] -> readPrefix s = (Ret tt, s).
Proof.
  intros Hu. destruct s as [[cur chk] ? ? ? ? ? ? ? ? ? ? ? ? ?].
  unfold readPrefix, modify, with_buf, on_cursor. simpl in *.
  by rewrite skipBOMIfExists_blank.
Qed.

Lemma read_next_row_blank settings s k :
  skip_spaces (unread (cursor (buf s))) = [] ->
  read_next_row settings k s
  = (Ret false, set_cursor (skipWhitespaceIfAny (cursor (buf s))) s).
Proof.
  intros Hu. unfold read_next_row, try_catch.
  erewrite bind_Ret by reflexivity. erewrite bind_Ret by reflexivity.
  simpl. rewrite (refill_skipWhitespaceIfAny (cursor (buf s))).
  rewrite (at_eof_refilled _ (refill_skipWhitespaceIfAny _)).
  rewrite unread_skipWhitespaceIfAny, Hu. simpl.
  unfold bind, modify, ret. simpl.
  unfold set_cursor, with_buf, on_cursor. simpl.
  by rewrite refill_skipWhitespaceIfAny.
Qed.

Lemma readSuffix_eof s :
  unread (cursor (buf s)) = [] ->
  readSuffix s = (Ret tt, set_cursor (refill (cursor (buf s))) s).
Proof.
  intros Hu. unfold readSuffix. erewrite bind_Ret by reflexivity.
  unfold peek. rewrite head_working_refill, Hu. simpl.
  erewrite bind_Ret by reflexivity. erewrite bind_Ret by reflexivity.
  simpl. rewrite (at_eof_refilled _ (refill_refill _)), unread_refill, Hu. simpl.
  destruct (hasUnreadData _) eqn:E; [|done].
  apply hasUnreadData_unread in E. simpl in E. by rewrite unread_refill in E.
Qed.

(** X12: at the end of the input, when nothing or only whitespace is left
    (the block may hold a row at least, and no template holds rows),
    [read] consumes what is left, returns the empty chunk and raises
    nothing; the parser types, the templates and [total_rows] stay as they
    are, so that every further [read] does the same. *)
Theorem read_end_of_input (settings : Settings) (s : ValuesBlockInputFormat) :
  skip_spaces (unread (cursor (buf s))) = [] ->
  0 < max_block_size settings ->
  (forall j t, templates s !! j = Some (Some t) -> rows t = []) ->
  exists s',
    read settings s = (Ret EmptyChunk, s')
    /\ unread (cursor (buf s')) = []
    /\ templates s' = templates s
    /\ parser_type_for_column s' = parser_type_for_column s
    /\ total_rows s' = total_rows s
    /\ trace s' = trace s.
Proof.
  intros Hu Hmax Htpl.
  set (c := skipWhitespaceIfAny (cursor (buf s))).
  assert (unread c = []) as Hc by (unfold c; by rewrite unread_skipWhitespaceIfAny).
  set (s0 := with_block_missing_values (fun _ => [])
               (with_columns (fun _ => replicate (num_columns settings) []) s)).
  set (s2 := with_approx_bytes_read_for_chunk (bytes c - bytes (cursor (buf s0)))
               (set_cursor c s0)).
  exists (set_cursor (refill c) s2).
  split; [|simpl; rewrite ?unread_refill; done].
  unfold read. erewrite bind_Ret by reflexivity.
  erewrite (bind_Ret _ _ s _ s).
  2: { case_bool_decide; [by apply readPrefix_blank | done]. }
  erewrite bind_Ret by reflexivity. erewrite bind_Ret by reflexivity.
  erewrite bind_Ret by reflexivity. fold s0.
  erewrite (bind_Ret _ _ s0 0 (set_cursor c s0)).
  2: { destruct (max_block_size settings) as [|n]; [lia|]. simpl.
       erewrite bind_Ret by (by apply read_next_row_blank). done. }
  erewrite bind_Ret by reflexivity. erewrite bind_Ret by reflexivity. fold s2.
  pose proof (readSuffix_eof s2 Hc) as Hsuffix.
  destruct (need_only_count settings).
  - simpl. erewrite bind_Ret by exact Hsuffix. done.
  - erewrite bind_Ret by reflexivity.
    erewrite bind_Ret by (by apply evaluate_templates_nothing).
    erewrite bind_Ret by reflexivity.
    change (columns s2) with (replicate (num_columns settings) ([] : IColumn)).
    destruct (num_columns settings); simpl; erewrite bind_Ret by exact Hsuffix; done.
Qed.

(** ** A row opens with a round bracket *)

Lemma assertChar_other c x rest b :
  unread b = x :: rest -> x <> c ->
  assertChar c b = (Throw (exception CANNOT_PARSE_INPUT_ASSERTION_FAILED), refill b).
Proof.
  intros Hu Hx. unfold assertChar. pose proof (checkChar_spec c b) as H.
  rewrite Hu in H. simpl in H.
  destruct (Ascii.eqb x c) eqn:E; [by apply Ascii.eqb_eq in E|]. by rewrite H.
Qed.

Lemma read_next_row_without_bracket settings s k x rest :
  need_only_count settings = false ->
  skip_spaces (unread (cursor (buf s))) = x :: rest ->
  x <> "("%char -> x <> ";"%char ->
  exists s',
    read_next_row settings k s
    = (Throw (mkException CANNOT_PARSE_INPUT_ASSERTION_FAILED
                (if isParseError CANNOT_PARSE_INPUT_ASSERTION_FAILED
                 then Some (total_rows s) else None)), s')
    /\ unread (cursor (buf s')) = x :: rest
    /\ trace s' = trace s
    /\ columns s' = columns s.
Proof.
  intros Hcount Hu Hopen Hsemi.
  set (c := skipWhitespaceIfAny (cursor (buf s))).
  assert (unread c = x :: rest) as Hc by (unfold c; by rewrite unread_skipWhitespaceIfAny).
  assert (refill c = c) as Hrc by apply refill_skipWhitespaceIfAny.
  exists (set_cursor c (with_token_iterator None s)).
  split; [|by simpl].
  unfold read_next_row, try_catch.
  erewrite bind_Ret by reflexivity. erewrite bind_Ret by reflexivity.
  simpl. fold c. rewrite Hrc.
  rewrite (at_eof_refilled _ Hrc), (head_working_refilled _ Hrc), Hc. simpl.
  rewrite bool_decide_eq_false_2 by (intros [= ->]; done).
  rewrite Hcount. unfold bind at 1. unfold readRow.
  erewrite bind_Ret by reflexivity.
  erewrite bind_Throw.
  2: { unfold on_buf. simpl. fold c. rewrite (assertChar_other _ x rest) by done.
       rewrite Hrc. reflexivity. }
  unfold bind, get. simpl.
  destruct (isParseError CANNOT_PARSE_INPUT_ASSERTION_FAILED); reflexivity.
Qed.

(** X13: when the next row does not open with a round bracket (after
    whitespace the input goes on with a byte that is neither the bracket
    nor a semicolon), [read] raises CANNOT_PARSE_INPUT_ASSERTION_FAILED,
    with the number of rows read so far attached when [isParseError] counts
    that code as a parse error; nothing but the whitespace is consumed and
    no collaborator is called. *)
Theorem read_row_without_bracket (settings : Settings) (s : ValuesBlockInputFormat)
    (x : ascii) (rest : list ascii) :
  need_only_count settings = false ->
  0 < max_block_size settings ->
  skip_spaces (unread (if bool_decide (total_rows s = 0%N)
                       then skipBOMIfExists (cursor (buf s)) else cursor (buf s)))
    = x :: rest ->
  x <> "("%char -> x <> ";"%char ->
  exists s',
    read settings s
    = (Throw (mkException CANNOT_PARSE_INPUT_ASSERTION_FAILED
                (if isParseError CANNOT_PARSE_INPUT_ASSERTION_FAILED
                 then Some (total_rows s) else None)), s')
    /\ unread (cursor (buf s')) = x :: rest
    /\ trace s' = trace s.
Proof.
  intros Hcount Hmax Hu Hopen Hsemi.
  set (start := if bool_decide (total_rows s = 0%N)
                then skipBOMIfExists (cursor (buf s)) else cursor (buf s)) in Hu.
  set (s0 := with_block_missing_values (fun _ => [])
               (with_columns (fun _ => replicate (num_columns settings) [])
                  (set_cursor start s))).
  destruct (read_next_row_without_bracket settings s0 0 x rest) as (s' & Hrow & Hrest & Htrace & _);
    [done | done | done | done |].
  exists s'. split; [|done].
  unfold read. erewrite bind_Ret by reflexivity.
  erewrite (bind_Ret _ _ s _ (set_cursor start s)).
  2: { unfold start. case_bool_decide; [done|]. by rewrite set_cursor_cursor. }
  erewrite bind_Ret by reflexivity. erewrite bind_Ret by reflexivity.
  erewrite bind_Ret by reflexivity. fold s0.
  erewrite bind_Throw; [reflexivity|].
  destruct (max_block_size settings) as [|n]; [lia|]. simpl.
  erewrite bind_Throw by exact Hrow. done.
Qed.

(** ** The decision to deduce is stable *)

Lemma counter_insert_zero (l : list N) idx : counter (<[idx := 0%N]> l) idx = 0%N.
Proof.
  unfold counter. destruct (decide (idx < length l)) as [Hlt|Hge].
  - by rewrite list_lookup_insert_eq.
  - rewrite list_insert_ge by lia. by rewrite lookup_ge_None_2 by lia.
Qed.

(** X14: asking [shouldDeduceNewTemplate] again gives the same answer and
    changes nothing more: a refusal leaves the counters as they are, and
    after an agreement, with or without the reset of the counters, the
    weighted score is below the limit. *)
Theorem shouldDeduceNewTemplate_again (settings : Settings) (column_idx : nat)
    (s : ValuesBlockInputFormat) :
  let r := shouldDeduceNewTemplate settings column_idx s in
  shouldDeduceNewTemplate settings column_idx (snd r) = r.
Proof.
  cbv zeta. destruct (shouldDeduceNewTemplate settings column_idx s) as [o s1] eqn:E.
  simpl. revert E. unfold shouldDeduceNewTemplate.
  destruct (deduce_templates_of_expressions settings); simpl; [|by intros [= <- <-]].
  unfold bind at 1, get at 1.
  destruct (Qltb (attempts_weighted column_idx s) max_attempts) eqn:Hlow.
  { intros [= <- <-]. unfold bind, get. by rewrite Hlow. }
  destruct (Qltb 1 (Q_of_size_t (counter (rows_parsed_using_template s) column_idx)
                    / attempts_weighted column_idx s)) eqn:Hpays.
  - run. intros [= <- <-]. unfold attempts_weighted. simpl.
    rewrite !counter_insert_zero. done.
  - intros [= <- <-]. unfold bind, get. by rewrite Hlow, Hpays.
Qed.

(** ** The schema reader *)

Lemma further_ignore n b : further b (ignore n b).
Proof.
  apply (further_drop _ _ (min n (length (unread b)))); [lia | |apply bytes_ignore].
  rewrite unread_ignore. destruct (decide (n <= length (unread b))).
  - by rewrite Nat.min_l.
  - rewrite Nat.min_r by lia. by rewrite !drop_ge by lia.
Qed.

Lemma further_skipBOMIfExists b : further b (skipBOMIfExists b).
Proof. unfold skipBOMIfExists. case_bool_decide; [apply further_ignore | apply further_refl]. Qed.

Lemma further_assertChar c b : further b (snd (assertChar c b)).
Proof.
  unfold assertChar. pose proof (further_checkChar c b) as H.
  by destruct (checkChar c b) as [[] b'].
Qed.

Lemma assertChar_consumes c b b' :
  assertChar c b = (Ret tt, b') -> length (unread b') < length (unread b).
Proof.
  unfold assertChar. destruct (checkChar_cases c b) as [(r & Hu & Ht & Hr)|(_ & Hf & _)];
    destruct (checkChar c b) as [[] b0]; simpl in *; try done.
  intros [= <-]. rewrite Hu, Hr. simpl. lia.
Qed.

Section SchemaReader.

Variable DataTypePtr : Type.
Variable readQuotedField : ReadBuffer -> Outcome (list ascii) * ReadBuffer.
Variable tryInferDataTypeByEscapingRule : list ascii -> Outcome DataTypePtr.

Hypothesis readQuotedField_further : forall b, further b (snd (readQuotedField b)).

Lemma read_fields_returns fuel data_types b :
  length (unread b) + (if data_types is [] then 1 else 0) < fuel ->
  exists o b',
    Schema.read_fields DataTypePtr readQuotedField tryInferDataTypeByEscapingRule
      fuel data_types b = Some (o, b')
    /\ further b b'.
Proof using readQuotedField_further.
  revert data_types b. induction fuel as [|fuel IH]; intros data_types b Hfuel; [lia|].
  simpl.
  destruct (at_eof (refill b) || bool_decide (head (working (refill b)) = Some ")"%char)).
  { eexists _, _. split; [done | apply further_refill]. }
  set (pre := match data_types with [] => _ | _ :: _ => _ end).
  assert (further b (snd pre)
          /\ (fst pre = Ret tt ->
              length (unread (snd pre)) + (if data_types is [] then 0 else 1)
              <= length (unread b))) as [Hpre Hlen].
  { unfold pre. destruct data_types as [|ty tys]; simpl.
    - split; [apply further_refill|]. rewrite unread_refill. lia.
    - pose proof (further_assertChar ","%char (refill b)) as Hf.
      destruct (assertChar ","%char (refill b)) as [[[]|e] b0] eqn:E; simpl in *.
      + split.
        * eapply further_trans; [apply further_refill|].
          eapply further_trans; [exact Hf | apply further_skipWhitespaceIfAny].
        * intros _. apply assertChar_consumes in E. rewrite unread_refill in E.
          pose proof (further_length _ _ (further_skipWhitespaceIfAny b0)). lia.
      + split; [|done]. eapply further_trans; [apply further_refill | exact Hf]. }
  destruct pre as [[[]|e] b1]; simpl in *.
  2: { eexists _, _. split; done. }
  specialize (Hlen eq_refl).
  pose proof (readQuotedField_further b1) as Hq.
  destruct (readQuotedField b1) as [[value|e] b2]; simpl in Hq.
  2: { eexists _, _. split; [done|]. by eapply further_trans. }
  destruct (tryInferDataTypeByEscapingRule value) as [type|e].
  2: { eexists _, _. split; [done|]. by eapply further_trans. }
  pose proof (further_skipWhitespaceIfAny b2) as Hws.
  destruct (IH (data_types ++ [type]) (skipWhitespaceIfAny b2)) as (o & b' & -> & Hb').
  { apply further_length in Hq, Hws.
    destruct data_types; simpl in *; lia. }
  eexists _, _. split; [done|].
  eapply further_trans; [exact Hpre|]. eapply further_trans; [exact Hq|].
  by eapply further_trans.
Qed.

(** X15: given that [readQuotedField] only moves forward over the input,
    [ValuesSchemaReader::readRowAndGetDataTypes] always returns (the loop
    over the fields ends: every field but the first costs a comma), it
    only moves forward over the input, and the first row is over
    afterwards.  Once [end_of_data] is set by a semicolon after a row, it
    stays set and every call returns nothing, whatever follows the
    semicolon. *)
Theorem readRowAndGetDataTypes_returns (r : Schema.ValuesSchemaReader) :
  exists o r',
    Schema.readRowAndGetDataTypes DataTypePtr readQuotedField tryInferDataTypeByEscapingRule r
    = Some (o, r')
    /\ further (Schema.buf r) (Schema.buf r')
    /\ Schema.first_row r' = false
    /\ (Schema.end_of_data r = true -> o = Ret None /\ Schema.end_of_data r' = true)
    /\ (Schema.end_of_data r' = false -> Schema.end_of_data r = false).
Proof using readQuotedField_further.
  unfold Schema.readRowAndGetDataTypes.
  set (b0 := if Schema.first_row r then skipBOMIfExists (Schema.buf r) else Schema.buf r).
  set (b := refill (skipWhitespaceIfAny b0)).
  assert (further (Schema.buf r) b) as Hb.
  { eapply further_trans; [|apply further_refill].
    eapply further_trans; [|apply further_skipWhitespaceIfAny].
    unfold b0. destruct (Schema.first_row r); [apply further_skipBOMIfExists | apply further_refl]. }
  destruct (Schema.end_of_data r) eqn:Hend.
  { rewrite orb_true_r. eexists _, _. split; [done|]. simpl. done. }
  rewrite orb_false_r. destruct (at_eof b).
  { eexists _, _. split; [done|]. simpl. done. }
  pose proof (further_assertChar "("%char b) as H1.
  destruct (assertChar "("%char b) as [[[]|e] b1]; simpl in H1.
  2: { eexists _, _. split; [done|]. simpl. split; [by eapply further_trans | done]. }
  pose proof (further_skipWhitespaceIfAny b1) as H1'.
  destruct (read_fields_returns (Schema.fields_fuel (skipWhitespaceIfAny b1)) []
              (skipWhitespaceIfAny b1)) as (o & b2 & -> & H2).
  { unfold Schema.fields_fuel. lia. }
  assert (further (Schema.buf r) b2) as Hb2.
  { eapply further_trans; [exact Hb|]. eapply further_trans; [exact H1|].
    by eapply further_trans. }
  destruct o as [data_types|e].
  2: { eexists _, _. split; [done|]. simpl. done. }
  pose proof (further_assertChar ")"%char b2) as H3.
  destruct (assertChar ")"%char b2) as [[[]|e] b3]; simpl in H3.
  2: { eexists _, _. split; [done|]. simpl. split; [by eapply further_trans | done]. }
  pose proof (further_checkChar ";"%char (skip_comma (skipWhitespaceIfAny b3))) as H5.
  destruct (checkChar ";"%char (skip_comma (skipWhitespaceIfAny b3))) as [semicolon b5].
  simpl in H5. eexists _, _. split; [done|]. simpl. split; [|done].
  eapply further_trans; [exact Hb2|]. eapply further_trans; [exact H3|].
  eapply further_trans; [apply further_skipWhitespaceIfAny|].
  eapply further_trans; [apply (further_checkChar ","%char) | exact H5].
Qed.

End SchemaReader.

(** ** One row for every cell *)

Lemma rows_read_value idx s s' v :
  columns s' = alter (fun c => c ++ [v]) idx (columns s) ->
  template_rows idx s' = template_rows idx s ->
  idx < length (columns s) ->
  rows_read idx s' = S (rows_read idx s).
Proof.
  intros Hc Ht Hlen. unfold rows_read, column. rewrite Ht, Hc.
  rewrite column_alter by done. rewrite length_app. simpl. lia.
Qed.

Lemma rows_read_template idx s s' :
  columns s' = columns s ->
  template_rows idx s' = S (template_rows idx s) ->
  rows_read idx s' = S (rows_read idx s).
Proof. intros Hc Ht. unfold rows_read, column. rewrite Ht, Hc. lia. Qed.

Lemma rows_read_same idx s s' :
  columns s' = columns s -> templates s' = templates s -> rows_read idx s' = rows_read idx s.
Proof.
  intros Hc Ht. unfold rows_read, column, template_rows, template_of. by rewrite Ht, Hc.
Qed.

Lemma template_rows_reset idx s s' :
  templates s' = <[idx := None]> (templates s) -> template_rows idx s' = 0.
Proof.
  intros Ht. unfold template_rows, template_of. rewrite Ht.
  destruct (decide (idx < length (templates s))).
  - by rewrite list_lookup_insert_eq.
  - rewrite list_insert_ge by lia. by rewrite lookup_ge_None_2 by lia.
Qed.

Lemma template_rows_none idx s : template_of idx s = None -> template_rows idx s = 0.
Proof. unfold template_rows. by intros ->. Qed.

Lemma parse_with_delimiter_columns settings idx s o s' :
  parse_with_delimiter settings idx s = (o, s') -> columns s' = columns s.
Proof.
  unfold parse_with_delimiter. unfold bind at 1.
  destruct (readUntilTheEndOfRowAndReTokenize idx s) as [[[]|e] s1] eqn:E;
    destruct (readUntilTheEndOfRowAndReTokenize_frame _ _ _ _ E) as (c & it & -> & _).
  2: { by intros [= <- <-]. }
  run. intros H. repeat case_match; simplify_eq/=; done.
Qed.

Lemma probe_streaming_columns settings idx ast s r s' :
  probe_streaming settings idx ast s = (Ret r, s') ->
  if r then exists v, columns s' = alter (fun c => c ++ [v]) idx (columns s)
  else columns s' = columns s.
Proof.
  unfold probe_streaming. unfold bind at 1, get.
  destruct (bool_decide (parser_type idx s ≠ Streaming) && isLiteral ast).
  2: { by intros [= <- <-]. }
  unfold bind at 1. unfold bind at 1. unfold modify at 1. unfold on_buf at 1.
  simpl.
  destruct (deserializeTextQuoted (column_type settings idx) (cursor (buf s)))
    as [[v|e] c1]; simpl.
  - unfold bind at 1. unfold skip_whitespace, modify at 1.
    match goal with
    | |- context [checkDelimiterAfterValue settings idx ?x] =>
        destruct (checkDelimiterAfterValue_cursor settings idx x) as (ok & c & ->)
    end.
    destruct ok; run; intros [= <- <-]; simpl; [by eexists|].
    apply alter_popBack_insert.
  - destruct (negb (isParseError (code e)) || bool_decide (code e = ARGUMENT_OUT_OF_BOUND));
      run; intros [= <- <-]; done.
Qed.

Lemma template_parse_rows idx it s it' s' :
  template_parse idx it s = (Ret true, it', s') ->
  columns s' = columns s /\ template_rows idx s' = S (template_rows idx s).
Proof.
  unfold template_parse. destruct (template_of idx s) as [t|] eqn:Ht; simpl; [|done].
  destruct (template_parseExpression (structure t) (cursor (buf s)) it) as [[[[b|]|e] c] it0];
    simpl; intros [= <- <-]. split; [done|].
  unfold template_rows. rewrite Ht. unfold template_of in *. simpl.
  destruct (templates s !! idx) as [o|] eqn:Hl; simpl in Ht; [|done].
  rewrite list_lookup_insert_eq by (by eapply lookup_lt_Some). simpl.
  unfold rowsCount. simpl. rewrite length_app. simpl. lia.
Qed.

Lemma deduce_attempt_rows settings idx ast ti_start s s' :
  deduce_attempt settings idx ast ti_start s = (Ret true, s') ->
  columns s' = columns s /\ template_rows idx s' = 1.
Proof.
  unfold deduce_attempt, get_template_structure, template_parse_copy. run.
  destruct (getFromCacheOrConstruct _ _ _ _ _ _ _) as [[[st found]|e] cache]; simpl; [|done].
  assert (forall x : ValuesBlockInputFormat,
            templates x = <[idx := Some (mkTemplate st [])]> (templates s) ->
            template_rows idx x = 0) as Hzero.
  { intros x Hx. unfold template_rows, template_of. rewrite Hx.
    destruct (decide (idx < length (templates s))).
    - by rewrite list_lookup_insert_eq.
    - rewrite list_insert_ge by lia. by rewrite lookup_ge_None_2 by lia. }
  destruct found; simpl;
    match goal with
    | |- context [template_parse idx ti_start ?x] =>
        pose proof (Hzero x eq_refl) as Hx;
        destruct (template_parse idx ti_start x) as [[m it'] s2] eqn:E
    end;
    (destruct m as [[]|e]; simpl; intros [= <-];
     apply template_parse_rows in E as [Hc Hr]; simpl in *; split; [done|];
     unfold template_rows, template_of in *; simpl; lia).
Qed.

Lemma deduce_template_rows settings idx ast ti_start s r s' :
  deduce_template settings idx ast ti_start s = (Ret r, s') ->
  columns s' = columns s
  /\ template_rows idx s = 0
  /\ template_rows idx s' = if r then 1 else 0.
Proof.
  unfold deduce_template. unfold bind at 1, get.
  case_bool_decide as Hnone; [done|].
  assert (template_rows idx s = 0) as Hzero.
  { apply template_rows_none. destruct (template_of idx s); [|done].
    exfalso. apply Hnone. by eexists. }
  unfold bind at 1, try_all.
  pose proof (deduce_attempt_spec settings idx ast ti_start s) as (Hc & _).
  destruct (deduce_attempt settings idx ast ti_start s) as [attempt s1] eqn:E. simpl in Hc.
  destruct attempt as [[]|e].
  - intros [= <- <-]. apply deduce_attempt_rows in E as [_ Hr]. done.
  - run. destruct (interpret_expressions settings); simpl; [|done].
    intros [= <- <-]. split; [done|]. split; [done|]. by eapply template_rows_reset.
  - run. destruct (interpret_expressions settings); simpl; [|done].
    intros [= <- <-]. split; [done|]. split; [done|]. by eapply template_rows_reset.
Qed.

Lemma evaluate_single_columns settings idx ast s r s' :
  evaluate_single settings idx ast s = (Ret r, s') ->
  exists v, columns s' = alter (fun c => c ++ [v]) idx (columns s).
Proof.
  unfold evaluate_single. run. intros H.
  repeat case_match; simplify_eq/=; by eexists.
Qed.

Lemma parseExpression_rows_read settings idx s r s' :
  idx < length (columns s) ->
  parseExpression settings idx s = (Ret r, s') ->
  rows_read idx s' = S (rows_read idx s).
Proof.
  intros Hlen. unfold parseExpression. unfold bind at 1.
  destruct (parse_with_delimiter settings idx s) as [[[ast ti]|e] s1] eqn:E1; [|done].
  pose proof (parse_with_delimiter_columns _ _ _ _ _ E1) as Hc1.
  apply parse_with_delimiter_types in E1 as [_ Ht1].
  unfold bind at 1.
  destruct (probe_streaming settings idx ast s1) as [[streaming|e] s2] eqn:E2; [|done].
  pose proof (probe_streaming_columns _ _ _ _ _ _ E2) as Hc2.
  apply probe_streaming_types in E2 as [Ht2 _].
  assert (forall x : ValuesBlockInputFormat,
            templates x = templates s -> template_rows idx x = template_rows idx s) as Hsame.
  { intros x Hx. unfold template_rows, template_of. by rewrite Hx. }
  destruct streaming.
  { intros [= <- <-]. destruct Hc2 as [v Hc2]. apply (rows_read_value _ _ _ v); [|apply Hsame|done].
    - by rewrite Hc2, Hc1.
    - by rewrite Ht2. }
  unfold bind at 1. unfold set_parser_type, modify at 1. unfold bind at 1.
  match goal with
  | |- context [shouldDeduceNewTemplate settings idx ?x] =>
      pose proof (shouldDeduceNewTemplate_same settings idx x) as (Hc3 & Ht3 & _);
      pose proof (shouldDeduceNewTemplate_types settings idx x) as (_ & _ & [deduce Hd]);
      destruct (shouldDeduceNewTemplate settings idx x) as [o3 s3]
  end; simpl in Hc3, Ht3, Hd. subst o3.
  assert (columns s3 = columns s) as Hc3' by congruence.
  assert (templates s3 = templates s) as Ht3' by congruence.
  unfold bind at 1.
  destruct ((if deduce then deduce_template settings idx ast ti else ret false) s3)
    as [[templated|e] s4] eqn:E4; [|done].
  assert (columns s4 = columns s
          /\ (if templated
              then template_rows idx s4 = S (template_rows idx s)
              else template_rows idx s4 = template_rows idx s)) as [Hc4 Hr4].
  { destruct deduce.
    - apply deduce_template_rows in E4 as (Hc4 & Hz & Hr).
      rewrite (Hsame s3 Ht3') in Hz. split; [congruence|]. destruct templated; lia.
    - injection E4 as <- <-. split; [done|]. by apply Hsame. }
  destruct templated.
  - intros [= <- <-]. by apply rows_read_template.
  - intros E5. pose proof (evaluate_single_columns _ _ _ _ _ _ E5) as [v Hc5].
    apply evaluate_single_types in E5 as (_ & Ht5 & _).
    apply (rows_read_value _ _ _ v); [by rewrite Hc5, Hc4 | | done].
    unfold template_rows, template_of in *. by rewrite Ht5.
Qed.

Lemma tryReadValue_rows_read settings idx s r s' :
  idx < length (columns s) ->
  tryReadValue settings idx s = (Ret r, s') ->
  rows_read idx s' = S (rows_read idx s).
Proof.
  intros Hlen. unfold tryReadValue.
  assert (forall (s1 : ValuesBlockInputFormat) (rb : bool) e,
            rows_read idx (with_buf rollbackToCheckpoint
                             (snd ((if rb then column_popBack idx 1 else ret tt) s1)))
            = rows_read idx s ->
            length (columns (snd ((if rb then column_popBack idx 1 else ret tt) s1)))
            = length (columns s) ->
            tryReadValue_catch settings idx rb e s1 = (Ret r, s') ->
            rows_read idx s' = S (rows_read idx s)) as Hcatch.
  { intros s1 rb e Hrows Hl. unfold tryReadValue_catch.
    destruct (negb (isParseError (code e)) || bool_decide (code e = ARGUMENT_OUT_OF_BOUND));
      [done|].
    unfold bind at 1.
    destruct ((if rb then column_popBack idx 1 else ret tt) s1) as [o2 s2] eqn:E2.
    assert (o2 = Ret tt) as -> by (destruct rb; run; by simplify_eq/=).
    unfold bind at 1, rollback, modify at 1. simpl in Hrows, Hl.
    intros E3. apply parseExpression_rows_read in E3; [|simpl; lia]. by rewrite E3, Hrows. }
  pose proof (read_literal_spec settings idx s) as Hlit.
  destruct (read_literal settings idx s) as [[read|e] s1] eqn:E1;
    apply read_literal_types in E1 as [_ Ht1].
  - destruct Hlit as [[v Hv] _].
    pose proof (assertDelimiterAfterValue_frame settings idx s1) as [Hc _].
    destruct (assert_delimiter settings idx s1) as [[[]|e] s2] eqn:E2; simpl in Hc;
      apply assert_delimiter_types in E2 as [_ Ht2].
    + intros [= <- <-]. apply (rows_read_value _ _ _ v); [congruence| |done].
      unfold template_rows, template_of. by rewrite Ht2, Ht1.
    + apply Hcatch; simpl.
      * apply rows_read_same; simpl; [|congruence].
        rewrite Hc, Hv. apply alter_popBack_insert.
      * by rewrite Hc, Hv, !length_alter.
  - destruct Hlit as [Hc _]. apply Hcatch; simpl; [|by rewrite Hc].
    by apply rows_read_same.
Qed.

Lemma evaluate_into_column_rows_read settings idx s s' :
  idx < length (columns s) ->
  evaluate_into_column settings idx s = (Ret tt, s') ->
  length (column idx s') = rows_read idx s
  /\ length (columns s') = length (columns s)
  /\ exists t, templates s' = <[idx := Some t]> (templates s).
Proof.
  intros Hlen Hrun.
  assert (exists t values,
            template_of idx s = Some t
            /\ evaluate_rows (structure t) (column_type settings idx) (rows t) = Ret values)
    as (t & values & Ht & Hev).
  { revert Hrun. unfold evaluate_into_column. unfold bind at 1, get at 1.
    destruct (column idx s); unfold bind at 1, evaluateAll; unfold bind at 1, get at 1;
      (destruct (template_of idx s) as [t|] eqn:Ht; [|done]);
      run; (destruct (evaluate_rows _ _ _) as [values|] eqn:Hev; intros H;
            [by exists t, values | done]). }
  destruct (evaluate_into_column_spec settings idx s t values Ht Hev Hlen)
    as (s0 & Hrun' & Hc & Htm & _).
  rewrite Hrun in Hrun'. injection Hrun' as <-.
  split; [|split; [by rewrite Hc, length_alter | by eexists]].
  unfold rows_read, template_rows, column. rewrite Ht, Hc, column_alter by done. simpl.
  rewrite length_app, length_map, (evaluate_rows_length _ _ _ _ Hev). done.
Qed.

Lemma tryParseExpressionUsingTemplate_rows_read settings idx s r s' :
  idx < length (columns s) ->
  tryParseExpressionUsingTemplate settings idx s = (Ret r, s') ->
  rows_read idx s' = S (rows_read idx s).
Proof.
  intros Hlen. unfold tryParseExpressionUsingTemplate. unfold bind at 1.
  destruct (readUntilTheEndOfRowAndReTokenize idx s) as [[[]|e] s1] eqn:E1; [|done].
  destruct (readUntilTheEndOfRowAndReTokenize_frame _ _ _ _ E1) as (c & it & -> & _).
  unfold bind at 1, get at 1. unfold bind at 1, template_parse_ref.
  match goal with
  | |- context [template_parse idx ?i ?x] =>
      pose proof (template_parse_same idx i x) as (Hc2 & _ & _ & Ht2);
      destruct (template_parse idx i x) as [[m it'] s2] eqn:E2
  end. simpl in Hc2, Ht2.
  destruct m as [[]|e]; [| |done].
  - run. intros [= <- <-]. apply template_parse_rows in E2 as [_ Hr].
    apply rows_read_template; [done|]. exact Hr.
  - specialize (Ht2 false eq_refl eq_refl).
    unfold bind at 1.
    match goal with
    | |- context [evaluate_into_column settings idx ?x] =>
        destruct (evaluate_into_column settings idx x) as [[[]|e] s3] eqn:E3
    end; [|done].
    apply evaluate_into_column_rows_read in E3 as (Hr3 & Hl3 & t & Ht3);
      [|simpl; by rewrite Hc2].
    simpl in Hl3. rewrite Hc2 in Hl3.
    unfold bind at 1, set_template, modify at 1.
    unfold bind at 1, rollback, modify at 1.
    unfold bind at 1, modify at 1.
    intros E4. apply parseExpression_rows_read in E4; [|simpl; by rewrite Hl3].
    rewrite E4. f_equal.
    assert (rows_read idx (with_token_iterator (Some it') s2) = rows_read idx s) as Hs2.
    { apply rows_read_same; simpl; congruence. }
    rewrite <- Hs2, <- Hr3. unfold rows_read. simpl.
    rewrite (template_rows_reset idx s3); [unfold column; simpl; lia|].
    simpl. done.
Qed.

Lemma read_column_rows_read settings idx row s s' :
  idx < length (columns s) ->
  read_column settings idx row s = (Ret tt, s') ->
  rows_read idx s' = S (rows_read idx s).
Proof.
  intros Hlen. unfold read_column. unfold bind at 1, skip_whitespace, modify at 1.
  unfold with_checkpoint. unfold bind at 1.
  match goal with
  | |- context [parse_value settings idx ?x] =>
      destruct (parse_value settings idx x) as [[r|e] s1] eqn:E1
  end; [|done].
  assert (rows_read idx s1 = S (rows_read idx s)) as H1.
  { revert E1. unfold parse_value. unfold bind at 1, get at 1.
    repeat case_bool_decide; intros E1;
      [ apply tryReadValue_rows_read in E1
      | apply tryParseExpressionUsingTemplate_rows_read in E1
      | apply parseExpression_rows_read in E1 ]; done. }
  intros H. rewrite <- H1. destruct r; run; simplify_eq/=; done.
Qed.

Lemma read_column_other_rows settings idx row s s' j :
  idx < length (parser_type_for_column s) ->
  idx < length (templates s) ->
  template_in_use idx s ->
  read_column settings idx row s = (Ret tt, s') ->
  j <> idx ->
  rows_read j s' = rows_read j s.
Proof.
  intros Hlp Hlt Huse Hrun Hj.
  pose proof (read_column_appends _ _ _ _ _ _ Hrun) as [tail Hc].
  apply read_column_column_in in Hrun as (p & t & Hin & _); [|done..].
  destruct (column_in_other _ _ _ _ _ j Hin Hj) as [_ Ht].
  unfold rows_read, template_rows, column. rewrite Ht, Hc.
  unfold IColumn in *. by rewrite list_lookup_alter_ne.
Qed.

Lemma read_columns_rows_read settings n idx row s s' :
  idx + n <= length (columns s) ->
  idx + n <= length (parser_type_for_column s) ->
  idx + n <= length (templates s) ->
  (forall j, template_in_use j s) ->
  read_columns settings n idx row s = (Ret tt, s') ->
  forall j, rows_read j s'
            = if bool_decide (idx <= j < idx + n) then S (rows_read j s) else rows_read j s.
Proof.
  revert idx s. induction n as [|n IH]; intros idx s Hlc Hlp Hlt Huse; simpl.
  { intros [= <-] j. rewrite bool_decide_eq_false_2 by lia. done. }
  unfold bind at 1.
  destruct (read_column settings idx row s) as [[[]|e] s1] eqn:E1; [|done].
  assert (idx < length (columns s)) as Hic by (unfold IColumn in *; lia).
  pose proof (read_column_rows_read _ _ _ _ _ Hic E1) as Hidx.
  assert (idx < length (parser_type_for_column s)) as Hip by lia.
  assert (idx < length (templates s)) as Hit by lia.
  pose proof (fun j => read_column_other_rows _ _ _ _ _ j Hip Hit (Huse idx) E1) as Hother.
  pose proof (read_column_appends _ _ _ _ _ _ E1) as [tail Hc1].
  apply read_column_column_in in E1 as (p & t & Hin & Hiff); [|lia|lia|done].
  destruct (column_in_length _ _ _ _ _ Hin) as [Hl1 Hl2].
  intros E2 j. rewrite (IH (S idx) s1); [| | | | |exact E2].
  - destruct (decide (j = idx)) as [->|Hne].
    + rewrite bool_decide_eq_false_2 by lia. rewrite bool_decide_eq_true_2 by lia. done.
    + rewrite (Hother j Hne).
      destruct (decide (S idx <= j < S idx + n)).
      * rewrite !bool_decide_eq_true_2 by lia. done.
      * rewrite !bool_decide_eq_false_2 by lia. done.
  - rewrite Hc1, length_alter. unfold IColumn in *. lia.
  - lia.
  - lia.
  - intros k. eapply template_in_use_column_in; [done|done|lia|lia|done].
Qed.

(** X16: a row that is read without an exception adds exactly one row to
    every column, as a value at the end of the column or as a row
    accumulated in the column's template: this is what keeps the columns of
    a block aligned, whichever of the three parsers reads each cell. *)
Theorem readRow_one_row_per_column (settings : Settings) (row_num : nat)
    (s s' : ValuesBlockInputFormat) :
  length (columns s) = num_columns settings ->
  length (parser_type_for_column s) = num_columns settings ->
  length (templates s) = num_columns settings ->
  (forall column_idx, template_in_use column_idx s) ->
  readRow settings row_num s = (Ret tt, s') ->
  forall column_idx, column_idx < num_columns settings ->
    rows_read column_idx s' = S (rows_read column_idx s).
Proof.
  intros Hlc Hlp Hlt Huse. unfold readRow.
  unfold bind at 1, modify at 1. unfold bind at 1.
  match goal with
  | |- context [on_buf ?f ?x] => destruct (on_buf f x) as [[[]|e] s1] eqn:E1
  end; [|done].
  assert (parser_type_for_column s1 = parser_type_for_column s
          /\ templates s1 = templates s /\ columns s1 = columns s) as (Hp1 & Ht1 & Hc1).
  { unfold on_buf in E1. simpl in E1. case_match. by simplify_eq/=. }
  unfold bind at 1.
  destruct (read_columns settings (num_columns settings) 0 row_num s1) as [[[]|e] s2] eqn:E2;
    [|done].
  pose proof (read_columns_rows_read settings (num_columns settings) 0 row_num s1 s2) as Hrows.
  run. intros [= <-] j Hj.
  transitivity (rows_read j s2); [done|].
  rewrite Hrows; [| | | | |done].
  - rewrite bool_decide_eq_true_2 by lia. f_equal.
    unfold rows_read, template_rows, template_of, column. by rewrite Ht1, Hc1.
  - rewrite Hc1. simpl. lia.
  - rewrite Hp1. simpl. lia.
  - rewrite Ht1. simpl. lia.
  - intros k. specialize (Huse k). unfold template_in_use, parser_type, template_of in *.
    by rewrite Hp1, Ht1.
Qed.

(** ** Where the invariant comes from *)

Lemma template_in_use_streaming idx s :
  parser_type idx s = Streaming -> template_of idx s = None -> template_in_use idx s.
Proof. intros Hp Ht. unfold template_in_use. rewrite Hp, Ht. split; [done | by intros []]. Qed.

Lemma reset_columns_length n i s :
  length (parser_type_for_column (snd (reset_columns n i s)))
  = length (parser_type_for_column s)
  /\ length (templates (snd (reset_columns n i s))) = length (templates s).
Proof.
  revert i s. induction n as [|n IH]; intros i s; [done|].
  simpl. unfold bind, set_template, set_parser_type, modify. simpl.
  match goal with
  | |- context [reset_columns n (S i) ?x] =>
      destruct (IH (S i) x) as [H1 H2]; destruct (reset_columns n (S i) x) as [[[]|e] s1]
  end; simpl in *; by rewrite H1, H2, !length_insert.
Qed.

(** X17: a new reader has every column in [Streaming] without a template,
    and so has a reader after [resetParser] when the session got an
    exception; without an exception [resetParser] keeps the parser types and
    the templates.  In each case every column is in [BatchTemplate] exactly
    when it has a template, which is what [readRow] relies on, and
    [total_rows] is zero. *)
Theorem resetParser_template_in_use (settings : Settings) (s : ValuesBlockInputFormat) :
  length (parser_type_for_column s) = num_columns settings ->
  length (templates s) = num_columns settings ->
  got_exception s = true \/ (forall column_idx, template_in_use column_idx s) ->
  let s' := snd (resetParser settings s) in
  (forall column_idx, template_in_use column_idx s')
  /\ length (parser_type_for_column s') = num_columns settings
  /\ length (templates s') = num_columns settings
  /\ total_rows s' = 0%N
  /\ (forall in_ cache column_idx,
        template_in_use column_idx (construct settings in_ cache)
        /\ parser_type column_idx (construct settings in_ cache) = Streaming).
Proof.
  intros Hlp Hlt Hs. cbv zeta.
  enough ((forall column_idx, template_in_use column_idx (snd (resetParser settings s)))
          /\ length (parser_type_for_column (snd (resetParser settings s)))
             = num_columns settings
          /\ length (templates (snd (resetParser settings s))) = num_columns settings
          /\ total_rows (snd (resetParser settings s)) = 0%N) as (? & ? & ? & ?).
  { repeat (split; [done|]).
    intros in_ cache j.
    assert (parser_type j (construct settings in_ cache) = Streaming) as Hp.
    { unfold parser_type. simpl. destruct (decide (j < num_columns settings)).
      - by rewrite lookup_replicate_2.
      - by rewrite lookup_ge_None_2 by (rewrite length_replicate; lia). }
    split; [|done]. apply template_in_use_streaming; [done|].
    unfold template_of. simpl. destruct (decide (j < num_columns settings)).
    - by rewrite lookup_replicate_2.
    - by rewrite lookup_ge_None_2 by (rewrite length_replicate; lia). }
  destruct (resetParser settings s) as [o s'] eqn:Hrun. simpl. revert Hrun.
  unfold resetParser. unfold bind at 1, get at 1.
  destruct (got_exception s) eqn:E.
  - pose proof (reset_columns_spec (num_columns settings) 0 s) as (H1 & H2 & H3 & _).
    unfold bind at 1.
    pose proof (reset_columns_length (num_columns settings) 0 s) as [Hl1 Hl2].
    destruct (reset_columns (num_columns settings) 0 s) as [o1 s1]. simpl in *. subst o1.
    assert (forall j, parser_type j s1 = Streaming /\ template_of j s1 = None) as Hall.
    { intros j. unfold parser_type, template_of. rewrite H2, H3.
      destruct (decide (j < num_columns settings)).
      - rewrite !bool_decide_eq_true_2 by lia.
        destruct (lookup_lt_is_Some_2 (templates s) j) as [x ->]; [lia|].
        destruct (lookup_lt_is_Some_2 (parser_type_for_column s) j) as [y ->]; [lia|]. done.
      - rewrite !bool_decide_eq_false_2 by lia.
        by rewrite !lookup_ge_None_2 by lia. }
    run. intros [= <- <-]. simpl.
    split; [|split; [|split; [|done]]].
    + intros j. destruct (Hall j). by apply template_in_use_streaming.
    + by rewrite Hl1.
    + by rewrite Hl2.
  - destruct Hs as [?|Huse]; [done|]. run. intros [= <- <-]. done.
Qed.

End Properties.

(** * The properties on concrete rows *)

Import Example.

(** To run a call on a concrete state, its outcome is computed; the state
    it leaves is named by projection. *)
Lemma outcome_and_state {A B} (x : A * B) (a : A) : fst x = a -> x = (a, snd x).
Proof. destruct x. simpl. by intros ->. Qed.

Lemma outcome_iterator_and_state {A B D} (x : A * B * D) (a : A) :
  fst (fst x) = a -> x = (a, snd (fst x), snd x).
Proof. destruct x as [[? ?] ?]. simpl. by intros ->. Qed.

Lemma outcome_first_and_state {A B D} (x : Outcome (A * B) * D) (a : A) :
  match fst x with Ret p => Some (fst p) | Throw _ => None end = Some a ->
  exists b, x = (Ret (a, b), snd x).
Proof. destruct x as [[[? b]|?] ?]; simpl; [|done]. intros [= ->]. by exists b. Qed.

Lemma template_is (o : option ConstantExpressionTemplate) (st : list TokenType)
    (bs : list (list N)) :
  structure <$> o = Some st -> rows <$> o = Some bs -> o = Some (template st bs).
Proof. destruct o as [[? ?]|]; simpl; [|done]. by intros [= ->] [= ->]. Qed.

(** The binary64 tests of the heuristic agree with the exact ones around
    the threshold of 100 and around a ratio of 1. *)
Lemma double_agrees_with_exact :
  forallb (fun cold =>
    forallb (fun cached =>
      forallb (fun replayed => Double.agree (N.of_nat cold) cached (N.of_nat replayed))
              (seq 95 15))
      [0; 1; 2; 3; 199; 200; 201]%N)
    (seq 0 71) = true.
Proof. vm_compute. reflexivity. Qed.

(** C2, the claim as worded fails: with the deduction of templates
    disabled in the settings, the score is 0, below 100, and
    [shouldDeduceNewTemplate] returns false. *)
Lemma shouldDeduceNewTemplate_disabled :
  let s := reader one_column_no_templates "" in
  (attempts_weighted 0 s < 100)%Q
  /\ shouldDeduceNewTemplate one_column_no_templates 0 s = (Ret false, s).
Proof. split; reflexivity. Qed.

(** C2 on a row: the column has 67 cold attempts and no replayed row
    behind it when the expression [1+1] arrives.  [parseExpression] parses
    it and calls [shouldDeduceNewTemplate] in the state [s]: the score is
    100.5, the answer is false, and the expression is evaluated at once.
    The parser and the evaluator are the only calls, and the column stays
    in [SingleExpressionEvaluation]. *)
Lemma shouldDeduceNewTemplate_heuristic_witness :
  let s0 := with_attempts_to_deduce_template (fun _ => [67%N])
              (at_value one_column "1+1)") in
  let s := snd (set_parser_type 0 SingleExpressionEvaluation
             (snd (probe_streaming (C := collaborators) one_column 0
                     (EPlus (ENumber 1) (ENumber 1))
                     (snd (parse_with_delimiter one_column 0 s0))))) in
  (attempts_weighted 0 s == 100.5)%Q
  /\ shouldDeduceNewTemplate one_column 0 s = (Ret false, s)
  /\ fst (parseExpression one_column 0 s0) = Ret true
  /\ trace (snd (parseExpression one_column 0 s0)) = [EvParse 0; EvEvaluate 0]
  /\ columns (snd (parseExpression one_column 0 s0)) = [[UInt64 2]]
  /\ parser_type_for_column (snd (parseExpression one_column 0 s0))
     = [SingleExpressionEvaluation].
Proof.
  cbv zeta.
  destruct (outcome_first_and_state
              (parse_with_delimiter one_column 0
                 (with_attempts_to_deduce_template (fun _ => [67%N])
                    (at_value one_column "1+1)")))
              (EPlus (ENumber 1) (ENumber 1))) as [ti_start Hparse];
    [vm_compute; reflexivity|].
  destruct (shouldDeduceNewTemplate_heuristic one_column 0
              (snd (set_parser_type 0 SingleExpressionEvaluation
                 (snd (probe_streaming (C := collaborators) one_column 0
                         (EPlus (ENumber 1) (ENumber 1))
                    (snd (parse_with_delimiter one_column 0
                       (with_attempts_to_deduce_template (fun _ => [67%N])
                          (at_value one_column "1+1)")))))))))
    as (_ & Henabled & Hdeclined).
  destruct (Henabled eq_refl) as (_ & _ & Hscenario).
  destruct Hscenario as (Hscore & _ & Hfalse); [vm_compute; reflexivity..|].
  split; [exact Hscore|]. split; [exact Hfalse|].
  destruct Hdeclined as [_ Hdirectly]; [by rewrite Hfalse|].
  rewrite (Hdirectly _ _
             (snd (probe_streaming (C := collaborators) one_column 0
                     (EPlus (ENumber 1) (ENumber 1))
                     (snd (parse_with_delimiter one_column 0
                        (with_attempts_to_deduce_template (fun _ => [67%N])
                           (at_value one_column "1+1)"))))))
             _ ti_start Hparse);
    [| apply outcome_and_state; vm_compute; reflexivity
     | apply outcome_and_state; vm_compute; reflexivity].
  repeat split; vm_compute; reflexivity.
Defined.

Lemma resetParser_templates_witness :
  let s := with_got_exception true
             (with_parser_type_for_column (fun _ => [BatchTemplate; SingleExpressionEvaluation])
                (with_templates (fun _ => [Some (template [Number; Comma] [[1%N]]); None])
                   (reader two_columns ""))) in
  templates (snd (resetParser two_columns s)) = [None; None]
  /\ parser_type_for_column (snd (resetParser two_columns s)) = [Streaming; Streaming].
Proof.
  apply (resetParser_templates two_columns
           (with_got_exception true
             (with_parser_type_for_column (fun _ => [BatchTemplate; SingleExpressionEvaluation])
                (with_templates (fun _ => [Some (template [Number; Comma] [[1%N]]); None])
                   (reader two_columns "")))) eq_refl eq_refl);
    reflexivity.
Defined.

Lemma tryReadValue_deserializer_error_witness :
  let s := at_value one_column "123456789012345678901234567890)" in
  let c2 := mkReadBuffer 30 [")"%char] [] in
  tryReadValue one_column 0 s
  = (Throw (exception ARGUMENT_OUT_OF_BOUND), log (EvDeserialize 0) (set_cursor c2 s)).
Proof.
  apply (tryReadValue_deserializer_error one_column 0
           (at_value one_column "123456789012345678901234567890)")
           (buffer "123456789012345678901234567890)")
           (mkReadBuffer 30 [")"%char] [])
           (exception ARGUMENT_OUT_OF_BOUND)).
  - vm_compute. reflexivity.
  - vm_compute. reflexivity.
  - right. reflexivity.
Defined.

Lemma tryReadValue_restores_witness :
  let s := at_value one_column "1+1)" in
  let e := exception CANNOT_PARSE_INPUT_ASSERTION_FAILED in
  let s1 := snd (read_literal one_column 0 s) in
  let s3 := snd (assert_delimiter one_column 0 s1) in
  let s2 := with_buf rollbackToCheckpoint (with_columns (alter (popBack 1) 0) s3) in
  columns s1 = [[UInt64 1]]
  /\ tryReadValue one_column 0 s = parseExpression one_column 0 s2
  /\ columns s2 = [[]]
  /\ cursor (buf s2) = buffer "1+1)".
Proof.
  intros s e s1 s3 s2. split; [reflexivity|].
  destruct (tryReadValue_restores one_column 0 s e) as [_ H];
    [reflexivity | discriminate |].
  destruct (H true s1 s3) as (Hrun & _ & Hcols & Hcursor);
    [apply outcome_and_state; vm_compute; reflexivity
    | apply outcome_and_state; vm_compute; reflexivity |].
  split; [exact Hrun|]. split; [exact Hcols|]. apply Hcursor. reflexivity.
Defined.


(** The condition on the delimiter is necessary, not sufficient: in the
    last column the expression [1+1] followed by a trailing comma and the
    closing bracket is refused.  The parser accepts the expression and
    leaves the comma and the bracket; [parseExpression], and with it
    [read], raises SYNTAX_ERROR.  The same trailing comma after a literal
    that the streaming parser reads is accepted by
    [checkDelimiterAfterValue]. *)
Lemma trailing_comma_after_expression :
  let s := at_value one_column "1+1,)" in
  let s1 := snd (readUntilTheEndOfRowAndReTokenize 0 s) in
  fst (parse (iterator s1)) = Some (EPlus (ENumber 1) (ENumber 1))
  /\ map type (tokens_left (snd (parse (iterator s1)))) = [Comma; ClosingRoundBracket]
  /\ fst (parseExpression one_column 0 s) = Throw (exception SYNTAX_ERROR)
  /\ fst (read one_column (reader one_column "(1+1,)")) = Throw (exception SYNTAX_ERROR)
  /\ fst (read one_column (reader one_column "(2,)")) = Ret (ChunkOf [[UInt64 2]] 1).
Proof. intros s s1. repeat split; vm_compute; reflexivity. Qed.

Lemma parseExpression_delimiter_witness :
  let s := at_value one_column "1+1)" in
  let s1 := snd (readUntilTheEndOfRowAndReTokenize 0 s) in
  fst (parseExpression one_column 0 s) = Ret true
  /\ type (current (snd (parse (iterator s1)))) = ClosingRoundBracket.
Proof.
  intros s s1. split; [vm_compute; reflexivity|].
  destruct (parseExpression_delimiter one_column 0 s s1
              (fst (parse (iterator s1))) (snd (parse (iterator s1)))) as [H _];
    [apply outcome_and_state; vm_compute; reflexivity | apply surjective_pairing |].
  apply (H true (snd (parseExpression one_column 0 s))).
  apply outcome_and_state. vm_compute. reflexivity.
Defined.

(** C3: the reader on the rows [(1+1), (DEFAULT)].  The test for the
    [DEFAULT] marker is in [tryReadValue] only, the arm of [readRow] for a
    column in [Streaming]; in a column that has left [Streaming] the cell
    goes to the two other arms.  After the row [(1+1)] the column is in
    [BatchTemplate]; in the next row the cell [DEFAULT] is matched against
    the template, parsed by the expression parser as an identifier and
    evaluated, which raises; no default is appended and no missing-mask bit
    is set.  On the rows [(1), (DEFAULT)], where the column is still in
    [Streaming], the same cell is the default. *)
Lemma DEFAULT_after_expression :
  let s := enter_row (after_rows one_column 1 "(1+1), (DEFAULT)") in
  let r := read_column one_column 0 1 s in
  parser_type 0 s = BatchTemplate
  /\ fst r = Throw (exception UNKNOWN_IDENTIFIER)
  /\ drop (length (trace s)) (trace (snd r))
     = [EvTemplateParse 0; EvEvaluateAll 0; EvParse 0; EvGetTemplate 0; EvEvaluate 0]
  /\ columns (snd r) = [[UInt64 2]]
  /\ block_missing_values (snd r) = []
  /\ fst (read one_column (reader one_column "(1), (DEFAULT)"))
     = Ret (ChunkOf [[UInt64 1; UInt64 0]] 2).
Proof. intros s r. repeat split; vm_compute; reflexivity. Qed.

Lemma read_column_DEFAULT_witness :
  let s := with_columns (fun _ => [[UInt64 1]; []]) (at_value two_columns " Default ) ,(2,'b')") in
  let s' := snd (read_column two_columns 1 0 s) in
  fst (read_column two_columns 1 0 s) = Ret tt
  /\ columns s' = [[UInt64 1]; [Str ""]]
  /\ hasBit 1 0 (block_missing_values s') = true
  /\ trace s' = []
  /\ unread (cursor (buf s')) = list_ascii_of_string " ,(2,'b')".
Proof.
  intros s s'.
  destruct (read_column_DEFAULT two_columns 1 0 s
              (list_ascii_of_string "Default") (list_ascii_of_string " ) ,(2,'b')")
              (list_ascii_of_string " ,(2,'b')"))
    as (c & Hrun & Hc & Hbit & Htrace & Hcol); try reflexivity.
  unfold s'. rewrite Hrun. simpl. repeat split; try done.
Defined.

Lemma tryParseExpressionUsingTemplate_mismatch_witness :
  let s := enter_row (after_rows one_column 2 "(1+1), (2+3), (4+5+6)") in
  rowsCount <$> template_of 0 s = Some 2
  /\ exists s3,
       tryParseExpressionUsingTemplate one_column 0 s = parseExpression one_column 0 s3
       /\ column 0 s3 = [UInt64 2; UInt64 5]
       /\ template_of 0 s3 = None
       /\ cursor (buf s3) = mkReadBuffer 15 (list_ascii_of_string "4+5+6)") [].
Proof.
  intros s. split; [vm_compute; reflexivity|].
  pose (s1 := snd (readUntilTheEndOfRowAndReTokenize 0 s)).
  destruct (tryParseExpressionUsingTemplate_mismatch one_column 0 s s1
              (snd (template_parse 0 (iterator s1) s1))
              (template [Number; Plus; Number; ClosingRoundBracket] [[1; 1]; [2; 3]]%N)
              (snd (fst (template_parse 0 (iterator s1) s1)))
              [(UInt64 2, false); (UInt64 5, false)])
    as (s3 & Hrun & _ & Hcol & Hnone & Hcursor & _);
    [apply outcome_and_state; vm_compute; reflexivity
    | apply template_is; vm_compute; reflexivity
    | apply outcome_iterator_and_state; vm_compute; reflexivity
    | vm_compute; reflexivity | vm_compute; lia | vm_compute; lia |].
  exists s3. split; [exact Hrun|]. split; [exact Hcol|]. split; [exact Hnone|].
  apply Hcursor. vm_compute. reflexivity.
Defined.

(** The example's buffer reports no unread data: [read] returns the empty
    chunk at a semicolon, whether whitespace or a further row follows. *)
Lemma read_at_statement_terminator_witness :
  fst (read one_column (reader one_column " ;  ")) = Ret EmptyChunk
  /\ fst (read one_column (reader one_column " ; (1)")) = Ret EmptyChunk.
Proof.
  assert (forall input j (t : ConstantExpressionTemplate),
            templates (reader one_column input) !! j = Some (Some t) -> rows t = []) as Hnone.
  { intros input [|[|j]] t; done. }
  split.
  - destruct (read_at_statement_terminator one_column (reader one_column " ;  ")
                [" "%char] [" "; " "]%char) as (s' & _ & _ & _ & _ & _ & H);
      [reflexivity | reflexivity | vm_compute; lia | apply Hnone |].
    rewrite H; reflexivity.
  - destruct (read_at_statement_terminator one_column (reader one_column " ; (1)")
                [" "%char] (list_ascii_of_string " (1)")) as (s' & H & _);
      [reflexivity | reflexivity | vm_compute; lia | apply Hnone |].
    rewrite H. reflexivity.
Defined.

Lemma tryToReplaceNull_nulls_allowed_witness :
  let data_type := DataTypeTuple [DataTypeUInt64; DataTypeArray DataTypeString;
                                  DataTypeNullable DataTypeUInt64] in
  let value := Tuple [Null; Array [Null; Str "a"]; Null] in
  let value' := Tuple [UInt64 0; Array [Str EmptyString; Str "a"]; Null] in
  tryToReplaceNullFieldsInComplexTypesWithDefaultValues data_type value = Ret value'
  /\ nulls_allowed data_type value' = true.
Proof.
  intros data_type value value'. split; [reflexivity|].
  apply (tryToReplaceNull_nulls_allowed data_type value value'). reflexivity.
Defined.

Lemma tryToReplaceNull_null_free_witness :
  let data_type := DataTypeMap DataTypeString (DataTypeArray DataTypeUInt64) in
  let value := Map [Tuple [Str "k"; Array [UInt64 1; UInt64 2]]] in
  let value' := Map [Tuple [Str "k"; Array [UInt64 1; UInt64 2]]] in
  null_free value = true
  /\ tryToReplaceNullFieldsInComplexTypesWithDefaultValues data_type value = Ret value'
  /\ value' = value.
Proof.
  intros data_type value value'. split; [reflexivity|]. split; [reflexivity|].
  apply (tryToReplaceNull_null_free data_type value value'); reflexivity.
Defined.

Lemma read_column_literal_witness :
  let s := reading two_columns " 17 , 'a')" in
  let s' := snd (read_column two_columns 0 0 s) in
  fst (read_column two_columns 0 0 s) = Ret tt
  /\ columns s' = [[UInt64 17]; []]
  /\ block_missing_values s' = []
  /\ trace s' = [EvDeserialize 0]
  /\ unread (cursor (buf s')) = list_ascii_of_string " 'a')".
Proof.
  intros s s'.
  destruct (read_column_literal two_columns 0 0 s
              (mkReadBuffer 1 (list_ascii_of_string "17 , 'a')") [])
              (mkReadBuffer 3 (list_ascii_of_string " , 'a')") [])
              (UInt64 17) true (list_ascii_of_string " 'a')"))
    as (c & Hrun & Hc & Htrace & _);
    [reflexivity | vm_compute; reflexivity | simpl; split; vm_compute; reflexivity
    | vm_compute; reflexivity |].
  unfold s'. rewrite Hrun. simpl. repeat split; try done.
Defined.

Lemma readUntilTheEndOfRowAndReTokenize_position_witness :
  let s := at_value one_column "1+1), (2)" in
  let r := readUntilTheEndOfRowAndReTokenize 0 s in
  checkpoint (buf s) = Some (buffer "1+1), (2)")
  /\ (fst r = Ret tt -> type (current_token (snd r)) = Number)
  /\ cursor (buf (snd r)) = buffer "1+1), (2)".
Proof.
  intros s r.
  destruct (readUntilTheEndOfRowAndReTokenize_position 0 s (buffer "1+1), (2)"))
    as ((it & c & Hs & Hc) & Hok & _); [reflexivity|].
  split; [reflexivity|]. split; [intros _; vm_compute; reflexivity|].
  unfold r. rewrite Hs. simpl. destruct Hc as [->| ->]; reflexivity.
Defined.

Lemma tryParseExpressionUsingTemplate_match_witness :
  let s := enter_row (after_rows one_column 2 "(1+1), (2+3), (4+5)") in
  let r := tryParseExpressionUsingTemplate one_column 0 s in
  fst r = Ret true
  /\ columns (snd r) = [[]]
  /\ rows <$> template_of 0 s = Some [[1; 1]; [2; 3]]%N
  /\ rows <$> template_of 0 (snd r) = Some [[1; 1]; [2; 3]; [4; 5]]%N
  /\ trace (snd r) = trace s ++ [EvTemplateParse 0].
Proof.
  intros s r.
  pose (s1 := snd (readUntilTheEndOfRowAndReTokenize 0 s)).
  pose (x := template_parseExpression [Number; Plus; Number; ClosingRoundBracket]
               (cursor (buf s1)) (iterator s1)).
  destruct (tryParseExpressionUsingTemplate_match one_column 0 s s1
              (template [Number; Plus; Number; ClosingRoundBracket] [[1; 1]; [2; 3]]%N)
              [4; 5]%N (snd (fst x)) (snd x))
    as (Hrun & Hcol & _ & Htem & _ & Htrace);
    [apply outcome_and_state; vm_compute; reflexivity
    | apply template_is; vm_compute; reflexivity
    | apply (outcome_iterator_and_state x); vm_compute; reflexivity |].
  unfold r. rewrite Hrun. cbn [fst snd].
  split; [reflexivity|]. split; [rewrite Hcol; vm_compute; reflexivity|].
  split; [vm_compute; reflexivity|]. split; [|exact Htrace].
  unfold template_of. rewrite Htem. vm_compute. reflexivity.
Defined.

Lemma readRow_template_in_use_witness :
  let s := reading one_column "(1+1), (2+3)" in
  let s' := snd (readRow one_column 0 s) in
  fst (readRow one_column 0 s) = Ret tt
  /\ parser_type 0 s = Streaming
  /\ parser_type 0 s' = BatchTemplate
  /\ forall column_idx, template_in_use column_idx s'.
Proof.
  intros s s'.
  split; [vm_compute; reflexivity|]. split; [reflexivity|]. split; [vm_compute; reflexivity|].
  apply (readRow_template_in_use one_column 0 s (snd (readRow one_column 0 s)));
    [reflexivity | reflexivity | |].
  - intros [|j]; (split; [intros H; vm_compute in H; discriminate H | intros [t Ht]; discriminate Ht]).
  - apply outcome_and_state. vm_compute. reflexivity.
Defined.

Lemma read_without_interpreter_witness :
  let cfg := mkSettings 1 [DataTypeUInt64] false false true 100 false in
  let s := reader cfg "(1+1), (2+3)" in
  fst (read cfg s) = Ret (ChunkOf [[UInt64 2; UInt64 5]] 2)
  /\ exists calls,
       trace (snd (read cfg s)) = trace s ++ calls
       /\ forall column_idx, EvEvaluate column_idx ∉ calls.
Proof.
  intros cfg s. split; [vm_compute; reflexivity|].
  apply (read_without_interpreter cfg s). reflexivity.
Defined.

Lemma parseExpression_without_interpreter_witness :
  let cfg := mkSettings 1 [DataTypeUInt64] false false true 100 false in
  let s := at_value cfg "1+1)" in
  let r := parseExpression cfg 0 s in
  fst r = Ret true
  /\ parser_type_for_column (snd r) = [BatchTemplate]
  /\ (parser_type_for_column (snd r) = <[0 := Streaming]> (parser_type_for_column s)
      /\ templates (snd r) = templates s
      \/ parser_type_for_column (snd r) = <[0 := BatchTemplate]> (parser_type_for_column s)
         /\ exists t, templates (snd r) = <[0 := Some t]> (templates s)).
Proof.
  intros cfg s r. split; [vm_compute; reflexivity|]. split; [vm_compute; reflexivity|].
  destruct (parseExpression_without_interpreter cfg 0 s (snd (parseExpression cfg 0 s)) true)
    as [_ H];
    [reflexivity | apply outcome_and_state; vm_compute; reflexivity | exact H].
Defined.

Lemma read_need_only_count_witness :
  let cfg := mkSettings 1 [DataTypeUInt64] false true true 100 true in
  let s := reader cfg "(1), (oops, ')'), (3)" in
  fst (read cfg s) = Ret (ChunkForCount 3)
  /\ total_rows (snd (read cfg s)) = 3%N
  /\ trace (snd (read cfg s)) = trace s.
Proof.
  intros cfg s. split; [vm_compute; reflexivity|]. split; [vm_compute; reflexivity|].
  destruct (read_need_only_count cfg s) as (Htrace & _); [reflexivity | exact Htrace].
Defined.

Lemma read_end_of_input_witness :
  let s := reader two_columns "  " in
  fst (read two_columns s) = Ret EmptyChunk
  /\ unread (cursor (buf (snd (read two_columns s)))) = [].
Proof.
  intros s.
  destruct (read_end_of_input two_columns s) as (s' & -> & Hu & _);
    [reflexivity | vm_compute; lia | intros [|[|[|j]]] t; done | done].
Defined.

Lemma read_row_without_bracket_witness :
  let s := reader one_column " 1), (2)" in
  fst (read one_column s)
  = Throw (mkException CANNOT_PARSE_INPUT_ASSERTION_FAILED (Some 0%N))
  /\ unread (cursor (buf (snd (read one_column s)))) = list_ascii_of_string "1), (2)".
Proof.
  intros s.
  destruct (read_row_without_bracket one_column s "1"%char (list_ascii_of_string "), (2)"))
    as (s' & -> & Hu & _);
    [reflexivity | vm_compute; lia | reflexivity | done | done | done].
Defined.

Lemma readRowAndGetDataTypes_returns_witness :
  let r := SchemaExample.schema_reader "(1, 'a'); (2)" in
  let r1 := Schema.mkSchemaReader (mkReadBuffer 9 (list_ascii_of_string " (2)") []) false true in
  SchemaExample.read_row_types r = Some (Ret (Some [DataTypeUInt64; DataTypeString]), r1)
  /\ (exists o r2, SchemaExample.read_row_types r1 = Some (o, r2)
                   /\ further (Schema.buf r1) (Schema.buf r2)
                   /\ o = Ret None /\ Schema.end_of_data r2 = true).
Proof.
  intros r r1. split; [vm_compute; reflexivity|].
  destruct (readRowAndGetDataTypes_returns IDataType SchemaExample.read_field
              SchemaExample.infer) with (r := r1) as (o & r2 & Hrun & Hf & _ & Hend & _).
  { intros b. unfold SchemaExample.read_field.
    repeat case_match; simpl; apply further_ignore. }
  exists o, r2. destruct (Hend eq_refl) as [-> ->]. done.
Defined.

Lemma readRow_one_row_per_column_witness :
  let s := reading two_columns "(1+1, 'a'), (2+3, 'b')" in
  let s' := snd (readRow two_columns 0 s) in
  fst (readRow two_columns 0 s) = Ret tt
  /\ columns s' = [[]; [Str "a"]]
  /\ rows_read 0 s = 0 /\ rows_read 1 s = 0
  /\ rows_read 0 s' = 1 /\ rows_read 1 s' = 1.
Proof.
  intros s s'.
  split; [vm_compute; reflexivity|]. split; [vm_compute; reflexivity|].
  split; [vm_compute; reflexivity|]. split; [vm_compute; reflexivity|].
  assert (forall column_idx, column_idx < 2 -> rows_read column_idx s' = S (rows_read column_idx s))
    as H.
  { apply (readRow_one_row_per_column two_columns 0 s (snd (readRow two_columns 0 s)));
      [reflexivity | reflexivity | reflexivity | |].
    - intros [|[|j]];
        (split; [intros H; vm_compute in H; discriminate H | intros [t Ht]; discriminate Ht]).
    - apply outcome_and_state. vm_compute. reflexivity. }
  split; [apply (H 0); lia | apply (H 1); lia].
Defined.

Lemma resetParser_template_in_use_witness :
  let s := with_got_exception true
             (with_parser_type_for_column (fun _ => [BatchTemplate])
                (reader one_column "(1)")) in
  parser_type 0 s = BatchTemplate
  /\ parser_type 0 (snd (resetParser one_column s)) = Streaming
  /\ forall column_idx, template_in_use column_idx (snd (resetParser one_column s)).
Proof.
  intros s. split; [reflexivity|]. split; [vm_compute; reflexivity|].
  destruct (resetParser_template_in_use one_column s) as (Huse & _);
    [reflexivity | reflexivity | left; reflexivity | exact Huse].
Defined.
